(** * pmi_sprint_reporter: a shallow embedding of [reporter.py]

    The script loads the sprint CSV files of every HPO (site) into the CDM
    tables of a database schema and keeps a log table of what happened.
    This development embeds the functions of [reporter.py] as Rocq
    functions over an explicit model of the database, of the file system
    and of the clock, and proves the properties of the specification.

    Layout: Python string helpers, the schema catalog, the database
    namespace and its reset ([drop_tables], [create_tables]), the data
    frame transformation, the per-table loader ([process]), the log export
    ([export_log]), the driver ([main]); then the lemmas and theorems. *)

From Stdlib Require Import Ascii String List ZArith NArith Lia Bool.
From Stdlib Require Import Sorting.Sorted.
From stdpp Require Import gmap strings list fin_maps pretty.

Local Open Scope string_scope.
Local Open Scope list_scope.

(* ===================================================================== *)
(** ** Python strings *)
(* ===================================================================== *)

Module PyStr.

(** [str.lower] on one byte: only the ASCII letters [A]-[Z] change. *)
Definition lower_ascii (c : ascii) : ascii :=
  let n := nat_of_ascii c in
  if (65 <=? n)%nat && (n <=? 90)%nat then ascii_of_nat (n + 32) else c.

(** [s.lower()] *)
Fixpoint lower (s : string) : string :=
  match s with
  | EmptyString => EmptyString
  | String c s' => String (lower_ascii c) (lower s')
  end.

(** [s.startswith(p)] *)
Fixpoint startswith (p s : string) : bool :=
  match p, s with
  | EmptyString, _ => true
  | String a p', String b s' => if Ascii.eqb a b then startswith p' s' else false
  | String _ _, EmptyString => false
  end.

(** [sub in s] *)
Fixpoint contains (sub s : string) : bool :=
  startswith sub s ||
  match s with
  | EmptyString => false
  | String _ s' => contains sub s'
  end.

(** [s.endswith(suffix)] *)
Fixpoint endswith (suffix s : string) : bool :=
  String.eqb suffix s ||
  match s with
  | EmptyString => false
  | String _ s' => endswith suffix s'
  end.

(** [s.split(sep)[-1]] for a one-character separator: the part of [s]
    after the last occurrence of [sep] (all of [s] when there is none).
    [cur] is the part read since the last separator, reversed. *)
Fixpoint split_last_go (sep : ascii) (cur : string) (s : string) : string :=
  match s with
  | EmptyString => String.rev cur
  | String c s' =>
      if Ascii.eqb c sep then split_last_go sep EmptyString s'
      else split_last_go sep (String c cur) s'
  end.

Definition split_last (sep : ascii) (s : string) : string :=
  split_last_go sep EmptyString s.

(** The double quote character, written by its code. *)
Definition dquote : string := String (ascii_of_nat 34) EmptyString.

(** [str(n)] of a non-negative integer. *)
Definition str_N (n : N) : string := pretty n.

(** [str(n).zfill(w)], the [%0wd] of the date formats. *)
Fixpoint zeros (k : nat) : string :=
  match k with
  | O => EmptyString
  | S k' => String "0" (zeros k')
  end.

Definition zfill (w : nat) (n : N) : string :=
  let s := str_N n in
  zeros (w - String.length s) ++ s.

End PyStr.

(* ===================================================================== *)
(** ** Exceptions and results *)
(* ===================================================================== *)

(** The [params] attribute of a [StatementError]: [None], or an object
    (tuple, list or dict of bound values) given by its [str()]. *)
Inductive PyParams :=
| ParamsNone
| ParamsObj (rendering : string).

(** [str(e.params)] *)
Definition str_params (p : PyParams) : string :=
  match p with
  | ParamsNone => "None"
  | ParamsObj s => s
  end.

(** The exceptions the script raises or meets, each with its [message].
    All are subclasses of [Exception]; [StatementError] is the class the
    first [except] clause of [process] names. *)
Inductive PyExc :=
| NotImplementedError (message : string)
| InvalidRequestError (message : string)
| KeyError (key : string)
| ValueError (message : string)
| NoSuchTableError (message : string)
| StatementError (message : string) (params : PyParams)
| Exception (message : string).

(** [e.message] *)
Definition exc_message (e : PyExc) : string :=
  match e with
  | NotImplementedError m | InvalidRequestError m | KeyError m
  | ValueError m | NoSuchTableError m | StatementError m _ | Exception m => m
  end.

Inductive result (A : Type) :=
| Ok (a : A)
| Raise (e : PyExc).
Arguments Ok {A} a.
Arguments Raise {A} e.

Definition is_ok {A} (r : result A) : bool :=
  match r with Ok _ => true | Raise _ => false end.

(* ===================================================================== *)
(** ** The schema catalog ([cdm.csv], [pmi_tables.csv]) and the settings *)
(* ===================================================================== *)

(** The column types of sqlalchemy the script uses. *)
Inductive SqlType :=
| String_ (length : nat)
| BigInteger
| Float
| Date
| DateTime
| DateTime_fsp (fsp : nat)
| Boolean.

(** [Column(name, tpe, nullable=...)] *)
Record Column := mkColumn {
  col_name : string;
  col_type : SqlType;
  col_nullable : bool
}.

(** One line of [cdm.csv]; the fifth field is read and never used. *)
Record CdmRow := mkCdmRow {
  cdm_table_name : string;
  cdm_column_name : string;
  cdm_is_nullable : string;
  cdm_data_type : string;
  cdm_unused : string
}.

(** [settings], [resources] and [run_config] in one record. *)
Record Config := mkConfig {
  hpo_ids : list string;
  use_multi_schemas : bool;
  datetime_tpe : SqlType;
  sprint_num : N;
  csv_dir : string;
  cdm_csv : list CdmRow;
  pmi_tables_csv : list string
}.

Definition LOG_TABLE_NAME : string := "pmi_sprint_reporter_log".

(** pandas [Series.unique()]: the distinct values in order of first
    appearance. *)
Fixpoint unique (l : list string) : list string :=
  match l with
  | [] => []
  | x :: l' => x :: filter (λ y, y ≠ x) (unique l')
  end.

(** Python's [sorted] on byte strings, as an insertion sort. *)
Fixpoint insert_sorted (x : string) (l : list string) : list string :=
  match l with
  | [] => [x]
  | y :: l' => if String.leb x y then x :: l else y :: insert_sorted x l'
  end.

Definition sorted (l : list string) : list string := foldr insert_sorted [] l.

(** [df.groupby(['table_name'])]: one group per distinct table name, the
    groups in sorted key order, the lines of a group in file order. *)
Definition groupby_table_name (df : list CdmRow) : list (string * list CdmRow) :=
  map (λ k, (k, filter (λ r, cdm_table_name r = k) df))
      (sorted (unique (map cdm_table_name df))).

(** [pandas.read_csv(resources.pmi_tables_csv_path).table_name.unique()] *)
Definition pmi_tables (cfg : Config) : list string := unique (pmi_tables_csv cfg).

(** [cdm_df[cdm_df['table_name'].isin(included_tables)]] *)
Definition isin_included (cfg : Config) : list CdmRow :=
  filter (λ r, cdm_table_name r ∈ pmi_tables cfg) (cdm_csv cfg).

(* ===================================================================== *)
(** ** The database namespace and its reset *)
(* ===================================================================== *)

(** A timestamp as [datetime.datetime] holds it; compared field by field. *)
Record datetime := mkDatetime {
  year : N; month : N; day : N;
  hour : N; minute : N; second : N; microsecond : N
}.

(** The values a cell holds; a null cell is [None]. *)
Inductive Value :=
| VInt (z : Z)
| VStr (s : string)
| VBool (b : bool)
| VTime (t : datetime).

Abbreviation Cell := (option Value).
Abbreviation Row := (list Cell).

(** A table of the database: its column layout and its rows, oldest first. *)
Record Table := mkTable {
  tbl_columns : list Column;
  tbl_rows : list Row
}.

(** The tables of one schema, by unqualified name. *)
Abbreviation Namespace := (gmap string Table).

(** The type chain of [create_tables]. *)
Definition column_type (cfg : Config) (data_type : string) : result SqlType :=
  if bool_decide (data_type ∈ ["character varying"; "text"]) then Ok (String_ 500)
  else if String.eqb data_type "integer" then Ok BigInteger
  else if String.eqb data_type "numeric" then Ok Float
  else if String.eqb data_type "date" then Ok Date
  else if String.eqb data_type "datetime" then Ok (datetime_tpe cfg)
  else Raise (NotImplementedError
                ("Unexpected data_type `" ++ data_type ++ "` in cdm.csv")).

(** The inner loop of [create_tables]: the list [columns], one [Column]
    per line of the table, stopping at the first line whose type is not
    recognised. *)
Fixpoint line_columns (cfg : Config) (table_df : list CdmRow) : result (list Column) :=
  match table_df with
  | [] => Ok []
  | r :: rest =>
      match column_type cfg (cdm_data_type r) with
      | Raise e => Raise e
      | Ok tpe =>
          let nullable := String.eqb (cdm_is_nullable r) "yes" in
          match line_columns cfg rest with
          | Raise e => Raise e
          | Ok columns => Ok (mkColumn (cdm_column_name r) tpe nullable :: columns)
          end
      end
  end.

(** sqlalchemy's [Table] takes its columns one by one, and a column named
    like one it already has takes the place of that one: the table keeps
    one column per name, at the place of the first and as the last
    defines it. *)
Fixpoint replace_column (c : Column) (columns : list Column) : list Column :=
  match columns with
  | [] => [c]
  | d :: rest =>
      if String.eqb (col_name d) (col_name c) then c :: rest
      else d :: replace_column c rest
  end.

Definition Table_columns (columns : list Column) : list Column :=
  foldl (λ acc c, replace_column c acc) [] columns.

(** The columns of the [Table(table_name, metadata, *columns)] that
    [create_tables] declares for one table of the catalog. *)
Definition table_columns (cfg : Config) (table_df : list CdmRow) : result (list Column) :=
  match line_columns cfg table_df with
  | Raise e => Raise e
  | Ok columns => Ok (Table_columns columns)
  end.

(** A [MetaData()] under construction: the declared tables, oldest first. *)
Abbreviation MetaData := (list (string * list Column)).

(** The outer loop of [create_tables]. *)
Fixpoint declare_tables (cfg : Config) (tables : list (string * list CdmRow))
  : result MetaData :=
  match tables with
  | [] => Ok []
  | (table_name, table_df) :: rest =>
      match table_columns cfg table_df with
      | Raise e => Raise e
      | Ok columns =>
          match declare_tables cfg rest with
          | Raise e => Raise e
          | Ok metadata => Ok ((table_name, columns) :: metadata)
          end
      end
  end.

(** The layout of the log table. *)
Definition log_columns : list Column :=
  [ mkColumn "log_id" DateTime false;
    mkColumn "table_name" (String_ 100) false;
    mkColumn "phase" (String_ 200) false;
    mkColumn "success" Boolean false;
    mkColumn "message" (String_ 500) true;
    mkColumn "params" (String_ 800) true ].

(** [Table(name, metadata, *columns)]: sqlalchemy refuses a second table
    of the same name in one [MetaData]. Its message names the table by its
    key, which carries the schema in front when the table has one; the
    tables of the model go by their unqualified names. *)
Definition declare_table (name : string) (columns : list Column) (metadata : MetaData)
  : result MetaData :=
  if bool_decide (name ∈ map fst metadata)
  then Raise (InvalidRequestError
                ("Table '" ++ name ++ "' is already defined for this MetaData instance.  "
                 ++ "Specify 'extend_existing=True' to redefine options and columns "
                 ++ "on an existing Table object."))
  else Ok (metadata ++ [(name, columns)]).

(** [metadata.create_all(engine)]: with the default [checkfirst=True] a
    table that exists already is left as it is. *)
Definition create_all (metadata : MetaData) (ns : Namespace) : Namespace :=
  foldl (λ ns t, match ns !! t.1 with
                 | Some _ => ns
                 | None => <[t.1 := mkTable t.2 []]> ns
                 end) ns metadata.

(** [create_tables(schema)], on the tables of that schema. *)
Definition create_tables (cfg : Config) (ns : Namespace) : result Namespace :=
  match declare_tables cfg (groupby_table_name (cdm_csv cfg)) with
  | Raise e => Raise e
  | Ok metadata =>
      match declare_table LOG_TABLE_NAME log_columns metadata with
      | Raise e => Raise e
      | Ok metadata => Ok (create_all metadata ns)
      end
  end.

(** The tables [drop_tables] selects among the reflected ones. *)
Definition tables_to_drop (cfg : Config) (ns : Namespace) : Namespace :=
  filter (λ t, t.1 ∈ pmi_tables cfg ∨ t.1 = LOG_TABLE_NAME) ns.

(** [metadata.drop_all(tables=...)] *)
Definition drop_all (tables : Namespace) (ns : Namespace) : Namespace :=
  ns ∖ tables.

(** [drop_tables(schema)], on the tables of that schema. *)
Definition drop_tables (cfg : Config) (ns : Namespace) : Namespace :=
  drop_all (tables_to_drop cfg ns) ns.

(* ===================================================================== *)
(** ** Data frames and the row transformation *)
(* ===================================================================== *)

Abbreviation Series := (list Cell).

(** A pandas [DataFrame]: the length of its index and its labelled
    columns, in order; every column has [df_nrows] cells. *)
Record DataFrame := mkDF {
  df_nrows : nat;
  df_columns : list (string * Series)
}.

Definition labels (df : DataFrame) : list string := map fst (df_columns df).

(** The first column carrying a label. *)
Fixpoint assoc {A} (k : string) (l : list (string * A)) : option A :=
  match l with
  | [] => None
  | (k', v) :: l' => if String.eqb k k' then Some v else assoc k l'
  end.

(** [df.rename(columns=f)] *)
Definition rename (f : string → string) (df : DataFrame) : DataFrame :=
  mkDF (df_nrows df) (map (λ c, (f c.1, c.2)) (df_columns df)).

(** The column [reindex] gives to a label: the one the frame has under
    that label, or one of nulls. *)
Definition column_or_nan (df : DataFrame) (c : string) : Series :=
  match assoc c (df_columns df) with
  | Some s => s
  | None => replicate (df_nrows df) None
  end.

(** [df.reindex(columns=column_names)]. pandas refuses to reindex an axis
    that carries a label twice (as soon as one label is asked for). *)
Definition reindex (column_names : list string) (df : DataFrame) : result DataFrame :=
  if bool_decide (NoDup (labels df)) || bool_decide (column_names = [])
  then Ok (mkDF (df_nrows df) (map (λ c, (c, column_or_nan df c)) column_names))
  else Raise (ValueError "cannot reindex from a duplicate axis").

(** [df[columns]]: the sub-frame of the listed columns. *)
Fixpoint getitem (columns : list string) (df : DataFrame) : result DataFrame :=
  match columns with
  | [] => Ok (mkDF (df_nrows df) [])
  | c :: rest =>
      match assoc c (df_columns df) with
      | None => Raise (KeyError c)
      | Some s =>
          match getitem rest df with
          | Raise e => Raise e
          | Ok sub => Ok (mkDF (df_nrows df) ((c, s) :: df_columns sub))
          end
      end
  end.

(** [df.fillna(value=v)] *)
Definition fillna (v : Value) (df : DataFrame) : DataFrame :=
  mkDF (df_nrows df)
       (map (λ c, (c.1, map (λ x : Cell, match x with None => Some v | Some _ => x end) c.2))
            (df_columns df)).

(** [df[columns] = sub]: every column of [df] that [sub] has is replaced
    by the one of [sub]. *)
Definition setitem (sub : DataFrame) (df : DataFrame) : DataFrame :=
  mkDF (df_nrows df)
       (map (λ c, match assoc c.1 (df_columns sub) with
                  | Some s => (c.1, s)
                  | None => c
                  end) (df_columns df)).

(** The [lambda] of the concept column filter. *)
Definition is_concept_column (x : string) : bool :=
  PyStr.endswith "concept_id" x && negb (PyStr.contains "source" x).

(** The transformation of [process] between the parse and the load:
    lowercase the headers, reindex on the target columns, fill the blank
    concept ids with 0. *)
Definition transform (column_names : list string) (df : DataFrame) : result DataFrame :=
  let df := rename PyStr.lower df in
  match reindex column_names df with
  | Raise e => Raise e
  | Ok df =>
      let concept_columns := List.filter is_concept_column column_names in
      match getitem concept_columns df with
      | Raise e => Raise e
      | Ok sub => Ok (setitem (fillna (VInt 0) sub) df)
      end
  end.

(** The rows of a frame as [to_sql] binds them: one value per label. *)
Definition frame_rows (df : DataFrame) : list (list (string * Cell)) :=
  map (λ i, map (λ c, (c.1, default None (c.2 !! i))) (df_columns df))
      (seq 0 (df_nrows df)).

(* ===================================================================== *)
(** ** The world the loader runs in *)
(* ===================================================================== *)

(** A row of the log table. *)
Record LogEntry := mkLogEntry {
  log_id : datetime;
  table_name : string;
  phase : string;
  success : bool;
  message : option string;
  params : option string
}.

(** What the script does, in the order it does it: what it prints, the
    value it gives to the local variable [phase], its calls to [glob],
    [open] and [pandas.read_csv], the rows it hands to the database, the
    log rows it writes and the log rows the database refuses. *)
Inductive Event :=
| EvPrint (text : string)
| EvPhase (phase : string)
| EvGlob (pattern : string)
| EvOpen (path : string)
| EvReadCsv (path : string)
| EvInsert (table : string) (row : list (string * Cell))
| EvLog (entry : LogEntry)
| EvRefused (entry : LogEntry).

(** What the outside answers: the files [glob] finds, what [open] and
    [pandas.read_csv] give for a path, what the clock reads at its n-th
    reading, and the error (if any) the database raises for a row handed
    to a table: a row of a file, or a row of the log table (a database
    that enforces the lengths of [log_columns] refuses a message of more
    than 500 characters or parameters of more than 800).
    [rollback_on_error] tells whether the rows of a table written before a
    failing row are rolled back with it. *)
Record Env := mkEnv {
  glob_csv : list string;
  open_file : string → result string;
  read_csv : string → result DataFrame;
  utcnow : nat → datetime;
  insert_error : string → list (string * Cell) → option PyExc;
  rollback_on_error : bool
}.

(** The tables of the schema at hand, the number of clock readings made,
    and the trace of events, oldest first. *)
Record World := mkWorld {
  tables : Namespace;
  clock : nat;
  trace : list Event
}.

(** The state of one iteration of [process]: the world and the local
    variable [phase], which the closures [success] and [fail] read when
    they are called. *)
Record St := mkSt {
  st_phase : string;
  st_world : World
}.

(** Computations that read and write [St] and may raise. The state
    survives an exception: the handler sees the [phase] of the raise. *)
Definition M (A : Type) : Type := St → St * result A.

Definition ret {A} (a : A) : M A := λ st, (st, Ok a).

Definition bind {A B} (m : M A) (f : A → M B) : M B :=
  λ st, match m st with
        | (st', Ok a) => f a st'
        | (st', Raise e) => (st', Raise e)
        end.

Definition raise {A} (e : PyExc) : M A := λ st, (st, Raise e).

Definition lift {A} (r : result A) : M A := λ st, (st, r).

(** [phase = p] *)
Definition set_phase (p : string) : M unit :=
  λ st, let w := st_world st in
        (mkSt p (mkWorld (tables w) (clock w) (trace w ++ [EvPhase p])), Ok tt).

Definition emit (ev : Event) : M unit :=
  λ st, let w := st_world st in
        (mkSt (st_phase st) (mkWorld (tables w) (clock w) (trace w ++ [ev])), Ok tt).

Declare Scope py_scope.
Delimit Scope py_scope with py.
Notation "'let*' x := c1 'in' c2" := (bind c1 (λ x, c2))
  (at level 10, x name, c1 at level 100, c2 at level 200) : py_scope.

(** The keyword arguments of an insert; a column not named gets NULL. *)
Definition kw_get (k : string) (kwargs : list (string * Cell)) : Cell :=
  default None (assoc k kwargs).

(** [engine.execute(table.insert(), **kwargs)]: one more row in the table
    of that name, laid out as the table is. *)
Definition insert_row (name : string) (kwargs : list (string * Cell)) (ns : Namespace)
  : Namespace :=
  alter (λ t, mkTable (tbl_columns t)
                      (tbl_rows t ++ [map (λ c, kw_get (col_name c) kwargs) (tbl_columns t)]))
        name ns.

(** The keyword arguments [success] and [fail] hand to the insert. *)
Definition success_kwargs (e : LogEntry) : list (string * Cell) :=
  [ ("log_id", Some (VTime (log_id e)));
    ("table_name", Some (VStr (table_name e)));
    ("phase", Some (VStr (phase e)));
    ("success", Some (VBool (success e))) ].

Definition fail_kwargs (e : LogEntry) : list (string * Cell) :=
  success_kwargs e ++
  [ ("message", VStr <$> message e);
    ("params", VStr <$> params e) ].

(** The log row of an entry, in the layout of [log_columns]. *)
Definition entry_row (e : LogEntry) : Row :=
  [ Some (VTime (log_id e)); Some (VStr (table_name e)); Some (VStr (phase e));
    Some (VBool (success e)); VStr <$> message e; VStr <$> params e ].

(** Writing a log row: the clock is read and the row is handed to the
    database, which inserts it or refuses it; a refusal raises the error of
    the database. *)
Definition write_log (kwargs : LogEntry → list (string * Cell)) (mk : datetime → string → LogEntry)
  (env : Env) : M unit :=
  λ st, let w := st_world st in
        let e := mk (utcnow env (clock w)) (st_phase st) in
        match insert_error env LOG_TABLE_NAME (kwargs e) with
        | Some exc =>
            (mkSt (st_phase st)
                  (mkWorld (tables w) (S (clock w)) (trace w ++ [EvRefused e])),
             Raise exc)
        | None =>
            (mkSt (st_phase st)
                  (mkWorld (insert_row LOG_TABLE_NAME (kwargs e) (tables w))
                           (S (clock w))
                           (trace w ++ [EvLog e])),
             Ok tt)
        end.

(** The closure [success()] of [process]. *)
Definition success_ (env : Env) (table_name : string) : M unit :=
  write_log success_kwargs (λ now phase, mkLogEntry now table_name phase true None None) env.

(** [params or None] *)
Definition or_None (params : option string) : option string :=
  match params with
  | Some "" => None
  | _ => params
  end.

(** The closure [fail(message, params=None)] of [process]. *)
Definition fail (env : Env) (table_name : string) (message : string)
  (params : option string) : M unit :=
  write_log fail_kwargs
    (λ now phase, mkLogEntry now table_name phase false (Some message) (or_None params)) env.

(** [df.to_sql(..., if_exists='append', chunksize=1)]: the rows go in one
    at a time, and the first one the database refuses raises. *)
Fixpoint insert_rows (env : Env) (name : string) (rows : list (list (string * Cell)))
  : M unit :=
  match rows with
  | [] => ret tt
  | r :: rest =>
      (let* _ := emit (EvInsert name r) in
       match insert_error env name r with
       | Some e => raise e
       | None =>
           let* _ := (λ st, let w := st_world st in
                            (mkSt (st_phase st)
                                  (mkWorld (insert_row name r (tables w)) (clock w) (trace w)),
                             Ok tt)) in
           insert_rows env name rest
       end)%py
  end.

Definition to_sql (env : Env) (name : string) (df : DataFrame) : M unit :=
  λ st,
    match insert_rows env name (frame_rows df) st with
    | (st', Ok u) => (st', Ok u)
    | (st', Raise e) =>
        let w := st_world st in
        let w' := st_world st' in
        if rollback_on_error env
        then (mkSt (st_phase st') (mkWorld (tables w) (clock w') (trace w')), Raise e)
        else (st', Raise e)
    end.

(** [path_to_file_map_item] *)
Definition path_to_file_map_item (p : string) : string * string :=
  let filename := PyStr.split_last "/" p in
  (PyStr.lower filename, p).

(** [dict(items)]: a later item replaces an earlier one of the same key. *)
Definition dict {A} (items : list (string * A)) : gmap string A :=
  foldl (λ m kv, <[kv.1 := kv.2]> m) ∅ items.

Definition file_map (env : Env) : gmap string string :=
  dict (map path_to_file_map_item (glob_csv env)).

(** The name of the file [process] looks for. *)
Definition csv_filename (cfg : Config) (hpo_id table_name : string) : string :=
  hpo_id ++ "_" ++ table_name ++ "_datasprint_" ++ PyStr.str_N (sprint_num cfg) ++ ".csv".

Definition received_phase (csv_filename : string) : string :=
  "Received CSV file " ++ PyStr.dquote ++ csv_filename ++ PyStr.dquote.

(** The body of the [try] of [process] for one table. *)
Definition try_body (cfg : Config) (env : Env) (hpo_id : string)
  (table_name : string) (table_df : list CdmRow) : M unit :=
  (let csv_filename := csv_filename cfg hpo_id table_name in
   match file_map env !! csv_filename with
   | None => raise (Exception "File not found")
   | Some csv_path =>
       let* _ := success_ env table_name in
       let column_names := unique (map cdm_column_name table_df) in
       let* _ := emit (EvOpen csv_path) in
       let* f := lift (open_file env csv_path) in
       let* _ := set_phase "Parsing CSV file" in
       let* _ := emit (EvReadCsv csv_path) in
       let* df := lift (read_csv env f) in
       let* _ := success_ env table_name in
       let* df := lift (transform column_names df) in
       let* _ := set_phase "Loading file into table" in
       let* _ := to_sql env table_name df in
       success_ env table_name
   end)%py.

(** The two [except] clauses of [process]. *)
Definition handler (env : Env) (table_name : string) (e : PyExc) : M unit :=
  match e with
  | StatementError message params => fail env table_name message (Some (str_params params))
  | _ => fail env table_name (exc_message e) None
  end.

(** One iteration of the loop of [process]: the [try] with its [except]
    clauses. A table the schema lacks is a [KeyError] outside the [try],
    and an error raised by [fail] inside an [except] clause is caught by
    nothing: both leave the iteration. *)
Definition process_table (cfg : Config) (env : Env) (hpo_id : string)
  (table_map : Namespace) (w : World) (t : string * list CdmRow) : World * result unit :=
  let '(table_name, table_df) := t in
  match table_map !! table_name with
  | None => (w, Raise (KeyError table_name))
  | Some cdm_table =>
      let body :=
        (let* _ := set_phase (received_phase (csv_filename cfg hpo_id table_name)) in
         try_body cfg env hpo_id table_name table_df)%py in
      match body (mkSt "" w) with
      | (st', Ok _) => (st_world st', Ok tt)
      | (st', Raise e) =>
          let '(st'', r) := handler env table_name e st' in (st_world st'', r)
      end
  end.

(** The [for] loop of [process]: an exception that leaves an iteration
    ends the loop. *)
Fixpoint process_tables (cfg : Config) (env : Env) (hpo_id : string)
  (table_map : Namespace) (ts : list (string * list CdmRow)) (w : World)
  : World * result unit :=
  match ts with
  | [] => (w, Ok tt)
  | t :: rest =>
      match process_table cfg env hpo_id table_map w t with
      | (w', Ok _) => process_tables cfg env hpo_id table_map rest w'
      | (w', Raise e) => (w', Raise e)
      end
  end.

(** The tables [process] goes through, in its order. *)
Definition in_scope_tables (cfg : Config) : list (string * list CdmRow) :=
  groupby_table_name (isin_included cfg).

(** [process(hpo_id, schema)], on the tables of that schema. *)
Definition process (cfg : Config) (env : Env) (hpo_id : string) (w : World)
  : World * result unit :=
  let table_map := tables w in
  match table_map !! LOG_TABLE_NAME with
  | None => (w, Raise (KeyError LOG_TABLE_NAME))
  | Some log_table =>
      let w := mkWorld (tables w) (clock w)
                       (trace w ++ [EvGlob (csv_dir cfg ++ "/*.csv")]) in
      process_tables cfg env hpo_id table_map (in_scope_tables cfg) w
  end.

(* ===================================================================== *)
(** ** The log export *)
(* ===================================================================== *)

(** The database: the default schema and the named ones. *)
Record Database := mkDatabase {
  default_schema : Namespace;
  schemas : gmap string Namespace
}.

(** The tables of a schema; [None] is the default schema. *)
Definition schema_tables (schema : option string) (db : Database) : Namespace :=
  match schema with
  | None => default_schema db
  | Some s => default ∅ (schemas db !! s)
  end.

Definition set_schema_tables (schema : option string) (ns : Namespace) (db : Database)
  : Database :=
  match schema with
  | None => mkDatabase ns (schemas db)
  | Some s => mkDatabase (default_schema db) (<[s := ns]> (schemas db))
  end.

(** [str(datetime)]: ISO format with a space, the microseconds only when
    they are not zero. *)
Definition str_datetime (t : datetime) : string :=
  PyStr.zfill 4 (year t) ++ "-" ++ PyStr.zfill 2 (month t) ++ "-" ++ PyStr.zfill 2 (day t)
  ++ " " ++ PyStr.zfill 2 (hour t) ++ ":" ++ PyStr.zfill 2 (minute t) ++ ":"
  ++ PyStr.zfill 2 (second t)
  ++ (if (microsecond t =? 0)%N then "" else "." ++ PyStr.zfill 6 (microsecond t)).

(** [str(x)] of the value of a cell. *)
Definition py_str (x : Cell) : string :=
  match x with
  | None => "None"
  | Some (VInt z) => pretty z
  | Some (VStr s) => s
  | Some (VBool true) => "True"
  | Some (VBool false) => "False"
  | Some (VTime t) => str_datetime t
  end.

(** The body of the inner loop of [export_log] for one row. *)
Definition export_row (hpo_id : string) (keys : list string) (row : Row)
  : result (gmap string Cell) :=
  let row_dict := dict (zip keys row) in
  match row_dict !! "params" with
  | None => Raise (KeyError "params")
  | Some _ =>
      let row_dict := delete "params" row_dict in
      let row_dict := <["hpo_id" := Some (VStr hpo_id)]> row_dict in
      match row_dict !! "log_id" with
      | None => Raise (KeyError "log_id")
      | Some log_id => Ok (<["log_id" := Some (VStr (py_str log_id))]> row_dict)
      end
  end.

Fixpoint export_rows (hpo_id : string) (keys : list string) (rows : list Row)
  : result (list (gmap string Cell)) :=
  match rows with
  | [] => Ok []
  | row :: rest =>
      match export_row hpo_id keys row with
      | Raise e => Raise e
      | Ok item =>
          match export_rows hpo_id keys rest with
          | Raise e => Raise e
          | Ok items => Ok (item :: items)
          end
      end
  end.

(** The schema of a site. *)
Definition schema_of (cfg : Config) (hpo_id : string) : option string :=
  if use_multi_schemas cfg then Some hpo_id else None.

(** The outer loop of [export_log]. *)
Fixpoint export_sites (cfg : Config) (db : Database) (ids : list string)
  : result (list (gmap string Cell)) :=
  match ids with
  | [] => Ok []
  | hpo_id :: rest =>
      match schema_tables (schema_of cfg hpo_id) db !! LOG_TABLE_NAME with
      | None => Raise (NoSuchTableError LOG_TABLE_NAME)
      | Some log_table =>
          match export_rows hpo_id (map col_name (tbl_columns log_table))
                            (tbl_rows log_table) with
          | Raise e => Raise e
          | Ok items =>
              match export_sites cfg db rest with
              | Raise e => Raise e
              | Ok more => Ok (items ++ more)
              end
          end
      end
  end.

(** [export_log()]: the list [all_log_items] that is written to
    [log.json] as a JSON array of objects. *)
Definition export_log (cfg : Config) (db : Database) : result (list (gmap string Cell)) :=
  export_sites cfg db (hpo_ids cfg).

(* ===================================================================== *)
(** ** The driver *)
(* ===================================================================== *)

(** The whole system: the database, the clock readings made, the trace. *)
Record Sys := mkSys {
  sys_db : Database;
  sys_clock : nat;
  sys_trace : list Event
}.

(** [create_schema(schema)] *)
Definition create_schema (schema : string) (db : Database) : Database :=
  match schemas db !! schema with
  | Some _ => db
  | None => mkDatabase (default_schema db) (<[schema := ∅]> (schemas db))
  end.

(** The reset of a schema as [main] runs it: [drop_tables], then
    [create_tables]. What was dropped stays dropped when the creation
    raises. *)
Definition reset_tables (cfg : Config) (ns : Namespace) : Namespace * result unit :=
  let ns := drop_tables cfg ns in
  match create_tables cfg ns with
  | Raise e => (ns, Raise e)
  | Ok ns' => (ns', Ok tt)
  end.

(** The body of the loop of [main] for one site. *)
Definition main_site (cfg : Config) (env : Env) (hpo_id : string) (s : Sys)
  : Sys * result unit :=
  let printed := sys_trace s ++ [EvPrint ("Processing " ++ hpo_id ++ "...")] in
  let schema := schema_of cfg hpo_id in
  let db := if use_multi_schemas cfg then create_schema hpo_id (sys_db s) else sys_db s in
  match reset_tables cfg (schema_tables schema db) with
  | (ns, Raise e) => (mkSys (set_schema_tables schema ns db) (sys_clock s) printed, Raise e)
  | (ns, Ok _) =>
      let '(w, r) := process cfg env hpo_id (mkWorld ns (sys_clock s) printed) in
      (mkSys (set_schema_tables schema (tables w) db) (clock w) (trace w), r)
  end.

(** [main()] *)
Fixpoint main_loop (cfg : Config) (env : Env) (ids : list string) (s : Sys)
  : Sys * result unit :=
  match ids with
  | [] => (s, Ok tt)
  | hpo_id :: rest =>
      match main_site cfg env hpo_id s with
      | (s', Ok _) => main_loop cfg env rest s'
      | (s', Raise e) => (s', Raise e)
      end
  end.

Definition main (cfg : Config) (env : Env) (s : Sys) : Sys * result unit :=
  main_loop cfg env (hpo_ids cfg) s.

(* ===================================================================== *)
(** ** Vocabulary of the specification *)
(* ===================================================================== *)

(** The data type tokens [create_tables] knows. *)
Definition recognized_types : list string :=
  ["character varying"; "text"; "integer"; "numeric"; "date"; "datetime"].

(** The message of the error for an unknown token. *)
Definition unexpected_data_type (data_type : string) : PyExc :=
  NotImplementedError ("Unexpected data_type `" ++ data_type ++ "` in cdm.csv").

(** The tables [drop_tables] knows: the in-scope ones and the log table. *)
Definition known_table (cfg : Config) (name : string) : Prop :=
  name ∈ pmi_tables cfg ∨ name = LOG_TABLE_NAME.

#[local] Instance known_table_dec cfg name : Decision (known_table cfg name).
Proof. unfold known_table. apply _. Defined.

(** The lines of the catalog that define a table. *)
Definition catalog_lines (cfg : Config) (name : string) : list CdmRow :=
  filter (λ r, cdm_table_name r = name) (cdm_csv cfg).

(** The column type of each data type token: a string of at most 500
    characters for both text tokens, a 64-bit integer, a floating point
    number, a calendar date, and the timestamp type the configuration
    gives. *)
Definition type_mapping (cfg : Config) : list (string * SqlType) :=
  [ ("character varying", String_ 500);
    ("text", String_ 500);
    ("integer", BigInteger);
    ("numeric", Float);
    ("date", Date);
    ("datetime", datetime_tpe cfg) ].

(** A column as one line of the catalog defines it: the name of the line,
    the type of its token, nullable exactly when the line says [yes]. *)
Definition line_layout (cfg : Config) (r : CdmRow) (c : Column) : Prop :=
  col_name c = cdm_column_name r
  ∧ assoc (cdm_data_type r) (type_mapping cfg) = Some (col_type c)
  ∧ (col_nullable c = true ↔ cdm_is_nullable r = "yes").

(** The layout the catalog defines for a table: one column per column
    name, in the order in which the names first appear, and each line that
    is the last of its column name has its column. With no name repeated
    that is one column per line, in the order of the lines
    ([catalog_layout_distinct]). *)
Definition catalog_layout (cfg : Config) (lines : list CdmRow) (columns : list Column) : Prop :=
  map col_name columns = unique (map cdm_column_name lines) ∧
  ∀ pre r post,
    lines = pre ++ r :: post →
    (cdm_column_name r ∉ map cdm_column_name post) →
    ∃ c, c ∈ columns ∧ line_layout cfg r c.

(** What [fillna] does to one cell. *)
Definition fill (v : Value) (x : Cell) : Cell :=
  match x with None => Some v | Some _ => x end.

(** Two rows that differ at most in what they hold under [params]. *)
Definition cells_agree (kv kv' : string * Cell) : Prop :=
  kv.1 = kv'.1 ∧ (kv.1 ≠ "params" → kv.2 = kv'.2).

Definition rows_agree (keys : list string) (r r' : Row) : Prop :=
  Forall2 cells_agree (zip keys r) (zip keys r').

(** Two tables of the same layout whose rows agree one by one. *)
Definition tables_agree (t t' : Table) : Prop :=
  tbl_columns t = tbl_columns t' ∧
  Forall2 (rows_agree (map col_name (tbl_columns t))) (tbl_rows t) (tbl_rows t').

(** Two states of the database whose log tables differ at most in the
    values of [params]. *)
Definition logs_agree (cfg : Config) (db db' : Database) : Prop :=
  ∀ hpo_id, hpo_id ∈ hpo_ids cfg →
    option_Forall2 tables_agree
      (schema_tables (schema_of cfg hpo_id) db !! LOG_TABLE_NAME)
      (schema_tables (schema_of cfg hpo_id) db' !! LOG_TABLE_NAME).

(** The exported record of a log entry read for a site: the entry without
    [params], with [hpo_id], and with [log_id] as a string. *)
Definition exported_record (hpo_id : string) (e : LogEntry) : gmap string Cell :=
  list_to_map
    [ ("log_id", Some (VStr (str_datetime (log_id e))));
      ("table_name", Some (VStr (table_name e)));
      ("phase", Some (VStr (phase e)));
      ("success", Some (VBool (success e)));
      ("message", VStr <$> message e);
      ("hpo_id", Some (VStr hpo_id)) ].

(** The log entries among some events, in order. *)
Fixpoint logged (evs : list Event) : list LogEntry :=
  match evs with
  | [] => []
  | EvLog e :: evs' => e :: logged evs'
  | _ :: evs' => logged evs'
  end.

(** The rows of the log table of a schema. *)
Definition log_rows (ns : Namespace) : list Row :=
  match ns !! LOG_TABLE_NAME with
  | Some t => tbl_rows t
  | None => []
  end.

(** The database refuses no row of the log table. *)
Definition log_accepted (env : Env) : Prop :=
  ∀ kwargs, insert_error env LOG_TABLE_NAME kwargs = None.

(** A schema as [create_tables] leaves it for [process]: the log table
    has its six columns, and every table [process] goes through exists
    and is not the log table. *)
Definition ready (cfg : Config) (ns : Namespace) : Prop :=
  (∃ rows, ns !! LOG_TABLE_NAME = Some (mkTable log_columns rows)) ∧
  ∀ t, t ∈ in_scope_tables cfg → is_Some (ns !! t.1) ∧ t.1 ≠ LOG_TABLE_NAME.

(** The error of the first row the database refuses, the rows handed to
    it up to that one, and the rows it took before. *)
Fixpoint first_error (env : Env) (name : string) (rows : list (list (string * Cell)))
  : option PyExc :=
  match rows with
  | [] => None
  | r :: rest =>
      match insert_error env name r with
      | Some e => Some e
      | None => first_error env name rest
      end
  end.

Fixpoint attempted_rows (env : Env) (name : string) (rows : list (list (string * Cell)))
  : list (list (string * Cell)) :=
  match rows with
  | [] => []
  | r :: rest =>
      r :: match insert_error env name r with
           | Some _ => []
           | None => attempted_rows env name rest
           end
  end.

Fixpoint accepted_rows (env : Env) (name : string) (rows : list (list (string * Cell)))
  : list (list (string * Cell)) :=
  match rows with
  | [] => []
  | r :: rest =>
      match insert_error env name r with
      | Some _ => []
      | None => r :: accepted_rows env name rest
      end
  end.

(** The log entries [success] and the [except] clauses write. *)
Definition success_entry (now : datetime) (table_name phase : string) : LogEntry :=
  mkLogEntry now table_name phase true None None.

Definition failure_entry (now : datetime) (table_name phase : string) (e : PyExc)
  : LogEntry :=
  match e with
  | StatementError message params =>
      mkLogEntry now table_name phase false (Some message) (or_None (Some (str_params params)))
  | _ => mkLogEntry now table_name phase false (Some (exc_message e)) None
  end.

Definition PARSING : string := "Parsing CSV file".
Definition LOADING : string := "Loading file into table".

(** The events of one iteration of the loop of [process] that starts at
    clock reading [c], with the outcome of its [try]: the six ways through
    the state machine of a table. *)
Inductive table_segment (cfg : Config) (env : Env) (hpo_id tn : string)
  (tdf : list CdmRow) (c : nat) : result unit → list Event → Prop :=
| seg_not_found :
    file_map env !! csv_filename cfg hpo_id tn = None →
    table_segment cfg env hpo_id tn tdf c (Raise (Exception "File not found"))
      [ EvPhase (received_phase (csv_filename cfg hpo_id tn));
        EvLog (failure_entry (utcnow env c) tn (received_phase (csv_filename cfg hpo_id tn))
                             (Exception "File not found")) ]
| seg_open_failed path e :
    file_map env !! csv_filename cfg hpo_id tn = Some path →
    open_file env path = Raise e →
    table_segment cfg env hpo_id tn tdf c (Raise e)
      [ EvPhase (received_phase (csv_filename cfg hpo_id tn));
        EvLog (success_entry (utcnow env c) tn (received_phase (csv_filename cfg hpo_id tn)));
        EvOpen path;
        EvLog (failure_entry (utcnow env (S c)) tn
                             (received_phase (csv_filename cfg hpo_id tn)) e) ]
| seg_parse_failed path f e :
    file_map env !! csv_filename cfg hpo_id tn = Some path →
    open_file env path = Ok f →
    read_csv env f = Raise e →
    table_segment cfg env hpo_id tn tdf c (Raise e)
      [ EvPhase (received_phase (csv_filename cfg hpo_id tn));
        EvLog (success_entry (utcnow env c) tn (received_phase (csv_filename cfg hpo_id tn)));
        EvOpen path;
        EvPhase PARSING;
        EvReadCsv path;
        EvLog (failure_entry (utcnow env (S c)) tn PARSING e) ]
| seg_transform_failed path f df e :
    file_map env !! csv_filename cfg hpo_id tn = Some path →
    open_file env path = Ok f →
    read_csv env f = Ok df →
    transform (unique (map cdm_column_name tdf)) df = Raise e →
    table_segment cfg env hpo_id tn tdf c (Raise e)
      [ EvPhase (received_phase (csv_filename cfg hpo_id tn));
        EvLog (success_entry (utcnow env c) tn (received_phase (csv_filename cfg hpo_id tn)));
        EvOpen path;
        EvPhase PARSING;
        EvReadCsv path;
        EvLog (success_entry (utcnow env (S c)) tn PARSING);
        EvLog (failure_entry (utcnow env (S (S c))) tn PARSING e) ]
| seg_load_failed path f df out e :
    file_map env !! csv_filename cfg hpo_id tn = Some path →
    open_file env path = Ok f →
    read_csv env f = Ok df →
    transform (unique (map cdm_column_name tdf)) df = Ok out →
    first_error env tn (frame_rows out) = Some e →
    table_segment cfg env hpo_id tn tdf c (Raise e)
      ([ EvPhase (received_phase (csv_filename cfg hpo_id tn));
         EvLog (success_entry (utcnow env c) tn (received_phase (csv_filename cfg hpo_id tn)));
         EvOpen path;
         EvPhase PARSING;
         EvReadCsv path;
         EvLog (success_entry (utcnow env (S c)) tn PARSING);
         EvPhase LOADING ]
       ++ map (EvInsert tn) (attempted_rows env tn (frame_rows out))
       ++ [ EvLog (failure_entry (utcnow env (S (S c))) tn LOADING e) ])
| seg_loaded path f df out :
    file_map env !! csv_filename cfg hpo_id tn = Some path →
    open_file env path = Ok f →
    read_csv env f = Ok df →
    transform (unique (map cdm_column_name tdf)) df = Ok out →
    first_error env tn (frame_rows out) = None →
    table_segment cfg env hpo_id tn tdf c (Ok tt)
      ([ EvPhase (received_phase (csv_filename cfg hpo_id tn));
         EvLog (success_entry (utcnow env c) tn (received_phase (csv_filename cfg hpo_id tn)));
         EvOpen path;
         EvPhase PARSING;
         EvReadCsv path;
         EvLog (success_entry (utcnow env (S c)) tn PARSING);
         EvPhase LOADING ]
       ++ map (EvInsert tn) (frame_rows out)
       ++ [ EvLog (success_entry (utcnow env (S (S c))) tn LOADING) ]).

(** The outcome of the [try] for a table taken on its own, in an empty
    world. *)
Definition attempt (cfg : Config) (env : Env) (hpo_id : string)
  (t : string * list CdmRow) : result unit :=
  (try_body cfg env hpo_id t.1 t.2
     (mkSt (received_phase (csv_filename cfg hpo_id t.1)) (mkWorld ∅ 0 []))).2.

(** One world comes from another by the events [evs]: the trace grew by
    them, the clock was read once per log entry among them, and the log
    table, when it has its layout, grew by their rows. *)
Definition evolves (w w' : World) (evs : list Event) : Prop :=
  trace w' = trace w ++ evs ∧
  clock w' = clock w + length (logged evs) ∧
  ∀ rows, tables w !! LOG_TABLE_NAME = Some (mkTable log_columns rows) →
          tables w' !! LOG_TABLE_NAME
          = Some (mkTable log_columns (rows ++ map entry_row (logged evs))).

(** The rows of a table after a load: all those the database took, or
    none of them when a refusal rolls the load back. *)
Definition stored_rows (env : Env) (name : string) (rows : list (list (string * Cell)))
  : list (list (string * Cell)) :=
  match first_error env name rows with
  | Some _ => if rollback_on_error env then [] else accepted_rows env name rows
  | None => accepted_rows env name rows
  end.

Definition load_result (env : Env) (name : string) (rows : list (list (string * Cell)))
  : result unit :=
  match first_error env name rows with
  | Some e => Raise e
  | None => Ok tt
  end.

(** The events of a run of the loop of [process] over some tables, table
    by table, the first one starting at clock reading [c]. *)
Inductive segments (cfg : Config) (env : Env) (hpo_id : string)
  : nat → list (string * list CdmRow) → list (list Event) → Prop :=
| segments_nil c : segments cfg env hpo_id c [] []
| segments_cons c t ts seg segs :
    table_segment cfg env hpo_id t.1 t.2 c (attempt cfg env hpo_id t) seg →
    segments cfg env hpo_id (c + length (logged seg)) ts segs →
    segments cfg env hpo_id c (t :: ts) (seg :: segs).

(** The value of [phase] after some events, [cur] being its value before
    them. *)
Fixpoint current_phase (cur : option string) (evs : list Event) : option string :=
  match evs with
  | [] => cur
  | EvPhase p :: evs' => current_phase (Some p) evs'
  | _ :: evs' => current_phase cur evs'
  end.





(* ===================================================================== *)
(** ** A worked example *)
(* ===================================================================== *)

(** Two sites with a schema each; [person] and [observation] are in
    scope, [care_site] is in the catalog only. *)
Definition ex_cfg : Config :=
  mkConfig ["nyc"; "pitt"] true (DateTime_fsp 6) 5 "/data"
    [ mkCdmRow "person" "person_id" "no" "integer" "";
      mkCdmRow "person" "birth_datetime" "yes" "datetime" "";
      mkCdmRow "observation" "observation_id" "no" "integer" "";
      mkCdmRow "observation" "observation_concept_id" "no" "integer" "";
      mkCdmRow "observation" "observation_source_concept_id" "yes" "integer" "";
      mkCdmRow "care_site" "care_site_name" "yes" "character varying" "" ]
    ["person"; "observation"; "person"].

(** The same catalog with a line of an unknown type. *)
Definition ex_cfg_bad : Config :=
  mkConfig ["nyc"; "pitt"] true (DateTime_fsp 6) 5 "/data"
    [ mkCdmRow "person" "person_id" "no" "integer" "";
      mkCdmRow "person" "birth_datetime" "yes" "timestamp" "" ]
    ["person"].

(** The files of the example. Both files of [nyc] are there, one of them
    under a name in mixed case; the second row of the observations has no
    [observation_id], and the database refuses it. *)
Definition ex_observations : DataFrame :=
  mkDF 2 [ ("Observation_ID", [Some (VInt 1); None]);
           ("observation_concept_id", [None; Some (VInt 7)]);
           ("comment", [Some (VStr "x"); None]) ].

(** The target columns of the observations and the frame the
    transformation makes of the file. *)
Definition ex_columns : list string :=
  ["observation_id"; "observation_concept_id"; "observation_source_concept_id"].

Definition ex_transformed : DataFrame :=
  mkDF 2 [ ("observation_id", [Some (VInt 1); None]);
           ("observation_concept_id", [Some (VInt 0); Some (VInt 7)]);
           ("observation_source_concept_id", [None; None]) ].

(** The example of the specification: source columns [b, a, extra],
    target columns [a, b, c]. *)
Definition ex_source : DataFrame :=
  mkDF 1 [ ("b", [Some (VInt 2)]); ("a", [Some (VInt 1)]); ("extra", [Some (VInt 3)]) ].

Definition ex_persons : DataFrame :=
  mkDF 1 [ ("PERSON_ID", [Some (VInt 1)]) ].

Definition ex_env : Env :=
  mkEnv [ "/data/NYC_Person_DataSprint_5.csv";
          "/data/nyc_observation_datasprint_5.csv" ]
        (λ path, Ok path)
        (λ f, if String.eqb f "/data/nyc_observation_datasprint_5.csv"
              then Ok ex_observations else Ok ex_persons)
        (λ n, mkDatetime 2017 3 4 5 6 7 (N.of_nat n))
        (λ name row, if String.eqb name "observation"
                     then match assoc "observation_id" row with
                          | Some None =>
                              Some (StatementError "NOT NULL constraint failed"
                                      (ParamsObj "{'observation_id': None}"))
                          | _ => None
                          end
                     else None)
        false.

(** The schema of [nyc] after the reset, with an unrelated table in it. *)
Definition ex_unrelated : Table :=
  mkTable [mkColumn "note" (String_ 500) true] [[Some (VStr "kept")]].

Definition ex_ns : Namespace :=
  <["notes" := ex_unrelated]> (<["person" := mkTable [] [[None]]]> ∅).

Definition ex_world : World := mkWorld (reset_tables ex_cfg ex_ns).1 0 [].

(** A log table with one failure entry that carries parameters. *)
Definition ex_entry : LogEntry :=
  mkLogEntry (mkDatetime 2017 3 4 5 6 7 0) "observation" LOADING false
             (Some "NOT NULL constraint failed") (Some "{'observation_id': None}").

Definition ex_db : Database :=
  mkDatabase ∅ (<["nyc" := {[ LOG_TABLE_NAME := mkTable log_columns [entry_row ex_entry] ]}]>
                (<["pitt" := {[ LOG_TABLE_NAME := mkTable log_columns [] ]}]> ∅)).

(** A site whose identifier is written in capitals, and its file, named
    exactly as [process] expects it. *)
Definition ex_cfg_capital : Config :=
  mkConfig ["NYC"] true (DateTime_fsp 6) 5 "/data"
    [ mkCdmRow "person" "person_id" "no" "integer" "" ]
    ["person"].

Definition ex_env_capital : Env :=
  mkEnv [ "/data/NYC_person_datasprint_5.csv" ]
        (λ path, Ok path)
        (λ f, Ok ex_persons)
        (λ n, mkDatetime 2017 3 4 5 6 7 (N.of_nat n))
        (λ name row, None)
        false.

(** Two files whose names differ only by case. *)
Definition ex_env_twins : Env :=
  mkEnv [ "/in/Site_person_datasprint_1.csv"; "/in/site_PERSON_datasprint_1.csv" ]
        (open_file ex_env) (read_csv ex_env) (utcnow ex_env) (insert_error ex_env) false.

(** A file of persons with two headers that differ only by case. *)
Definition ex_env_duplicate : Env :=
  mkEnv [ "/data/nyc_person_datasprint_5.csv" ]
        (λ path, Ok "PERSON_ID,person_id")
        (λ f, Ok (mkDF 0 [("PERSON_ID", []); ("person_id", [])]))
        (utcnow ex_env) (insert_error ex_env) false.

(** One schema grows into another: the same tables, each with the layout
    it had and the rows it had, followed by new ones. *)
Definition grows (ns ns' : Namespace) : Prop :=
  ∀ name,
    option_Forall2
      (λ t t', tbl_columns t' = tbl_columns t ∧ ∃ more, tbl_rows t' = tbl_rows t ++ more)
      (ns !! name) (ns' !! name).

(** A row as a table stores it: one cell per column of the table. *)
Definition stored_row (t : Table) (r : list (string * Cell)) : Row :=
  map (λ c, kw_get (col_name c) r) (tbl_columns t).

(** The schema of the example without the table of the observations. *)
Definition ex_world_lacking : World :=
  mkWorld (delete "observation" (reset_tables ex_cfg ex_ns).1) 0 [].

(** The files of the example when the file of the persons cannot be
    opened. *)
Definition ex_env_locked : Env :=
  mkEnv (glob_csv ex_env)
        (λ path, if String.eqb path "/data/NYC_Person_DataSprint_5.csv"
                 then Raise (Exception "Permission denied") else Ok path)
        (read_csv ex_env) (utcnow ex_env) (insert_error ex_env) false.

(** The system before a run: the database of the example, where the log
    of [nyc] holds an entry of an earlier run. *)
Definition ex_sys : Sys := mkSys ex_db 0 [].

(** The two sites of the example sharing the default schema. *)
Definition ex_cfg_shared : Config :=
  mkConfig (hpo_ids ex_cfg) false (datetime_tpe ex_cfg) (sprint_num ex_cfg) (csv_dir ex_cfg)
           (cdm_csv ex_cfg) (pmi_tables_csv ex_cfg).

(** A database where only [nyc] has a log table. *)
Definition ex_db_partial : Database :=
  mkDatabase ∅ (<["nyc" := {[ LOG_TABLE_NAME := mkTable log_columns [entry_row ex_entry] ]}]> ∅).

(** A computation respects a relation between worlds when the world it
    leaves, however it ends, is related to the world it started in. *)
Definition respects (R : World → World → Prop) {A} (m : M A) : Prop :=
  ∀ st, R (st_world st) (st_world (m st).1).




(** A site with notes. The one note of the file has a text of 900
    characters, and the database enforces the lengths of its columns: it
    refuses the note, whose text does not fit the 500 characters of its
    column, with an error that carries the row as its parameters, and it
    refuses a log row whose [params] does not fit the 800 characters of
    that column. *)
Definition ex_long_text : string := PyStr.zeros 900.

Definition ex_cfg_notes : Config :=
  mkConfig ["nyc"; "pitt"] true (DateTime_fsp 6) 5 "/data"
    [ mkCdmRow "note" "note_id" "no" "integer" "";
      mkCdmRow "note" "note_text" "yes" "text" "";
      mkCdmRow "person" "person_id" "no" "integer" "" ]
    ["note"; "person"].

Definition ex_notes : DataFrame :=
  mkDF 1 [ ("note_id", [Some (VInt 1)]); ("note_text", [Some (VStr ex_long_text)]) ].

Definition ex_env_strict : Env :=
  mkEnv [ "/data/nyc_note_datasprint_5.csv"; "/data/nyc_person_datasprint_5.csv" ]
        (λ path, Ok path)
        (λ f, if String.eqb f "/data/nyc_note_datasprint_5.csv"
              then Ok ex_notes else Ok ex_persons)
        (λ n, mkDatetime 2017 3 4 5 6 7 (N.of_nat n))
        (λ name row,
           if String.eqb name LOG_TABLE_NAME
           then match assoc "params" row with
                | Some (Some (VStr p)) =>
                    if (800 <? String.length p)%nat
                    then Some (StatementError
                                 "value too long for type character varying(800)"
                                 (ParamsObj "{'params': '...'}"))
                    else None
                | _ => None
                end
           else match assoc "note_text" row with
                | Some (Some (VStr text)) =>
                    if (500 <? String.length text)%nat
                    then Some (StatementError
                                 "value too long for type character varying(500)"
                                 (ParamsObj ("{'note_id': 1, 'note_text': '"
                                             ++ text ++ "'}")))
                    else None
                | _ => None
                end)
        false.

(* ===================================================================== *)
(** * Lemmas and theorems *)
(* ===================================================================== *)

(** ** Lists of names *)

Lemma elem_of_unique (x : string) (l : list string) : x ∈ unique l ↔ x ∈ l.
Proof.
  induction l as [|y l IH]; simpl; [done|].
  rewrite !elem_of_cons, list_elem_of_filter, IH.
  destruct (decide (x = y)); naive_solver.
Qed.

Lemma elem_of_insert_sorted (x y : string) (l : list string) :
  x ∈ insert_sorted y l ↔ x = y ∨ x ∈ l.
Proof.
  induction l as [|z l IH]; simpl.
  - rewrite list_elem_of_singleton, elem_of_nil. naive_solver.
  - destruct (String.leb y z); rewrite !elem_of_cons; [done|].
    rewrite IH. naive_solver.
Qed.

Lemma elem_of_sorted (x : string) (l : list string) : x ∈ sorted l ↔ x ∈ l.
Proof.
  induction l as [|y l IH]; simpl; [done|].
  unfold sorted in *. simpl. rewrite elem_of_insert_sorted, IH, elem_of_cons. done.
Qed.

Lemma elem_of_groupby_keys (df : list CdmRow) (r : CdmRow) :
  r ∈ df → cdm_table_name r ∈ sorted (unique (map cdm_table_name df)).
Proof.
  intros Hr. rewrite elem_of_sorted, elem_of_unique.
  apply list_elem_of_fmap. eauto.
Qed.

Lemma assoc_app_notin {A} (k : string) (l1 l2 : list (string * A)) :
  k ∉ map fst l1 → assoc k (l1 ++ l2) = assoc k l2.
Proof.
  induction l1 as [|[k' v] l1 IH]; simpl; [done|].
  rewrite not_elem_of_cons. intros [Hne Hnotin].
  destruct (String.eqb_spec k k'); [done|]. by apply IH.
Qed.

Lemma assoc_app_Some {A} (k : string) (l1 l2 : list (string * A)) (v : A) :
  assoc k l1 = Some v → assoc k (l1 ++ l2) = Some v.
Proof.
  induction l1 as [|[k' v'] l1 IH]; simpl; [done|].
  by destruct (String.eqb_spec k k').
Qed.

Lemma assoc_None {A} (k : string) (l : list (string * A)) :
  assoc k l = None ↔ k ∉ map fst l.
Proof.
  induction l as [|[k' v] l IH]; simpl.
  - split; [intros _; apply not_elem_of_nil | done].
  - rewrite not_elem_of_cons. destruct (String.eqb_spec k k'); naive_solver.
Qed.

(** ** The catalog types *)

Lemma column_type_recognized (cfg : Config) (d : string) :
  d ∈ recognized_types → ∃ tpe, column_type cfg d = Ok tpe.
Proof.
  unfold recognized_types. rewrite !elem_of_cons, elem_of_nil.
  intros [->|[->|[->|[->|[->|[->|[]]]]]]]; vm_compute; eauto.
Qed.

Lemma column_type_raise (cfg : Config) (d : string) (e : PyExc) :
  column_type cfg d = Raise e → (d ∉ recognized_types) ∧ e = unexpected_data_type d.
Proof.
  unfold column_type. case_bool_decide as H1; [done|].
  destruct (String.eqb_spec d "integer"); [done|].
  destruct (String.eqb_spec d "numeric"); [done|].
  destruct (String.eqb_spec d "date"); [done|].
  destruct (String.eqb_spec d "datetime"); [done|].
  intros [= <-]. split; [|done].
  unfold recognized_types. rewrite !elem_of_cons, elem_of_nil in *. naive_solver.
Qed.

Lemma line_columns_raise (cfg : Config) (table_df : list CdmRow) (e : PyExc) :
  line_columns cfg table_df = Raise e →
  ∃ r, r ∈ table_df ∧ (cdm_data_type r ∉ recognized_types)
       ∧ e = unexpected_data_type (cdm_data_type r).
Proof.
  induction table_df as [|r rest IH]; simpl; [done|].
  destruct (column_type cfg (cdm_data_type r)) as [tpe|e'] eqn:Ht.
  - destruct (line_columns cfg rest) as [cols|e'']; [done|].
    intros [= <-]. destruct (IH eq_refl) as (r' & Hin & Hbad & He).
    exists r'. rewrite elem_of_cons. eauto.
  - intros [= <-]. apply column_type_raise in Ht as [Hbad He].
    exists r. rewrite elem_of_cons. eauto.
Qed.

Lemma table_columns_raise (cfg : Config) (table_df : list CdmRow) (e : PyExc) :
  table_columns cfg table_df = Raise e →
  ∃ r, r ∈ table_df ∧ (cdm_data_type r ∉ recognized_types)
       ∧ e = unexpected_data_type (cdm_data_type r).
Proof.
  unfold table_columns.
  destruct (line_columns cfg table_df) as [cols|e'] eqn:Hl; [done|].
  intros [= <-]. by apply (line_columns_raise cfg).
Qed.

Lemma table_columns_ok (cfg : Config) (table_df : list CdmRow) (columns : list Column) :
  table_columns cfg table_df = Ok columns →
  ∀ r, r ∈ table_df → cdm_data_type r ∈ recognized_types.
Proof.
  unfold table_columns.
  destruct (line_columns cfg table_df) as [cols0|e0] eqn:Hl; [|done]. intros _.
  clear columns. revert cols0 Hl.
  induction table_df as [|r rest IH]; simpl; intros columns.
  - intros _ r' Hin. by apply elem_of_nil in Hin.
  - destruct (column_type cfg (cdm_data_type r)) as [tpe|e'] eqn:Ht; [|done].
    destruct (line_columns cfg rest) as [cols|e''] eqn:Hrest; [|done].
    intros _ r' [Heq|Hin]%elem_of_cons; [subst r'|by eapply IH].
    destruct (decide (cdm_data_type r ∈ recognized_types)) as [|Hbad]; [done|].
    exfalso. revert Ht. unfold column_type.
    unfold recognized_types in Hbad. rewrite !elem_of_cons, elem_of_nil in Hbad.
    case_bool_decide as H1.
    { rewrite !elem_of_cons, elem_of_nil in H1. naive_solver. }
    repeat (match goal with
            | |- context [String.eqb ?a ?b] => destruct (String.eqb_spec a b)
            end; [naive_solver|]).
    done.
Qed.

Lemma declare_tables_raise (cfg : Config) (ts : list (string * list CdmRow)) (e : PyExc) :
  declare_tables cfg ts = Raise e →
  ∃ t r, t ∈ ts ∧ r ∈ t.2 ∧ (cdm_data_type r ∉ recognized_types)
         ∧ e = unexpected_data_type (cdm_data_type r).
Proof.
  induction ts as [|[name table_df] rest IH]; simpl; [done|].
  destruct (table_columns cfg table_df) as [cols|e'] eqn:Ht.
  - destruct (declare_tables cfg rest) as [md|e'']; [done|].
    intros [= <-]. destruct (IH eq_refl) as (t & r & Hin & ?).
    exists t, r. rewrite elem_of_cons. eauto.
  - intros [= <-]. apply table_columns_raise in Ht as (r & Hin & Hbad & He).
    exists (name, table_df), r. rewrite elem_of_cons. eauto.
Qed.

Lemma declare_tables_ok (cfg : Config) (ts : list (string * list CdmRow)) (md : MetaData) :
  declare_tables cfg ts = Ok md →
  map fst md = map fst ts ∧
  ∀ t, t ∈ ts → ∃ columns, table_columns cfg t.2 = Ok columns.
Proof.
  revert md. induction ts as [|[name table_df] rest IH]; simpl; intros md.
  - intros [= <-]. split; [done|]. intros t Hin. by apply elem_of_nil in Hin.
  - destruct (table_columns cfg table_df) as [cols|e'] eqn:Ht; [|done].
    destruct (declare_tables cfg rest) as [md'|e''] eqn:Hrest; [|done].
    intros [= <-]. destruct (IH _ eq_refl) as [Hfst Hall]. split.
    + simpl. by rewrite Hfst.
    + intros t [->|Hin]%elem_of_cons; eauto.
Qed.

(** The columns a declared table got are those of its lines. *)
Lemma declare_tables_assoc (cfg : Config) (g : string → list CdmRow)
  (keys : list string) (md : MetaData) (k : string) :
  declare_tables cfg (map (λ k, (k, g k)) keys) = Ok md →
  k ∈ keys →
  ∃ columns, table_columns cfg (g k) = Ok columns ∧ assoc k md = Some columns.
Proof.
  revert md. induction keys as [|k' keys IH]; simpl; intros md.
  - intros _ Hin. by apply elem_of_nil in Hin.
  - destruct (table_columns cfg (g k')) as [cols|e'] eqn:Ht; [|done].
    destruct (declare_tables cfg _) as [md'|e''] eqn:Hrest; [|done].
    intros [= <-] Hin. simpl.
    destruct (String.eqb_spec k k') as [->|Hne]; [eauto|].
    apply elem_of_cons in Hin as [?|Hin]; [done|]. by apply IH.
Qed.

(** ** The namespace: what [create_all] and [drop_tables] leave under a name *)

Lemma create_all_lookup (md : MetaData) (ns : Namespace) (name : string) :
  create_all md ns !! name =
  match ns !! name with
  | Some t => Some t
  | None => (λ columns, mkTable columns []) <$> assoc name md
  end.
Proof.
  unfold create_all. revert ns.
  induction md as [|[n columns] md IH]; intros ns; simpl.
  - by destruct (ns !! name).
  - rewrite IH. clear IH. destruct (String.eqb_spec name n) as [->|Hne].
    + destruct (ns !! n) as [t|] eqn:Hn; [by rewrite Hn|].
      by rewrite lookup_insert_eq.
    + destruct (ns !! n) as [t|] eqn:Hn; [done|].
      by rewrite lookup_insert_ne.
Qed.

Lemma drop_tables_lookup (cfg : Config) (ns : Namespace) (name : string) :
  drop_tables cfg ns !! name =
  if decide (known_table cfg name) then None else ns !! name.
Proof.
  unfold drop_tables, drop_all, tables_to_drop.
  rewrite lookup_difference.
  destruct (filter _ ns !! name) as [t|] eqn:Hf.
  - apply map_lookup_filter_Some in Hf as [_ Hk]. simpl in Hk.
    by rewrite decide_True.
  - destruct (decide (known_table cfg name)) as [Hk|Hk]; [|done].
    apply map_lookup_filter_None in Hf as [Hnone|Hnot]; [done|].
    destruct (ns !! name) as [t|] eqn:Hn; [|done].
    exfalso. by apply (Hnot t).
Qed.

Lemma drop_tables_idempotent (cfg : Config) (ns : Namespace) :
  drop_tables cfg (drop_tables cfg ns) = drop_tables cfg ns.
Proof.
  apply map_eq. intros name. rewrite !drop_tables_lookup.
  by destruct (decide (known_table cfg name)).
Qed.

(** Whether [create_tables] raises does not depend on the namespace. *)
Lemma create_tables_raise_any (cfg : Config) (ns ns' : Namespace) (e : PyExc) :
  create_tables cfg ns = Raise e → create_tables cfg ns' = Raise e.
Proof.
  unfold create_tables.
  destruct (declare_tables cfg _) as [md|e']; [|done].
  by destruct (declare_table _ _ md).
Qed.

Lemma create_tables_ok (cfg : Config) (ns ns' : Namespace) :
  create_tables cfg ns = Ok ns' →
  ∃ md, declare_tables cfg (groupby_table_name (cdm_csv cfg)) = Ok md
        ∧ (LOG_TABLE_NAME ∉ map fst md)
        ∧ ns' = create_all (md ++ [(LOG_TABLE_NAME, log_columns)]) ns.
Proof.
  unfold create_tables, declare_table.
  destruct (declare_tables cfg _) as [md|e']; [|done].
  case_bool_decide; [done|]. intros [= <-]. eauto.
Qed.

Lemma reset_tables_lookup (cfg : Config) (ns : Namespace) (name : string) (t : Table) :
  ¬ known_table cfg name → ns !! name = Some t →
  (reset_tables cfg ns).1 !! name = Some t.
Proof.
  intros Hk Hn. unfold reset_tables.
  assert (drop_tables cfg ns !! name = Some t) as Hd.
  { by rewrite drop_tables_lookup, decide_False. }
  destruct (create_tables cfg (drop_tables cfg ns)) as [ns'|e] eqn:Hc; simpl; [|done].
  apply create_tables_ok in Hc as (md & _ & _ & ->).
  by rewrite create_all_lookup, Hd.
Qed.

(** C8. The drop step of the reset removes a table exactly when its name
    is in the in-scope table set or is the log table name: under such a
    name nothing is left, under any other name the namespace is as it
    was. The whole reset (drop, then create) leaves every existing table
    of any other name unchanged. *)
Theorem reset_frame (cfg : Config) (ns : Namespace) (name : string) (t : Table) :
  ns !! name = Some t →
  (known_table cfg name → drop_tables cfg ns !! name = None) ∧
  (¬ known_table cfg name →
     drop_tables cfg ns !! name = Some t ∧ (reset_tables cfg ns).1 !! name = Some t).
Proof.
  intros Hn. split; intros Hk.
  - by rewrite drop_tables_lookup, decide_True.
  - split; [by rewrite drop_tables_lookup, decide_False|].
    by apply reset_tables_lookup.
Qed.

Lemma column_type_mapping (cfg : Config) (d : string) (tpe : SqlType) :
  column_type cfg d = Ok tpe → assoc d (type_mapping cfg) = Some tpe.
Proof.
  unfold column_type. case_bool_decide as H1.
  { rewrite !elem_of_cons, elem_of_nil in H1. intros [= <-].
    by destruct H1 as [->|[->|[]]]. }
  destruct (String.eqb_spec d "integer") as [->|]; [by intros [= <-]|].
  destruct (String.eqb_spec d "numeric") as [->|]; [by intros [= <-]|].
  destruct (String.eqb_spec d "date") as [->|]; [by intros [= <-]|].
  destruct (String.eqb_spec d "datetime") as [->|]; [by intros [= <-]|].
  done.
Qed.

Lemma line_columns_layout (cfg : Config) (lines : list CdmRow) (columns : list Column) :
  line_columns cfg lines = Ok columns → Forall2 (line_layout cfg) lines columns.
Proof.
  revert columns. induction lines as [|r rest IH]; simpl; intros columns.
  - intros [= <-]. constructor.
  - destruct (column_type cfg (cdm_data_type r)) as [tpe|e'] eqn:Ht; [|done].
    destruct (line_columns cfg rest) as [cols|e''] eqn:Hrest; [|done].
    intros [= <-]. constructor; [|by apply IH].
    split; [done|]. split; [by apply column_type_mapping|]. simpl.
    by destruct (String.eqb_spec (cdm_is_nullable r) "yes").
Qed.

Lemma Table_columns_snoc (columns : list Column) (c : Column) :
  Table_columns (columns ++ [c]) = replace_column c (Table_columns columns).
Proof. unfold Table_columns. by rewrite foldl_app. Qed.

Lemma replace_column_names (c : Column) (columns : list Column) :
  map col_name (replace_column c columns)
  = if decide (col_name c ∈ map col_name columns) then map col_name columns
    else map col_name columns ++ [col_name c].
Proof.
  induction columns as [|d columns IH]; simpl.
  - done.
  - destruct (String.eqb_spec (col_name d) (col_name c)) as [Heq|Hne]; simpl.
    + rewrite Heq, decide_True; [done|]. apply list_elem_of_here.
    + rewrite IH. destruct (decide (col_name c ∈ map col_name columns)) as [Hin|Hin].
      * rewrite decide_True; [done|]. by apply list_elem_of_further.
      * rewrite decide_False; [done|]. rewrite not_elem_of_cons. split; [congruence|done].
Qed.

Lemma elem_of_replace_column (c : Column) (columns : list Column) :
  c ∈ replace_column c columns.
Proof.
  induction columns as [|d columns IH]; simpl; [apply list_elem_of_here|].
  destruct (String.eqb (col_name d) (col_name c));
    [apply list_elem_of_here|by apply list_elem_of_further].
Qed.

Lemma elem_of_replace_column_other (c d : Column) (columns : list Column) :
  d ∈ columns → col_name d ≠ col_name c → d ∈ replace_column c columns.
Proof.
  intros Hd Hne. induction columns as [|d' columns IH]; simpl.
  - by apply elem_of_nil in Hd.
  - apply elem_of_cons in Hd as [<-|Hd].
    + destruct (String.eqb_spec (col_name d) (col_name c)); [done|].
      apply list_elem_of_here.
    + destruct (String.eqb (col_name d') (col_name c));
        apply list_elem_of_further; [done|by apply IH].
Qed.

Lemma unique_snoc (l : list string) (x : string) :
  unique (l ++ [x]) = if decide (x ∈ l) then unique l else unique l ++ [x].
Proof.
  induction l as [|y l IH]; simpl.
  - done.
  - rewrite IH. destruct (decide (x = y)) as [->|Hne].
    + rewrite (decide_True (P := y ∈ y :: l)) by apply list_elem_of_here.
      destruct (decide (y ∈ l)); [done|].
      rewrite filter_app, filter_cons_False by (by intros H; apply H).
      by rewrite filter_nil, app_nil_r.
    + destruct (decide (x ∈ l)) as [Hin|Hin].
      * rewrite decide_True; [done|]. by apply list_elem_of_further.
      * rewrite decide_False by (rewrite not_elem_of_cons; done).
        rewrite filter_app, filter_cons_True by done. by rewrite filter_nil.
Qed.

Lemma Table_columns_names (columns : list Column) :
  map col_name (Table_columns columns) = unique (map col_name columns).
Proof.
  induction columns as [|c columns IH] using rev_ind; [done|].
  rewrite Table_columns_snoc, replace_column_names, map_app. cbn [map].
  rewrite unique_snoc, IH. destruct (decide (col_name c ∈ map col_name columns)) as [Hin|Hin].
  - rewrite decide_True; [done|]. by apply elem_of_unique.
  - rewrite decide_False; [done|]. by rewrite elem_of_unique.
Qed.

Lemma Table_columns_last (pre post : list Column) (c : Column) :
  (col_name c ∉ map col_name post) → c ∈ Table_columns (pre ++ c :: post).
Proof.
  induction post as [|d post IH] using rev_ind; intros Hc.
  - change (pre ++ [c]) with (pre ++ [c]). rewrite Table_columns_snoc.
    apply elem_of_replace_column.
  - rewrite map_app, not_elem_of_app in Hc. destruct Hc as [Hc Hd].
    simpl in Hd. rewrite list_elem_of_singleton in Hd.
    rewrite app_comm_cons, app_assoc, Table_columns_snoc.
    apply elem_of_replace_column_other; [by apply IH|done].
Qed.

Lemma table_columns_layout (cfg : Config) (lines : list CdmRow) (columns : list Column) :
  table_columns cfg lines = Ok columns → catalog_layout cfg lines columns.
Proof.
  unfold table_columns.
  destruct (line_columns cfg lines) as [cols|e] eqn:Hl; [|done]. intros [= <-].
  apply line_columns_layout in Hl.
  assert (∀ ls cs, Forall2 (line_layout cfg) ls cs
                   → map col_name cs = map cdm_column_name ls) as Hnames.
  { intros ls cs H. induction H as [|r c ls cs (Hn & _) _ IH]; simpl; [done|].
    by rewrite Hn, IH. }
  split.
  - by rewrite Table_columns_names, (Hnames _ _ Hl).
  - intros pre r post -> Hlast.
    apply Forall2_app_inv_l in Hl as (cpre & crest & Hpre & Hrest & ->).
    apply Forall2_cons_inv_l in Hrest as (c & cpost & Hc & Hpost & ->).
    exists c. split; [|done]. apply Table_columns_last.
    destruct Hc as (-> & _). by rewrite (Hnames _ _ Hpost).
Qed.

Lemma filter_ne_notin (x : string) (l : list string) :
  x ∉ l → filter (λ y, y ≠ x) l = l.
Proof.
  induction l as [|y l IH]; [done|]. intros [Hne Hx]%not_elem_of_cons.
  rewrite filter_cons_True by done. f_equal. by apply IH.
Qed.

Lemma unique_NoDup (l : list string) : NoDup l → unique l = l.
Proof.
  induction 1 as [|x l Hx Hl IH]; simpl; [done|].
  by rewrite IH, filter_ne_notin.
Qed.

(** With no column name repeated, the layout of the catalog is one column
    per line, in the order of the lines. *)
Lemma catalog_layout_distinct (cfg : Config) (lines : list CdmRow) (columns : list Column) :
  NoDup (map cdm_column_name lines) →
  catalog_layout cfg lines columns → Forall2 (line_layout cfg) lines columns.
Proof.
  intros Hnd [Hnames Hlast]. rewrite unique_NoDup in Hnames by done.
  revert columns Hnames Hlast. induction lines as [|r lines IH]; intros columns Hnames Hlast.
  - destruct columns; [constructor|done].
  - destruct columns as [|c0 columns]; [done|].
    simpl in Hnames, Hnd. injection Hnames as Hn0 Hnames.
    apply NoDup_cons in Hnd as [Hr Hnd].
    constructor.
    + destruct (Hlast [] r lines eq_refl Hr) as (c & [->|Hc]%elem_of_cons & Hlay); [done|].
      exfalso. apply Hr. rewrite <- Hnames. destruct Hlay as (<- & _).
      apply list_elem_of_fmap. eauto.
    + apply IH; [done|done|]. intros pre r' post -> Hr'.
      destruct (Hlast (r :: pre) r' post eq_refl Hr')
        as (c & [->|Hc]%elem_of_cons & Hlay); [|eauto].
      exfalso. apply Hr. destruct Hlay as (Hn & _). rewrite <- Hn0, Hn, map_app.
      apply elem_of_app. right. apply list_elem_of_here.
Qed.

(** C7. Running the reset a second time changes nothing: the namespace and
    the outcome are those of the first run. When the reset goes through,
    the log table exists, empty, with its six columns, and every in-scope
    table the catalog defines exists, empty, with the layout the catalog
    gives it: one column per column name, in the order of first
    appearance, typed by the type mapping and nullable as the catalog
    says. When the lines of the table name no column twice, that is one
    column per line, in the order of the lines. *)
Theorem reset_idempotent (cfg : Config) (ns : Namespace) :
  reset_tables cfg (reset_tables cfg ns).1 = reset_tables cfg ns ∧
  ((reset_tables cfg ns).2 = Ok tt →
   (reset_tables cfg ns).1 !! LOG_TABLE_NAME = Some (mkTable log_columns []) ∧
   ∀ name, name ∈ pmi_tables cfg → name ∈ map cdm_table_name (cdm_csv cfg) →
     ∃ columns, catalog_layout cfg (catalog_lines cfg name) columns
                ∧ (NoDup (map cdm_column_name (catalog_lines cfg name)) →
                   Forall2 (line_layout cfg) (catalog_lines cfg name) columns)
                ∧ (reset_tables cfg ns).1 !! name = Some (mkTable columns [])).
Proof.
  unfold reset_tables.
  destruct (create_tables cfg (drop_tables cfg ns)) as [ns1|e] eqn:Hc; simpl.
  - pose proof Hc as Hc'.
    apply create_tables_ok in Hc' as (md & Hmd & Hlog & ->).
    assert (∀ name, known_table cfg name →
              create_all (md ++ [(LOG_TABLE_NAME, log_columns)]) (drop_tables cfg ns) !! name
              = (λ columns, mkTable columns []) <$> assoc name (md ++ [(LOG_TABLE_NAME, log_columns)]))
      as Hknown.
    { intros name Hk. by rewrite create_all_lookup, drop_tables_lookup, decide_True. }
    split; [|intros _; split].
    + destruct (create_tables cfg (drop_tables cfg (create_all _ _))) as [ns2|e] eqn:Hc2.
      * f_equal. apply create_tables_ok in Hc2 as (md' & Hmd' & _ & ->).
        rewrite Hmd in Hmd'. injection Hmd' as <-.
        apply map_eq. intros name. rewrite create_all_lookup, drop_tables_lookup.
        destruct (decide (known_table cfg name)) as [Hk|Hk].
        -- by rewrite Hknown.
        -- rewrite create_all_lookup, drop_tables_lookup, decide_False by done.
           destruct (ns !! name) as [t|]; [done|].
           by destruct (assoc name (md ++ [(LOG_TABLE_NAME, log_columns)])).
      * apply (create_tables_raise_any _ _ (drop_tables cfg ns)) in Hc2. congruence.
    + rewrite Hknown by (by right).
      rewrite assoc_app_notin by done. done.
    + intros name Hscope Hcat. rewrite Hknown by (by left).
      unfold groupby_table_name in Hmd.
      eapply (declare_tables_assoc _ _ _ _ name) in Hmd as (columns & Hcols & Hassoc).
      * exists columns. split; [by apply table_columns_layout|].
        split; [intros Hnd; by apply catalog_layout_distinct, table_columns_layout|].
        by rewrite (assoc_app_Some _ _ _ _ Hassoc).
      * rewrite elem_of_sorted, elem_of_unique. done.
  - split; [|done]. rewrite drop_tables_idempotent.
    apply (create_tables_raise_any _ _ (drop_tables cfg ns)) in Hc as Hc'.
    by rewrite Hc.
Qed.

(** ** An unknown data type *)

Lemma groupby_elem (df : list CdmRow) (r : CdmRow) :
  r ∈ df →
  ∃ t, t ∈ groupby_table_name df ∧ r ∈ t.2.
Proof.
  intros Hr. exists (cdm_table_name r, filter (λ r', cdm_table_name r' = cdm_table_name r) df).
  split.
  - unfold groupby_table_name.
    apply list_elem_of_fmap. exists (cdm_table_name r).
    split; [done|]. by apply elem_of_groupby_keys.
  - simpl. by apply list_elem_of_filter.
Qed.

Lemma groupby_subset (df : list CdmRow) (t : string * list CdmRow) (r : CdmRow) :
  t ∈ groupby_table_name df → r ∈ t.2 → r ∈ df.
Proof.
  unfold groupby_table_name. intros (k & -> & _)%list_elem_of_fmap. simpl.
  by intros [_ ?]%list_elem_of_filter.
Qed.

Lemma create_tables_unexpected (cfg : Config) (ns : Namespace) :
  (∃ r, r ∈ cdm_csv cfg ∧ (cdm_data_type r ∉ recognized_types)) →
  ∃ r, r ∈ cdm_csv cfg ∧ (cdm_data_type r ∉ recognized_types)
       ∧ create_tables cfg ns = Raise (unexpected_data_type (cdm_data_type r)).
Proof.
  intros (r & Hr & Hbad). unfold create_tables.
  destruct (declare_tables cfg (groupby_table_name (cdm_csv cfg))) as [md|e] eqn:Hd.
  - exfalso. apply declare_tables_ok in Hd as [_ Hall].
    destruct (groupby_elem _ _ Hr) as (t & Ht & Hrt).
    destruct (Hall t Ht) as [columns Hcols].
    apply Hbad. by apply (table_columns_ok _ _ _ Hcols r Hrt).
  - apply declare_tables_raise in Hd as (t & r' & Ht & Hrt & Hbad' & ->).
    exists r'. split; [by eapply groupby_subset|]. done.
Qed.

Lemma create_tables_not_implemented (cfg : Config) (ns : Namespace) (m : string) :
  create_tables cfg ns = Raise (NotImplementedError m) →
  ∃ r, r ∈ cdm_csv cfg ∧ (cdm_data_type r ∉ recognized_types)
       ∧ NotImplementedError m = unexpected_data_type (cdm_data_type r).
Proof.
  unfold create_tables.
  destruct (declare_tables cfg (groupby_table_name (cdm_csv cfg))) as [md|e] eqn:Hd.
  - unfold declare_table. by case_bool_decide.
  - intros [= ->].
    apply declare_tables_raise in Hd as (t & r' & Ht & Hrt & Hbad' & ->).
    exists r'. split; [by eapply groupby_subset|]. done.
Qed.

(** C9. [create_tables] raises its [NotImplementedError] exactly when some
    line of the catalog carries a data type outside the recognised six, and
    the message names the type of such a line; when it returns, every line
    had a recognised type, so none was skipped. In [main] the error leaves
    the loop at the first site: all that was done is the progress line of
    that site, with no file looked for, opened, parsed or loaded and no log
    row written. *)
Theorem unrecognized_type_fatal (cfg : Config) :
  (∀ ns, (∃ r, r ∈ cdm_csv cfg ∧ (cdm_data_type r ∉ recognized_types)) ↔
         (∃ m, create_tables cfg ns = Raise (NotImplementedError m))) ∧
  (∀ ns m, create_tables cfg ns = Raise (NotImplementedError m) →
     ∃ r, r ∈ cdm_csv cfg ∧ (cdm_data_type r ∉ recognized_types)
          ∧ NotImplementedError m = unexpected_data_type (cdm_data_type r)) ∧
  (∀ ns ns', create_tables cfg ns = Ok ns' →
     ∀ r, r ∈ cdm_csv cfg → cdm_data_type r ∈ recognized_types) ∧
  (∀ env s hpo_id rest,
     hpo_ids cfg = hpo_id :: rest →
     (∃ r, r ∈ cdm_csv cfg ∧ (cdm_data_type r ∉ recognized_types)) →
     ∃ s' r, r ∈ cdm_csv cfg ∧ (cdm_data_type r ∉ recognized_types)
       ∧ main cfg env s = (s', Raise (unexpected_data_type (cdm_data_type r)))
       ∧ sys_trace s' = sys_trace s ++ [EvPrint ("Processing " ++ hpo_id ++ "...")]
       ∧ sys_clock s' = sys_clock s).
Proof.
  split; [|split; [|split]].
  - intros ns. split.
    + intros Hbad. destruct (create_tables_unexpected cfg ns Hbad) as (r & _ & _ & Hc).
      eexists. exact Hc.
    + intros [m Hc]. apply create_tables_not_implemented in Hc as (r & ? & ? & _). eauto.
  - intros ns m. apply create_tables_not_implemented.
  - intros ns ns' Hc r Hr.
    destruct (decide (cdm_data_type r ∈ recognized_types)) as [|Hbad]; [done|].
    destruct (create_tables_unexpected cfg ns) as (r' & _ & _ & Hc'); [eauto|congruence].
  - intros env s hpo_id rest Hids Hbad. unfold main. rewrite Hids. simpl.
    unfold main_site, reset_tables.
    set (db := if use_multi_schemas cfg then _ else _).
    destruct (create_tables_unexpected cfg
                (drop_tables cfg (schema_tables (schema_of cfg hpo_id) db)) Hbad)
      as (r & Hr & Hbad' & Hc).
    rewrite Hc. eexists _, r. repeat split; done.
Qed.

(** ** The row transformation *)

Lemma labels_rename (f : string → string) (df : DataFrame) :
  labels (rename f df) = map f (labels df).
Proof.
  unfold labels, rename. simpl. rewrite !map_map. done.
Qed.

Lemma assoc_Some_labels {A} (k : string) (l : list (string * A)) (v : A) :
  assoc k l = Some v → k ∈ map fst l.
Proof.
  intros H. destruct (decide (k ∈ map fst l)) as [|Hn]; [done|].
  apply assoc_None in Hn. congruence.
Qed.

Lemma assoc_tabulate {A} (f : string → A) (l : list string) (k : string) :
  assoc k (map (λ c, (c, f c)) l) = if decide (k ∈ l) then Some (f k) else None.
Proof.
  induction l as [|c l IH]; cbn [map assoc].
  - destruct (decide (k ∈ [])) as [H|H]; [by apply elem_of_nil in H|done].
  - destruct (String.eqb_spec k c) as [->|Hne].
    + destruct (decide (c ∈ c :: l)) as [H|H]; [done|]. set_solver.
    + rewrite IH.
      destruct (decide (k ∈ l)), (decide (k ∈ c :: l)); try done; set_solver.
Qed.

(** A map over the columns that keeps the labels acts on the column found
    under a label. *)
Lemma assoc_relabel {A} (h : string → A → A) (g : string * A → string * A)
  (l : list (string * A)) (k : string) :
  (∀ c, g c = (c.1, h c.1 c.2)) →
  assoc k (map g l) = h k <$> assoc k l.
Proof.
  intros Hg. induction l as [|[c s] l IH]; simpl; [done|].
  rewrite Hg. simpl. by destruct (String.eqb_spec k c) as [->|Hne].
Qed.

Lemma reindex_ok (column_names : list string) (df out : DataFrame) :
  reindex column_names df = Ok out →
  out = mkDF (df_nrows df) (map (λ c, (c, column_or_nan df c)) column_names).
Proof.
  unfold reindex. destruct (_ || _); [|done]. by intros [= <-].
Qed.

Lemma reindex_NoDup (column_names : list string) (df : DataFrame) :
  NoDup (labels df) → ∃ out, reindex column_names df = Ok out.
Proof.
  intros Hnd. unfold reindex. rewrite bool_decide_eq_true_2 by done. simpl. eauto.
Qed.

Lemma getitem_ok (columns : list string) (df sub : DataFrame) :
  getitem columns df = Ok sub →
  df_nrows sub = df_nrows df ∧
  ∀ k, assoc k (df_columns sub) =
       if decide (k ∈ columns) then assoc k (df_columns df) else None.
Proof.
  revert sub. induction columns as [|c columns IH]; cbn [getitem]; intros sub.
  - intros [= <-]. split; [done|]. intros k. cbn [df_columns assoc].
    destruct (decide (k ∈ [])) as [H|H]; [by apply elem_of_nil in H|done].
  - destruct (assoc c (df_columns df)) as [s|] eqn:Hc; [|done].
    destruct (getitem columns df) as [sub'|e]; [|done].
    intros [= <-]. destruct (IH _ eq_refl) as [Hn Hk]. split; [done|].
    intros k. cbn [df_columns assoc]. destruct (String.eqb_spec k c) as [->|Hne].
    + destruct (decide (c ∈ c :: columns)) as [H|H]; [done|]. set_solver.
    + rewrite Hk.
      destruct (decide (k ∈ columns)), (decide (k ∈ c :: columns)); try done; set_solver.
Qed.

Lemma getitem_total (columns : list string) (df : DataFrame) :
  (∀ c, c ∈ columns → c ∈ labels df) → ∃ sub, getitem columns df = Ok sub.
Proof.
  induction columns as [|c columns IH]; simpl; intros Hall; [eauto|].
  destruct (assoc c (df_columns df)) as [s|] eqn:Hc.
  - destruct IH as [sub ->]; [|eauto].
    intros c' Hc'. apply Hall. apply elem_of_cons. by right.
  - exfalso. apply assoc_None in Hc. apply Hc, Hall, elem_of_cons. by left.
Qed.

Lemma elem_of_filter_bool (f : string → bool) (l : list string) (x : string) :
  x ∈ List.filter f l ↔ x ∈ l ∧ f x = true.
Proof.
  rewrite !list_elem_of_In, filter_In. done.
Qed.

Lemma labels_setitem (sub df : DataFrame) : labels (setitem sub df) = labels df.
Proof.
  unfold labels, setitem. simpl. rewrite map_map. apply map_ext.
  intros [c s]. simpl. by destruct (assoc c _).
Qed.

Lemma labels_tabulate (n : nat) (f : string → Series) (l : list string) :
  labels (mkDF n (map (λ c, (c, f c)) l)) = l.
Proof.
  unfold labels. simpl. rewrite map_map. simpl. apply map_id.
Qed.

(** The whole transformation, column by column. *)
Lemma transform_spec (column_names : list string) (df out : DataFrame) :
  transform column_names df = Ok out →
  ∃ re, reindex column_names (rename PyStr.lower df) = Ok re ∧
        df_nrows out = df_nrows df ∧
        labels out = column_names ∧
        ∀ c, assoc c (df_columns out) =
             (λ s, if is_concept_column c then map (fill (VInt 0)) s else s)
               <$> assoc c (df_columns re).
Proof.
  unfold transform.
  destruct (reindex column_names _) as [re|e] eqn:Hre; [|done].
  destruct (getitem _ re) as [sub|e] eqn:Hsub; [|done].
  intros [= <-]. exists re. split; [done|].
  pose proof (reindex_ok _ _ _ Hre) as ->. simpl in *.
  apply getitem_ok in Hsub as [_ Hsub].
  split; [done|]. split.
  - by rewrite labels_setitem, labels_tabulate.
  - intros c.
    rewrite (assoc_relabel
               (λ k s, match assoc k (df_columns (fillna (VInt 0) sub)) with
                       | Some s' => s' | None => s end)).
    2:{ intros [k s]. simpl. by destruct (assoc k _). }
    unfold fillna. simpl.
    rewrite (assoc_relabel (λ _ s, map (fill (VInt 0)) s));
      [|by intros [k s]].
    rewrite Hsub. simpl. rewrite assoc_tabulate.
    destruct (decide (c ∈ column_names)) as [Hin|Hout]; simpl; [|done].
    destruct (is_concept_column c) eqn:Hcc.
    + rewrite decide_True by (by apply elem_of_filter_bool). done.
    + rewrite decide_False; [done|].
      rewrite elem_of_filter_bool. intros [_ ?]. congruence.
Qed.

Lemma transform_total (column_names : list string) (df : DataFrame) :
  NoDup (map PyStr.lower (labels df)) → ∃ out, transform column_names df = Ok out.
Proof.
  intros Hnd. unfold transform.
  destruct (reindex_NoDup column_names (rename PyStr.lower df)) as [re Hre].
  { by rewrite labels_rename. }
  rewrite Hre. pose proof (reindex_ok _ _ _ Hre) as ->.
  destruct (getitem_total (List.filter is_concept_column column_names)
              (mkDF (df_nrows (rename PyStr.lower df))
                    (map (λ c, (c, column_or_nan (rename PyStr.lower df) c)) column_names)))
    as [sub ->]; [|eauto].
  intros c [Hc _]%elem_of_filter_bool. by rewrite labels_tabulate.
Qed.

(** C3, as the code has it. The transformed frame, the one handed to the
    load, has exactly the target columns, in their order, and as many rows
    as the source; a lowercased source header the target lacks labels no
    column of it. A target column the lowercased headers lack is all
    nulls, unless it is a concept column (its name ends with [concept_id]
    and does not contain [source]): then it is all 0. A target column the
    lowercased headers have keeps the cells of the source, the nulls of a
    concept column filled with 0. The transformation goes through whenever
    the lowercased headers are distinct. *)
Theorem column_reindexing (column_names : list string) (df : DataFrame) :
  (NoDup (map PyStr.lower (labels df)) → ∃ out, transform column_names df = Ok out) ∧
  (∀ out, transform column_names df = Ok out →
     labels out = column_names ∧
     df_nrows out = df_nrows df ∧
     (∀ c, c ∈ map PyStr.lower (labels df) → c ∉ column_names → c ∉ labels out) ∧
     (∀ c, c ∈ column_names → c ∉ map PyStr.lower (labels df) →
        assoc c (df_columns out)
        = Some (replicate (df_nrows df)
                  (if is_concept_column c then Some (VInt 0) else None))) ∧
     (∀ c s, c ∈ column_names → assoc c (df_columns (rename PyStr.lower df)) = Some s →
        assoc c (df_columns out)
        = Some (if is_concept_column c then map (fill (VInt 0)) s else s))).
Proof.
  split.
  - apply transform_total.
  - intros out (re & Hre & Hn & Hlab & Hcols)%transform_spec.
    pose proof (reindex_ok _ _ _ Hre) as Hre'.
    split; [done|]. split; [done|]. split; [|split].
    + intros c _ Hout. by rewrite Hlab.
    + intros c Hc Habs. rewrite Hcols, Hre'. simpl.
      rewrite assoc_tabulate, decide_True by done. simpl. f_equal.
      unfold column_or_nan.
      destruct (assoc c (df_columns (rename PyStr.lower df))) as [s|] eqn:Hs.
      { exfalso. apply assoc_Some_labels in Hs.
        fold (labels (rename PyStr.lower df)) in Hs. by rewrite labels_rename in Hs. }
      simpl. destruct (is_concept_column c); [|done]. clear Hn.
      induction (df_nrows df) as [|n IH]; simpl; [done|]. by rewrite IH.
    + intros c s Hc Hs. rewrite Hcols, Hre'. simpl.
      rewrite assoc_tabulate, decide_True by done. simpl. f_equal.
      unfold column_or_nan. by rewrite Hs.
Qed.

Lemma fill_not_None (v : Value) (s : Series) (x : Cell) :
  x ∈ map (fill v) s → x ≠ None.
Proof.
  intros (y & -> & _)%list_elem_of_fmap. by destruct y.
Qed.

Lemma fill_lookup (v : Value) (s : Series) (i : nat) :
  map (fill v) s !! i = fill v <$> s !! i.
Proof. apply list_lookup_fmap. Qed.

(** C2, as the code has it. The test on a target column looks at its name
    as the catalog spells it, without lowercasing it. In a column whose
    name ends with [concept_id] and does not contain [source], every null
    cell becomes 0 and every other cell is kept; in any other column, among
    them every column whose name contains [source], the cells are left as
    the reindexing gave them, nulls included. *)
Theorem concept_id_null_coercion (column_names : list string) (df out : DataFrame) :
  transform column_names df = Ok out →
  ∃ re, reindex column_names (rename PyStr.lower df) = Ok re ∧
    ∀ c, c ∈ column_names →
      ∃ s0, assoc c (df_columns re) = Some s0 ∧
        (PyStr.endswith "concept_id" c = true → PyStr.contains "source" c = false →
           assoc c (df_columns out) = Some (map (fill (VInt 0)) s0)
           ∧ (∀ x, x ∈ map (fill (VInt 0)) s0 → x ≠ None)
           ∧ (∀ i, s0 !! i = Some None → map (fill (VInt 0)) s0 !! i = Some (Some (VInt 0)))
           ∧ (∀ i v, s0 !! i = Some (Some v) → map (fill (VInt 0)) s0 !! i = Some (Some v))) ∧
        (PyStr.contains "source" c = true → assoc c (df_columns out) = Some s0) ∧
        (PyStr.endswith "concept_id" c = false → assoc c (df_columns out) = Some s0).
Proof.
  intros (re & Hre & _ & _ & Hcols)%transform_spec. exists re. split; [done|].
  intros c Hc. pose proof (reindex_ok _ _ _ Hre) as Hre'.
  assert (∃ s0, assoc c (df_columns re) = Some s0) as [s0 Hs0].
  { rewrite Hre'. simpl. rewrite assoc_tabulate, decide_True by done. eauto. }
  exists s0. split; [exact Hs0|]. rewrite Hcols, Hs0. unfold is_concept_column. simpl.
  split; [|split].
  - intros -> ->. simpl. split; [done|]. split; [apply fill_not_None|]. split.
    + intros i Hi. by rewrite fill_lookup, Hi.
    + intros i v Hi. by rewrite fill_lookup, Hi.
  - intros ->. by rewrite andb_false_r.
  - intros ->. done.
Qed.

(** ** The file index *)

Lemma assoc_app {A} (k : string) (l1 l2 : list (string * A)) :
  assoc k (l1 ++ l2) = match assoc k l1 with Some v => Some v | None => assoc k l2 end.
Proof.
  induction l1 as [|[k' v] l1 IH]; simpl; [done|].
  by destruct (String.eqb_spec k k').
Qed.

(** A [dict] built from a list of items holds, under a key, the last item
    of that key. *)
Lemma dict_lookup {A} (items : list (string * A)) (k : string) :
  dict items !! k = assoc k (reverse items).
Proof.
  unfold dict.
  enough (∀ m : gmap string A,
            foldl (λ m kv, <[kv.1 := kv.2]> m) m items !! k
            = match assoc k (reverse items) with Some v => Some v | None => m !! k end) as H.
  { rewrite H, lookup_empty. by destruct (assoc k (reverse items)). }
  induction items as [|[k' v] items IH]; intros m; simpl; [done|].
  rewrite IH, reverse_cons, assoc_app. simpl.
  destruct (assoc k (reverse items)); [done|].
  destruct (String.eqb_spec k k') as [->|Hne].
  - by rewrite lookup_insert_eq.
  - by rewrite lookup_insert_ne.
Qed.

Lemma assoc_Some_elem {A} (k : string) (l : list (string * A)) (v : A) :
  assoc k l = Some v → (k, v) ∈ l.
Proof.
  induction l as [|[k' v'] l IH]; simpl; [done|].
  destruct (String.eqb_spec k k') as [->|Hne].
  - intros [= ->]. apply elem_of_cons. by left.
  - intros H. apply elem_of_cons. right. by apply IH.
Qed.

(** What the index holds under a name is the path of a file that [glob]
    found and whose lowercased name is that name. *)
Lemma file_map_Some (env : Env) (name p : string) :
  file_map env !! name = Some p →
  p ∈ glob_csv env ∧ PyStr.lower (PyStr.split_last "/" p) = name.
Proof.
  unfold file_map. rewrite dict_lookup. intros H%assoc_Some_elem.
  apply elem_of_reverse, list_elem_of_fmap in H as (p' & Heq & Hin).
  unfold path_to_file_map_item in Heq. injection Heq as -> ->. done.
Qed.

(** A name that is the lowercased name of a file is in the index. *)
Lemma file_map_is_Some (env : Env) (p : string) :
  p ∈ glob_csv env →
  is_Some (file_map env !! PyStr.lower (PyStr.split_last "/" p)).
Proof.
  intros Hin. unfold file_map. rewrite dict_lookup.
  destruct (assoc _ (reverse _)) as [v|] eqn:Ha; [eauto|].
  exfalso. apply assoc_None in Ha. apply Ha.
  rewrite <- fmap_reverse.
  apply list_elem_of_fmap. exists (path_to_file_map_item p). split; [done|].
  apply list_elem_of_fmap. exists p. split; [done|]. by apply elem_of_reverse.
Qed.

Lemma lower_ascii_idemp (c : ascii) :
  PyStr.lower_ascii (PyStr.lower_ascii c) = PyStr.lower_ascii c.
Proof.
  by destruct c as [[] [] [] [] [] [] [] []].
Qed.

Lemma lower_idemp (s : string) : PyStr.lower (PyStr.lower s) = PyStr.lower s.
Proof.
  induction s as [|c s IH]; simpl; [done|]. by rewrite lower_ascii_idemp, IH.
Qed.

(** The keys of the index are lowercase: a name with a capital letter is
    never in it, whatever the files are. *)
Lemma file_map_capital (env : Env) (name : string) :
  PyStr.lower name ≠ name → file_map env !! name = None.
Proof.
  intros Hne. destruct (file_map env !! name) as [p|] eqn:Hp; [|done].
  apply file_map_Some in Hp as [_ <-]. by rewrite lower_idemp in Hne.
Qed.

(** ** The log export *)

(** Two item lists that agree off [params] give dicts that agree off
    [params] and hold [params] together or not at all. *)
Lemma dict_agree (items items' : list (string * Cell)) :
  Forall2 cells_agree items items' →
  (∀ k, k ≠ "params" → dict items !! k = dict items' !! k) ∧
  (is_Some (dict items !! "params") ↔ is_Some (dict items' !! "params")).
Proof.
  unfold dict. intros Hall.
  enough (∀ m m' : gmap string Cell,
            (∀ k, k ≠ "params" → m !! k = m' !! k) →
            (is_Some (m !! "params") ↔ is_Some (m' !! "params")) →
            (∀ k, k ≠ "params" →
               foldl (λ m kv, <[kv.1 := kv.2]> m) m items !! k
               = foldl (λ m kv, <[kv.1 := kv.2]> m) m' items' !! k) ∧
            (is_Some (foldl (λ m kv, <[kv.1 := kv.2]> m) m items !! "params")
             ↔ is_Some (foldl (λ m kv, <[kv.1 := kv.2]> m) m' items' !! "params"))) as H.
  { by apply H. }
  induction Hall as [|[k v] [k' v'] items items' [Hk Hv] Hall IH];
    intros m m' Hoff Hpar; simpl; [done|].
  simpl in Hk, Hv. subst k'. apply IH.
  - intros j Hj. destruct (decide (k = j)) as [->|Hne].
    + rewrite !lookup_insert_eq. f_equal. by apply Hv.
    + rewrite !lookup_insert_ne by done. by apply Hoff.
  - destruct (decide (k = "params")) as [->|Hne].
    + rewrite !lookup_insert_eq. split; eauto.
    + by rewrite !lookup_insert_ne.
Qed.

Lemma export_row_agree (hpo_id : string) (keys : list string) (r r' : Row) :
  rows_agree keys r r' → export_row hpo_id keys r = export_row hpo_id keys r'.
Proof.
  intros [Hoff Hpar]%dict_agree. unfold export_row.
  assert (delete "params" (dict (zip keys r)) = delete "params" (dict (zip keys r')))
    as Hdel.
  { apply map_eq. intros k. destruct (decide (k = "params")) as [->|Hne].
    - by rewrite !lookup_delete_eq.
    - rewrite !lookup_delete_ne by done. by apply Hoff. }
  destruct (dict (zip keys r) !! "params") as [x|] eqn:Hx,
           (dict (zip keys r') !! "params") as [x'|] eqn:Hx'.
  - by rewrite Hdel.
  - exfalso. destruct Hpar as [Hp _]. destruct Hp as [? ?]; [eauto|done].
  - exfalso. destruct Hpar as [_ Hp]. destruct Hp as [? ?]; [eauto|done].
  - done.
Qed.

Lemma export_rows_agree (hpo_id : string) (keys : list string) (rows rows' : list Row) :
  Forall2 (rows_agree keys) rows rows' →
  export_rows hpo_id keys rows = export_rows hpo_id keys rows'.
Proof.
  induction 1 as [|r r' rows rows' Hr Hall IH]; simpl; [done|].
  by rewrite (export_row_agree _ _ _ _ Hr), IH.
Qed.

Lemma export_row_no_params (hpo_id : string) (keys : list string) (r : Row)
  (item : gmap string Cell) :
  export_row hpo_id keys r = Ok item → item !! "params" = None.
Proof.
  unfold export_row.
  destruct (dict (zip keys r) !! "params"); [|done].
  destruct (_ !! "log_id"); [|done].
  intros [= <-].
  rewrite lookup_insert_ne by done. rewrite lookup_insert_ne by done.
  apply lookup_delete_eq.
Qed.

Lemma export_rows_elem (hpo_id : string) (keys : list string) (rows : list Row)
  (items : list (gmap string Cell)) (item : gmap string Cell) :
  export_rows hpo_id keys rows = Ok items → item ∈ items →
  ∃ r, r ∈ rows ∧ export_row hpo_id keys r = Ok item.
Proof.
  revert items. induction rows as [|r rows IH]; simpl; intros items.
  - intros [= <-] Hin. by apply elem_of_nil in Hin.
  - destruct (export_row hpo_id keys r) as [it|e] eqn:Hr; [|done].
    destruct (export_rows hpo_id keys rows) as [its|e]; [|done].
    intros [= <-] [->|Hin]%elem_of_cons.
    + exists r. split; [apply elem_of_cons; by left|done].
    + destruct (IH _ eq_refl Hin) as (r' & ? & ?).
      exists r'. split; [apply elem_of_cons; by right|done].
Qed.

(** Every exported item comes from a row of the log table of a site. *)
Lemma export_sites_elem (cfg : Config) (db : Database) (ids : list string)
  (items : list (gmap string Cell)) (item : gmap string Cell) :
  export_sites cfg db ids = Ok items → item ∈ items →
  ∃ hpo_id log_table r,
    hpo_id ∈ ids
    ∧ schema_tables (schema_of cfg hpo_id) db !! LOG_TABLE_NAME = Some log_table
    ∧ r ∈ tbl_rows log_table
    ∧ export_row hpo_id (map col_name (tbl_columns log_table)) r = Ok item.
Proof.
  revert items. induction ids as [|h ids IH]; simpl; intros items.
  - intros [= <-] Hin. by apply elem_of_nil in Hin.
  - destruct (schema_tables _ db !! LOG_TABLE_NAME) as [t|] eqn:Ht; [|done].
    destruct (export_rows h _ (tbl_rows t)) as [its|e] eqn:Hrows; [|done].
    destruct (export_sites cfg db ids) as [more|e]; [|done].
    intros [= <-] [Hin|Hin]%elem_of_app.
    + destruct (export_rows_elem _ _ _ _ _ Hrows Hin) as (r & ? & ?).
      exists h, t, r. repeat split; try done. apply elem_of_cons. by left.
    + destruct (IH _ eq_refl Hin) as (h' & t' & r & ? & ? & ? & ?).
      exists h', t', r. repeat split; try done. apply elem_of_cons. by right.
Qed.

Lemma export_sites_agree (cfg : Config) (db db' : Database) (ids : list string) :
  (∀ hpo_id, hpo_id ∈ ids →
     option_Forall2 tables_agree
       (schema_tables (schema_of cfg hpo_id) db !! LOG_TABLE_NAME)
       (schema_tables (schema_of cfg hpo_id) db' !! LOG_TABLE_NAME)) →
  export_sites cfg db' ids = export_sites cfg db ids.
Proof.
  induction ids as [|h ids IH]; simpl; intros Hall; [done|].
  rewrite IH by (intros h' Hh'; apply Hall, elem_of_cons; by right).
  assert (h ∈ h :: ids) as Hh by (apply elem_of_cons; by left).
  destruct (Hall h Hh) as [t t' [Hcols Hrows]|]; [|done].
  rewrite <- Hcols. by rewrite (export_rows_agree _ _ _ _ Hrows).
Qed.

Lemma export_row_entry (hpo_id : string) (e : LogEntry) :
  export_row hpo_id (map col_name log_columns) (entry_row e)
  = Ok (exported_record hpo_id e).
Proof.
  unfold export_row, dict, exported_record, entry_row. cbn [map log_columns col_name zip
    zip_with foldl fst snd list_to_map foldr].
  rewrite lookup_insert_eq.
  rewrite lookup_insert_ne by done. rewrite lookup_delete_ne by done.
  do 5 (rewrite lookup_insert_ne by done). rewrite lookup_insert_eq.
  apply (f_equal Ok). apply map_eq. intros k.
  repeat (rewrite ?lookup_insert, ?lookup_delete, ?lookup_empty; case_decide; subst;
          try done).
Qed.

Lemma export_rows_entries (hpo_id : string) (es : list LogEntry) :
  export_rows hpo_id (map col_name log_columns) (map entry_row es)
  = Ok (map (exported_record hpo_id) es).
Proof.
  induction es as [|e es IH]; [done|].
  cbn [map export_rows]. by rewrite export_row_entry, IH.
Qed.

Lemma export_sites_entries (cfg : Config) (db : Database) (ids : list string)
  (entries : string → list LogEntry) :
  (∀ hpo_id, hpo_id ∈ ids →
     schema_tables (schema_of cfg hpo_id) db !! LOG_TABLE_NAME
     = Some (mkTable log_columns (map entry_row (entries hpo_id)))) →
  export_sites cfg db ids
  = Ok (concat (map (λ hpo_id, map (exported_record hpo_id) (entries hpo_id)) ids)).
Proof.
  induction ids as [|h ids IH]; intros Hall; [done|].
  cbn [export_sites map concat].
  rewrite (Hall h) by (apply elem_of_cons; by left).
  cbn [tbl_columns tbl_rows]. rewrite export_rows_entries.
  rewrite IH by (intros h' Hh'; apply Hall, elem_of_cons; by right).
  done.
Qed.

(** C5. No record of the exported list has a [params] key, and each
    record is what the loop body makes of one row of the log table of one
    configured site. Two states of the log tables that differ only in the
    values under [params] export the same. When the log tables hold log
    entries in the layout [create_tables] gives them, the export is, site
    by site and row by row in reading order, the entry without [params],
    with the [hpo_id] of the site being read and with [log_id] as a
    string. *)
Theorem export_confidentiality (cfg : Config) (db : Database) :
  (∀ items, export_log cfg db = Ok items →
     ∀ item, item ∈ items →
       item !! "params" = None ∧
       ∃ hpo_id log_table r,
         hpo_id ∈ hpo_ids cfg
         ∧ schema_tables (schema_of cfg hpo_id) db !! LOG_TABLE_NAME = Some log_table
         ∧ r ∈ tbl_rows log_table
         ∧ export_row hpo_id (map col_name (tbl_columns log_table)) r = Ok item) ∧
  (∀ db', logs_agree cfg db db' → export_log cfg db' = export_log cfg db) ∧
  (∀ entries : string → list LogEntry,
     (∀ hpo_id, hpo_id ∈ hpo_ids cfg →
        schema_tables (schema_of cfg hpo_id) db !! LOG_TABLE_NAME
        = Some (mkTable log_columns (map entry_row (entries hpo_id)))) →
     export_log cfg db
     = Ok (concat (map (λ hpo_id, map (exported_record hpo_id) (entries hpo_id))
                       (hpo_ids cfg)))
     ∧ ∀ hpo_id e, exported_record hpo_id e !! "params" = None).
Proof.
  unfold export_log. split; [|split].
  - intros items Hitems item Hin.
    destruct (export_sites_elem _ _ _ _ _ Hitems Hin) as (h & t & r & Hh & Ht & Hr & Hrow).
    split; [by eapply export_row_no_params|]. eauto 10.
  - intros db' Hagree. by apply export_sites_agree.
  - intros entries Hall. split; [by apply export_sites_entries|].
    intros h e. unfold exported_record. cbn [list_to_map foldr fst snd].
    by repeat (rewrite lookup_insert_ne by done).
Qed.

(** ** The loader: one table *)

Arguments insert_row : simpl never.
Arguments file_map : simpl never.
Arguments csv_filename : simpl never.
Arguments received_phase : simpl never.
Arguments transform : simpl never.
Arguments frame_rows : simpl never.

Lemma logged_app (evs1 evs2 : list Event) :
  logged (evs1 ++ evs2) = logged evs1 ++ logged evs2.
Proof.
  induction evs1 as [|ev evs1 IH]; simpl; [done|].
  destruct ev; simpl; by rewrite ?IH.
Qed.

Lemma logged_inserts (name : string) (rows : list (list (string * Cell))) :
  logged (map (EvInsert name) rows) = [].
Proof. by induction rows. Qed.

Lemma insert_row_lookup (name : string) (kwargs : list (string * Cell)) (ns : Namespace) :
  insert_row name kwargs ns !! name
  = (λ t, mkTable (tbl_columns t)
                  (tbl_rows t ++ [map (λ c, kw_get (col_name c) kwargs) (tbl_columns t)]))
      <$> ns !! name.
Proof. unfold insert_row. apply lookup_alter_eq. Qed.

Lemma insert_row_lookup_ne (name other : string) (kwargs : list (string * Cell))
  (ns : Namespace) :
  name ≠ other → insert_row name kwargs ns !! other = ns !! other.
Proof. intros Hne. unfold insert_row. by apply lookup_alter_ne. Qed.

Lemma insert_rows_lookup_ne (name other : string) (rows : list (list (string * Cell)))
  (ns : Namespace) :
  name ≠ other →
  foldl (λ ns r, insert_row name r ns) ns rows !! other = ns !! other.
Proof.
  intros Hne. revert ns. induction rows as [|r rows IH]; intros ns; simpl; [done|].
  by rewrite IH, insert_row_lookup_ne.
Qed.

Lemma insert_rows_run (env : Env) (name : string) (rows : list (list (string * Cell)))
  (st : St) :
  insert_rows env name rows st
  = (mkSt (st_phase st)
          (mkWorld (foldl (λ ns r, insert_row name r ns) (tables (st_world st))
                          (accepted_rows env name rows))
                   (clock (st_world st))
                   (trace (st_world st) ++ map (EvInsert name) (attempted_rows env name rows))),
     load_result env name rows).
Proof.
  revert st. unfold load_result.
  induction rows as [|r rows IH]; intros [ph [ns c tr]]; simpl.
  - unfold ret. simpl. by rewrite app_nil_r.
  - unfold bind, emit, raise. simpl.
    destruct (insert_error env name r) as [e|]; simpl.
    + done.
    + rewrite IH. simpl. by rewrite <- app_assoc.
Qed.

Lemma to_sql_run (env : Env) (name : string) (df : DataFrame) (st : St) :
  to_sql env name df st
  = (mkSt (st_phase st)
          (mkWorld (foldl (λ ns r, insert_row name r ns) (tables (st_world st))
                          (stored_rows env name (frame_rows df)))
                   (clock (st_world st))
                   (trace (st_world st)
                      ++ map (EvInsert name) (attempted_rows env name (frame_rows df)))),
     load_result env name (frame_rows df)).
Proof.
  unfold to_sql, stored_rows. rewrite insert_rows_run. unfold load_result.
  destruct (first_error env name (frame_rows df)) as [e|]; [|done].
  by destruct (rollback_on_error env).
Qed.

Lemma attempted_rows_ok (env : Env) (name : string) (rows : list (list (string * Cell))) :
  first_error env name rows = None → attempted_rows env name rows = rows.
Proof.
  induction rows as [|r rows IH]; simpl; [done|].
  destruct (insert_error env name r); [done|]. intros H. by rewrite IH.
Qed.

Ltac solve_evolves :=
  split; [cbn; rewrite <- ?app_assoc; reflexivity|];
  split; [cbn; rewrite ?logged_app, ?logged_inserts; cbn; lia|];
  let rows := fresh "rows" in
  let Hrows := fresh "Hrows" in
  intros rows Hrows; cbn;
  repeat (rewrite insert_row_lookup || rewrite insert_rows_lookup_ne by done);
  rewrite Hrows; cbn;
  rewrite ?logged_app, ?logged_inserts; cbn;
  rewrite <- ?app_assoc; reflexivity.

(** Under [log_accepted] every log write goes through. *)
Ltac accept_log :=
  cbn;
  repeat (match goal with
          | H : ∀ kwargs, insert_error _ LOG_TABLE_NAME kwargs = None |- _ => rewrite !H
          end; cbn).

Ltac unfold_table :=
  unfold try_body, handler, fail, bind, set_phase, success_, write_log, emit, lift, raise.

Lemma process_table_run (cfg : Config) (env : Env) (hpo_id : string)
  (table_map : Namespace) (w : World) (tn : string) (tdf : list CdmRow) :
  log_accepted env →
  is_Some (table_map !! tn) → tn ≠ LOG_TABLE_NAME →
  ∃ w' seg,
    process_table cfg env hpo_id table_map w (tn, tdf) = (w', Ok tt)
    ∧ table_segment cfg env hpo_id tn tdf (clock w) (attempt cfg env hpo_id (tn, tdf)) seg
    ∧ evolves w w' seg.
Proof.
  intros Hacc [t Ht] Hne. unfold log_accepted in Hacc.
  unfold process_table, attempt. rewrite Ht.
  unfold_table. accept_log.
  destruct (file_map env !! csv_filename cfg hpo_id tn) as [path|] eqn:Hfm; accept_log.
  2:{ eexists _, _. split; [reflexivity|]. split; [by apply seg_not_found|].
      solve_evolves. }
  destruct (open_file env path) as [f|e] eqn:Hopen; accept_log.
  2:{ destruct e; accept_log; (eexists _, _; split; [reflexivity|];
        split; [by eapply seg_open_failed|solve_evolves]). }
  destruct (read_csv env f) as [df|e] eqn:Hread; accept_log.
  2:{ destruct e; accept_log; (eexists _, _; split; [reflexivity|];
        split; [by eapply seg_parse_failed|solve_evolves]). }
  destruct (transform (unique (map cdm_column_name tdf)) df) as [out|e] eqn:Htr; accept_log.
  2:{ destruct e; accept_log; (eexists _, _; split; [reflexivity|];
        split; [by eapply seg_transform_failed|solve_evolves]). }
  rewrite !to_sql_run. unfold load_result. accept_log.
  destruct (first_error env tn (frame_rows out)) as [e|] eqn:Hload; accept_log.
  - destruct e; accept_log; (eexists _, _; split; [reflexivity|];
      split; [by eapply seg_load_failed|solve_evolves]).
  - eexists _, _. split; [reflexivity|].
    split; [by eapply seg_loaded|].
    rewrite (attempted_rows_ok _ _ _ Hload). solve_evolves.
Qed.

(** ** The loader: the loop *)

Lemma evolves_trans (w1 w2 w3 : World) (evs1 evs2 : list Event) :
  evolves w1 w2 evs1 → evolves w2 w3 evs2 → evolves w1 w3 (evs1 ++ evs2).
Proof.
  intros (Ht1 & Hc1 & Hl1) (Ht2 & Hc2 & Hl2). repeat split.
  - by rewrite Ht2, Ht1, app_assoc.
  - rewrite Hc2, Hc1, logged_app, length_app. lia.
  - intros rows Hrows. rewrite (Hl2 _ (Hl1 _ Hrows)).
    by rewrite logged_app, map_app, app_assoc.
Qed.

Lemma process_tables_run (cfg : Config) (env : Env) (hpo_id : string)
  (table_map : Namespace) (ts : list (string * list CdmRow)) (w : World) :
  log_accepted env →
  (∀ t, t ∈ ts → is_Some (table_map !! t.1) ∧ t.1 ≠ LOG_TABLE_NAME) →
  ∃ w' segs,
    process_tables cfg env hpo_id table_map ts w = (w', Ok tt)
    ∧ segments cfg env hpo_id (clock w) ts segs
    ∧ evolves w w' (concat segs).
Proof.
  intros Hacc. revert w. induction ts as [|[tn tdf] ts IH]; intros w Hall.
  - exists w, []. split; [done|]. split; [constructor|].
    repeat split; simpl; rewrite ?app_nil_r; try done; try lia.
    intros rows ->. by rewrite app_nil_r.
  - destruct (Hall (tn, tdf)) as [Hsome Hne]; [apply elem_of_cons; by left|].
    destruct (process_table_run cfg env hpo_id table_map w tn tdf Hacc Hsome Hne)
      as (w1 & seg & Hrun & Hseg & Hev).
    destruct (IH w1) as (w' & segs & Hrun' & Hsegs & Hev').
    { intros t Ht. apply Hall, elem_of_cons. by right. }
    exists w', (seg :: segs). cbn [process_tables]. rewrite Hrun, Hrun'.
    split; [done|]. split.
    + constructor; [done|]. destruct Hev as (_ & <- & _). done.
    + simpl. by eapply evolves_trans.
Qed.

Lemma process_run (cfg : Config) (env : Env) (hpo_id : string) (w : World) :
  log_accepted env →
  ready cfg (tables w) →
  ∃ w' segs,
    process cfg env hpo_id w = (w', Ok tt)
    ∧ segments cfg env hpo_id (clock w) (in_scope_tables cfg) segs
    ∧ evolves w w' (EvGlob (csv_dir cfg ++ "/*.csv") :: concat segs).
Proof.
  intros Hacc [[rows Hlog] Htabs]. unfold process. rewrite Hlog.
  destruct (process_tables_run cfg env hpo_id (tables w) (in_scope_tables cfg)
              (mkWorld (tables w) (clock w)
                       (trace w ++ [EvGlob (csv_dir cfg ++ "/*.csv")])) Hacc Htabs)
    as (w' & segs & Hrun & Hsegs & Ht & Hc & Hl).
  exists w', segs. split; [done|]. split; [done|]. simpl in *.
  repeat split; simpl; try done.
  by rewrite Ht, <- app_assoc.
Qed.

(** A reset that goes through leaves the schema ready for [process]. *)
Lemma reset_tables_created (cfg : Config) (ns ns1 : Namespace) :
  create_tables cfg (drop_tables cfg ns) = Ok ns1 →
  ns1 !! LOG_TABLE_NAME = Some (mkTable log_columns []) ∧
  ∀ name, name ∈ pmi_tables cfg → name ∈ map cdm_table_name (cdm_csv cfg) →
    name ≠ LOG_TABLE_NAME ∧
    ∃ columns, table_columns cfg (catalog_lines cfg name) = Ok columns
               ∧ ns1 !! name = Some (mkTable columns []).
Proof.
  intros (md & Hmd & Hlog & ->)%create_tables_ok.
  assert (∀ name, known_table cfg name →
            create_all (md ++ [(LOG_TABLE_NAME, log_columns)]) (drop_tables cfg ns) !! name
            = (λ columns, mkTable columns [])
                <$> assoc name (md ++ [(LOG_TABLE_NAME, log_columns)])) as Hknown.
  { intros name Hk. by rewrite create_all_lookup, drop_tables_lookup, decide_True. }
  split.
  - rewrite Hknown by (by right). by rewrite assoc_app_notin.
  - intros name Hscope Hcat. pose proof Hmd as Hmd'.
    unfold groupby_table_name in Hmd.
    eapply (declare_tables_assoc _ _ _ _ name) in Hmd as (columns & Hcols & Hassoc);
      [|by rewrite elem_of_sorted, elem_of_unique].
    split.
    + intros ->. by apply assoc_Some_labels in Hassoc.
    + exists columns. split; [done|]. rewrite Hknown by (by left).
      by rewrite (assoc_app_Some _ _ _ _ Hassoc).
Qed.

Lemma in_scope_tables_elem (cfg : Config) (t : string * list CdmRow) :
  t ∈ in_scope_tables cfg →
  t.1 ∈ pmi_tables cfg ∧ t.1 ∈ map cdm_table_name (cdm_csv cfg).
Proof.
  unfold in_scope_tables, groupby_table_name.
  intros (k & -> & Hk)%list_elem_of_fmap. simpl.
  rewrite elem_of_sorted, elem_of_unique in Hk.
  apply list_elem_of_fmap in Hk as (r & -> & Hr).
  unfold isin_included in Hr. apply list_elem_of_filter in Hr as [Hscope Hr].
  split; [done|]. apply list_elem_of_fmap. eauto.
Qed.

Lemma reset_ready (cfg : Config) (ns ns1 : Namespace) :
  reset_tables cfg ns = (ns1, Ok tt) → ready cfg ns1.
Proof.
  unfold reset_tables.
  destruct (create_tables cfg (drop_tables cfg ns)) as [ns'|e] eqn:Hc; [|done].
  intros [= <-]. apply reset_tables_created in Hc as [Hlog Htabs].
  split; [eauto|]. intros t [Hscope Hcat]%in_scope_tables_elem.
  destruct (Htabs _ Hscope Hcat) as (Hne & columns & _ & Hl).
  split; [by rewrite Hl|done].
Qed.

(** ** The log entries of a table *)

Lemma failure_entry_fields (now : datetime) (tn ph : string) (e : PyExc) :
  log_id (failure_entry now tn ph e) = now
  ∧ table_name (failure_entry now tn ph e) = tn
  ∧ phase (failure_entry now tn ph e) = ph
  ∧ success (failure_entry now tn ph e) = false
  ∧ message (failure_entry now tn ph e) = Some (exc_message e).
Proof. by destruct e. Qed.

Lemma or_None_not_empty (p : option string) : or_None p ≠ Some "".
Proof. destruct p as [[|c s]|]; done. Qed.

Lemma failure_entry_params (now : datetime) (tn ph : string) (e : PyExc) :
  params (failure_entry now tn ph e) ≠ Some "" ∧
  params (failure_entry now tn ph e)
  = match e with
    | StatementError _ p => or_None (Some (str_params p))
    | _ => None
    end.
Proof.
  destruct e; try done. split; [|done]. cbn [failure_entry params].
  apply or_None_not_empty.
Qed.

(** The log entries of a segment, in order. *)
Lemma segment_logged (cfg : Config) (env : Env) (hpo_id tn : string) (tdf : list CdmRow)
  (c : nat) (r : result unit) (seg : list Event) :
  table_segment cfg env hpo_id tn tdf c r seg →
  let rp := received_phase (csv_filename cfg hpo_id tn) in
  match r with
  | Raise e =>
      logged seg = [failure_entry (utcnow env c) tn rp e]
      ∨ (∃ ph, ph ∈ [rp; PARSING] ∧
           logged seg = [success_entry (utcnow env c) tn rp;
                         failure_entry (utcnow env (S c)) tn ph e])
      ∨ (∃ ph, ph ∈ [PARSING; LOADING] ∧
           logged seg = [success_entry (utcnow env c) tn rp;
                         success_entry (utcnow env (S c)) tn PARSING;
                         failure_entry (utcnow env (S (S c))) tn ph e])
  | Ok _ =>
      logged seg = [success_entry (utcnow env c) tn rp;
                    success_entry (utcnow env (S c)) tn PARSING;
                    success_entry (utcnow env (S (S c))) tn LOADING]
  end.
Proof.
  intros Hseg rp. destruct Hseg; subst rp; simpl;
    rewrite ?logged_app, ?logged_inserts; simpl.
  - by left.
  - right; left. eexists. split; [|done]. set_solver.
  - right; left. eexists. split; [|done]. set_solver.
  - right; right. eexists. split; [|done]. set_solver.
  - right; right. eexists. split; [|done]. set_solver.
  - done.
Qed.



Lemma segments_elem (cfg : Config) (env : Env) (hpo_id : string) (c : nat)
  (ts : list (string * list CdmRow)) (segs : list (list Event)) (t : string * list CdmRow) :
  segments cfg env hpo_id c ts segs → t ∈ ts →
  ∃ c' seg, seg ∈ segs ∧ table_segment cfg env hpo_id t.1 t.2 c' (attempt cfg env hpo_id t) seg.
Proof.
  induction 1 as [c|c t' ts seg segs Hseg Hsegs IH]; intros Hin.
  - by apply elem_of_nil in Hin.
  - apply elem_of_cons in Hin as [->|Hin].
    + exists c, seg. split; [apply elem_of_cons; by left|done].
    + destruct (IH Hin) as (c' & seg' & ? & ?).
      exists c', seg'. split; [apply elem_of_cons; by right|done].
Qed.

Lemma logged_concat_elem (segs : list (list Event)) (seg : list Event) (e : LogEntry) :
  seg ∈ segs → e ∈ logged seg → e ∈ logged (concat segs).
Proof.
  induction segs as [|s segs IH]; intros Hin He.
  - by apply elem_of_nil in Hin.
  - simpl. rewrite logged_app, elem_of_app.
    apply elem_of_cons in Hin as [->|Hin]; [by left|right; by apply IH].
Qed.

Lemma logged_concat_inv (segs : list (list Event)) (e : LogEntry) :
  e ∈ logged (concat segs) → ∃ seg, seg ∈ segs ∧ e ∈ logged seg.
Proof.
  induction segs as [|s segs IH]; simpl; intros He.
  - by apply elem_of_nil in He.
  - rewrite logged_app, elem_of_app in He. destruct He as [He|He].
    + exists s. split; [apply elem_of_cons; by left|done].
    + destruct (IH He) as (seg & ? & ?).
      exists seg. split; [apply elem_of_cons; by right|done].
Qed.


(** The outcome of a table on its own decides what its segment logs: a
    failure entry with the message of the exception, or the success entry
    of the load. *)
Lemma segment_outcome (cfg : Config) (env : Env) (hpo_id tn : string) (tdf : list CdmRow)
  (c : nat) (r : result unit) (seg : list Event) :
  table_segment cfg env hpo_id tn tdf c r seg →
  match r with
  | Raise e => ∃ entry, entry ∈ logged seg ∧ table_name entry = tn
                        ∧ success entry = false ∧ message entry = Some (exc_message e)
  | Ok _ => ∃ entry, entry ∈ logged seg ∧ table_name entry = tn
                     ∧ success entry = true ∧ phase entry = LOADING
  end.
Proof.
  intros Hseg%segment_logged. simpl in Hseg. destruct r as [[]|e].
  - rewrite Hseg. exists (success_entry (utcnow env (S (S c))) tn LOADING).
    split; [set_solver|done].
  - assert (∀ now ph, table_name (failure_entry now tn ph e) = tn
                      ∧ success (failure_entry now tn ph e) = false
                      ∧ message (failure_entry now tn ph e) = Some (exc_message e)) as Hf.
    { intros now ph. by destruct (failure_entry_fields now tn ph e) as (_ & ? & _ & ? & ?). }
    destruct Hseg as [->|[(ph & _ & ->)|(ph & _ & ->)]].
    + eexists. split; [apply list_elem_of_singleton; reflexivity|apply Hf].
    + eexists. split; [do 1 apply list_elem_of_further; apply list_elem_of_here|apply Hf].
    + eexists. split; [do 2 apply list_elem_of_further; apply list_elem_of_here|apply Hf].
Qed.

(** ** The shape of a segment *)

Lemma current_phase_app (cur : option string) (evs1 evs2 : list Event) :
  current_phase cur (evs1 ++ evs2) = current_phase (current_phase cur evs1) evs2.
Proof.
  revert cur. induction evs1 as [|ev evs1 IH]; intros cur; simpl; [done|].
  by destruct ev.
Qed.







(** ** The loader: the properties of the log *)

Lemma evolves_log_rows (w w' : World) (evs : list Event) :
  (∃ rows, tables w !! LOG_TABLE_NAME = Some (mkTable log_columns rows)) →
  evolves w w' evs →
  log_rows (tables w') = log_rows (tables w) ++ map entry_row (logged evs).
Proof.
  intros [rows Hrows] (_ & _ & Hl). unfold log_rows.
  by rewrite (Hl _ Hrows), Hrows.
Qed.

Lemma segment_entry_nullness (cfg : Config) (env : Env) (hpo_id tn : string)
  (tdf : list CdmRow) (c : nat) (r : result unit) (seg : list Event) (e : LogEntry) :
  table_segment cfg env hpo_id tn tdf c r seg → e ∈ logged seg →
  (success e = true → message e = None ∧ params e = None) ∧
  (success e = false → (∃ m, message e = Some m) ∧ params e ≠ Some "").
Proof.
  intros Hseg%segment_logged He. simpl in Hseg.
  assert (∀ now ph exc,
            (success (failure_entry now tn ph exc) = true →
             message (failure_entry now tn ph exc) = None
             ∧ params (failure_entry now tn ph exc) = None) ∧
            (success (failure_entry now tn ph exc) = false →
             (∃ m, message (failure_entry now tn ph exc) = Some m)
             ∧ params (failure_entry now tn ph exc) ≠ Some "")) as Hf.
  { intros now ph exc.
    destruct (failure_entry_fields now tn ph exc) as (_ & _ & _ & Hs & Hm).
    rewrite Hs, Hm. split; [done|]. intros _. split; [eauto|].
    apply failure_entry_params. }
  destruct r as [[]|exc].
  - rewrite Hseg in He. set_unfold in He.
    destruct He as [->|[->|[->|[]]]]; (split; [done|by intros [=]]).
  - destruct Hseg as [Hl|[(ph & _ & Hl)|(ph & _ & Hl)]]; rewrite Hl in He;
      set_unfold in He.
    + destruct He as [->|[]]. apply Hf.
    + destruct He as [->|[->|[]]]; [split; [done|by intros [=]]|apply Hf].
    + destruct He as [->|[->|[->|[]]]];
        [split; [done|by intros [=]]|split; [done|by intros [=]]|apply Hf].
Qed.

Lemma create_tables_always (cfg : Config) (ns : Namespace) :
  is_ok (create_tables cfg ∅) = true → ∃ ns', create_tables cfg ns = Ok ns'.
Proof.
  intros Hok. destruct (create_tables cfg ns) as [ns'|e] eqn:Hc; [eauto|].
  apply (create_tables_raise_any _ _ ∅) in Hc. by rewrite Hc in Hok.
Qed.

Lemma main_site_ok (cfg : Config) (env : Env) (hpo_id : string) (s : Sys) :
  log_accepted env →
  is_ok (create_tables cfg ∅) = true →
  ∃ s', main_site cfg env hpo_id s = (s', Ok tt).
Proof.
  intros Hacc Hok. unfold main_site.
  set (db := if use_multi_schemas cfg then _ else _).
  destruct (reset_tables cfg (schema_tables (schema_of cfg hpo_id) db))
    as [ns r] eqn:Hreset.
  assert (r = Ok tt) as ->.
  { revert Hreset. unfold reset_tables.
    destruct (create_tables_always cfg
                (drop_tables cfg (schema_tables (schema_of cfg hpo_id) db)) Hok)
      as [ns' ->]. by intros [= _ <-]. }
  apply reset_ready in Hreset.
  destruct (process_run cfg env hpo_id
              (mkWorld ns (sys_clock s)
                 (sys_trace s ++ [EvPrint ("Processing " ++ hpo_id ++ "...")])) Hacc Hreset)
    as (w' & segs & -> & _). eauto.
Qed.

Lemma main_loop_ok (cfg : Config) (env : Env) (ids : list string) (s : Sys) :
  log_accepted env →
  is_ok (create_tables cfg ∅) = true →
  ∃ s', main_loop cfg env ids s = (s', Ok tt).
Proof.
  intros Hacc Hok. revert s. induction ids as [|h ids IH]; intros s; simpl; [eauto|].
  destruct (main_site_ok cfg env h s Hacc Hok) as [s' ->]. apply IH.
Qed.

(** ** What a run keeps, whatever the database refuses *)

(** A relation between the world before and the world after that every
    step of one table's iteration respects is respected by the whole
    iteration, however it ends. *)
Section Invariant.
Context (cfg : Config) (env : Env) (hpo_id tn : string) (R : World → World → Prop).
Hypothesis R_refl : ∀ w, R w w.
Hypothesis R_trans : ∀ w1 w2 w3, R w1 w2 → R w2 w3 → R w1 w3.
Hypothesis R_event :
  ∀ w c ev, logged [ev] = [] → R w (mkWorld (tables w) c (trace w ++ [ev])).
Hypothesis R_success :
  ∀ w c now ph,
    R w (mkWorld (insert_row LOG_TABLE_NAME (success_kwargs (success_entry now tn ph))
                             (tables w))
                 c (trace w ++ [EvLog (success_entry now tn ph)])).
Hypothesis R_failure :
  ∀ w c now ph exc,
    R w (mkWorld (insert_row LOG_TABLE_NAME (fail_kwargs (failure_entry now tn ph exc))
                             (tables w))
                 c (trace w ++ [EvLog (failure_entry now tn ph exc)])).
Hypothesis R_load :
  ∀ w stored attempted,
    R w (mkWorld (foldl (λ ns r, insert_row tn r ns) (tables w) stored)
                 (clock w) (trace w ++ map (EvInsert tn) attempted)).

#[local] Notation respects := (respects R).

Lemma respects_bind {A B} (m : M A) (f : A → M B) :
  respects m → (∀ a, respects (f a)) → respects (bind m f).
Proof.
  intros Hm Hf st. unfold bind. specialize (Hm st).
  destruct (m st) as [st' [a|e]]; simpl in *; [|done].
  eapply R_trans; [exact Hm|apply Hf].
Qed.

Lemma respects_raise {A} (e : PyExc) : respects (@raise A e).
Proof. intros st. apply R_refl. Qed.

Lemma respects_lift {A} (r : result A) : respects (lift r).
Proof. intros st. apply R_refl. Qed.

Lemma respects_set_phase (p : string) : respects (set_phase p).
Proof. intros [ph w]. simpl. by apply R_event. Qed.

Lemma respects_emit (ev : Event) : logged [ev] = [] → respects (emit ev).
Proof. intros Hev [ph w]. simpl. by apply R_event. Qed.

Lemma respects_success : respects (success_ env tn).
Proof.
  intros [ph w]. unfold success_, write_log. simpl.
  destruct (insert_error env LOG_TABLE_NAME _); simpl; [by apply R_event|].
  apply R_success.
Qed.

Lemma respects_handler (e : PyExc) : respects (handler env tn e).
Proof.
  intros [ph w].
  pose proof (R_failure w (S (clock w)) (utcnow env (clock w)) ph e) as Hf.
  destruct e; unfold handler, fail, write_log; simpl in *;
    (destruct (insert_error env LOG_TABLE_NAME _); simpl; [by apply R_event|exact Hf]).
Qed.

Lemma respects_to_sql (df : DataFrame) : respects (to_sql env tn df).
Proof. intros st. rewrite to_sql_run. simpl. apply R_load. Qed.

Lemma respects_try_body (tdf : list CdmRow) : respects (try_body cfg env hpo_id tn tdf).
Proof.
  unfold try_body.
  destruct (file_map env !! csv_filename cfg hpo_id tn) as [path|];
    [|apply respects_raise].
  repeat (apply respects_bind; [|intros ?]);
    first [ apply respects_success | by apply respects_emit | apply respects_lift
          | apply respects_set_phase | apply respects_to_sql ].
Qed.

Lemma process_table_respects (table_map : Namespace) (w : World) (tdf : list CdmRow) :
  R w (process_table cfg env hpo_id table_map w (tn, tdf)).1.
Proof.
  unfold process_table. destruct (table_map !! tn) as [t|]; [|apply R_refl].
  assert (respects (bind (set_phase (received_phase (csv_filename cfg hpo_id tn)))
                         (λ _, try_body cfg env hpo_id tn tdf))) as Hb.
  { apply respects_bind; [apply respects_set_phase|intros _; apply respects_try_body]. }
  specialize (Hb (mkSt "" w)). simpl in Hb.
  destruct (bind _ _ (mkSt "" w)) as [st' [u|e]]; simpl in *; [done|].
  pose proof (respects_handler e st') as Hh.
  destruct (handler env tn e st') as [st'' r]. simpl in *. by eapply R_trans.
Qed.

End Invariant.

(** The tables only grow. *)
Lemma grows_refl (ns : Namespace) : grows ns ns.
Proof.
  intros name. destruct (ns !! name) as [t|]; constructor.
  split; [done|]. exists []. by rewrite app_nil_r.
Qed.

Lemma grows_trans (ns1 ns2 ns3 : Namespace) :
  grows ns1 ns2 → grows ns2 ns3 → grows ns1 ns3.
Proof.
  intros H12 H23 name. specialize (H12 name). specialize (H23 name).
  destruct H12 as [t1 t2 [Hc12 [m12 Hr12]]|]; inversion H23 as [? t3 [Hc23 [m23 Hr23]]|];
    subst; constructor.
  split; [congruence|]. exists (m12 ++ m23). by rewrite Hr23, Hr12, app_assoc.
Qed.

Lemma grows_insert_row (name : string) (kwargs : list (string * Cell)) (ns : Namespace) :
  grows ns (insert_row name kwargs ns).
Proof.
  intros n. destruct (decide (name = n)) as [->|Hne].
  - rewrite insert_row_lookup. destruct (ns !! n) as [t|]; constructor.
    simpl. split; [done|]. eauto.
  - rewrite insert_row_lookup_ne by done. apply grows_refl.
Qed.

Lemma grows_insert_rows (name : string) (rows : list (list (string * Cell)))
  (ns : Namespace) :
  grows ns (foldl (λ ns r, insert_row name r ns) ns rows).
Proof.
  revert ns. induction rows as [|r rows IH]; intros ns; simpl; [apply grows_refl|].
  eapply grows_trans; [apply grows_insert_row|apply IH].
Qed.

Lemma process_table_tables (cfg : Config) (env : Env) (hpo_id : string)
  (table_map : Namespace) (w : World) (t : string * list CdmRow) :
  grows (tables w) (tables (process_table cfg env hpo_id table_map w t).1)
  ∧ ∀ n, t.1 ≠ n → LOG_TABLE_NAME ≠ n →
         tables (process_table cfg env hpo_id table_map w t).1 !! n = tables w !! n.
Proof.
  destruct t as [tn tdf].
  apply (process_table_respects cfg env hpo_id tn
           (λ w w', grows (tables w) (tables w')
                    ∧ ∀ n, tn ≠ n → LOG_TABLE_NAME ≠ n → tables w' !! n = tables w !! n)).
  - intros w0. split; [apply grows_refl|done].
  - intros w1 w2 w3 [Hg Hf] [Hg' Hf']. split; [by eapply grows_trans|].
    intros n Hn Hl. rewrite Hf' by done. by apply Hf.
  - intros w0 c ev _. split; [apply grows_refl|done].
  - intros w0 c now ph. simpl. split; [apply grows_insert_row|].
    intros n Hn Hl. by rewrite insert_row_lookup_ne.
  - intros w0 c now ph exc. simpl. split; [apply grows_insert_row|].
    intros n Hn Hl. by rewrite insert_row_lookup_ne.
  - intros w0 stored attempted. simpl. split; [apply grows_insert_rows|].
    intros n Hn Hl. by rewrite insert_rows_lookup_ne.
Qed.








(** When the database refuses no log row and the schema is as the reset
    leaves it, [process] goes through all the in-scope tables and returns
    normally, whatever happens to each. Every table leaves in the log
    table what it would leave on its own: when its [try] raises, at
    whatever phase (file not found, open or parse error, a refused row), a
    failure entry under its name with the message of the exception; when
    its [try] goes through, the success entry of its load. So the tables
    after a failing one are attempted and succeed when they can. *)
Theorem fail_isolation (cfg : Config) (env : Env) (hpo_id : string) (w : World) :
  log_accepted env →
  ready cfg (tables w) →
  ∃ w' es,
    process cfg env hpo_id w = (w', Ok tt)
    ∧ log_rows (tables w') = log_rows (tables w) ++ map entry_row es
    ∧ ∀ t, t ∈ in_scope_tables cfg →
        match attempt cfg env hpo_id t with
        | Raise e => ∃ entry, entry ∈ es ∧ table_name entry = t.1
                              ∧ success entry = false
                              ∧ message entry = Some (exc_message e)
        | Ok _ => ∃ entry, entry ∈ es ∧ table_name entry = t.1
                           ∧ success entry = true ∧ phase entry = LOADING
        end.
Proof.
  intros Hacc Hready.
  destruct (process_run cfg env hpo_id w Hacc Hready) as (w' & segs & Hrun & Hsegs & Hev).
  exists w', (logged (concat segs)). split; [done|]. split.
  { by rewrite (evolves_log_rows _ _ _ (proj1 Hready) Hev). }
  intros t Ht.
  destruct (segments_elem _ _ _ _ _ _ _ Hsegs Ht) as (c' & seg & Hin & Hseg).
  apply segment_outcome in Hseg.
  destruct (attempt cfg env hpo_id t) as [[]|e];
    destruct Hseg as (entry & He & ?); exists entry;
    (split; [by eapply logged_concat_elem|done]).
Qed.



(** ** The worked example *)

Lemma ex_world_ready : ready ex_cfg (tables ex_world).
Proof. apply (reset_ready ex_cfg ex_ns). by vm_compute. Qed.


(** In the example the observations fail at their second row and the
    persons, which come after them, are loaded. *)
Example ex_attempts :
  attempt ex_cfg ex_env "nyc" ("observation", catalog_lines ex_cfg "observation")
  = Raise (StatementError "NOT NULL constraint failed"
             (ParamsObj "{'observation_id': None}"))
  ∧ attempt ex_cfg ex_env "nyc" ("person", catalog_lines ex_cfg "person") = Ok tt
  ∧ map (λ e, (table_name e, success e))
        (logged (trace (process ex_cfg ex_env "nyc" ex_world).1))
    = [ ("observation", true); ("observation", true); ("observation", false);
        ("person", true); ("person", true); ("person", true) ].
Proof. by vm_compute. Qed.

Lemma ex_log_accepted : log_accepted ex_env.
Proof. intros kwargs. reflexivity. Qed.

Lemma fail_isolation_witness :
  log_accepted ex_env ∧
  ready ex_cfg (tables ex_world) ∧
  ∃ w' es,
    process ex_cfg ex_env "nyc" ex_world = (w', Ok tt)
    ∧ log_rows (tables w') = log_rows (tables ex_world) ++ map entry_row es
    ∧ ∀ t, t ∈ in_scope_tables ex_cfg →
        match attempt ex_cfg ex_env "nyc" t with
        | Raise e => ∃ entry, entry ∈ es ∧ table_name entry = t.1
                              ∧ success entry = false
                              ∧ message entry = Some (exc_message e)
        | Ok _ => ∃ entry, entry ∈ es ∧ table_name entry = t.1
                           ∧ success entry = true ∧ phase entry = LOADING
        end.
Proof.
  assert (log_accepted ex_env) as Hacc by (intros kwargs; reflexivity).
  assert (ready ex_cfg (tables ex_world)) as Hready.
  { apply (reset_ready ex_cfg ex_ns). vm_compute. reflexivity. }
  split; [exact Hacc|]. split; [exact Hready|].
  exact (fail_isolation ex_cfg ex_env "nyc" ex_world Hacc Hready).
Defined.




(** C1 at a note of 900 characters, on a database that enforces the
    lengths of its columns. The note is refused, and the error carries the
    row, text included, as its parameters; their rendering does not fit
    the 800 characters of [params], so the database refuses the failure
    entry too, inside the [except] clause, where nothing catches the
    error. It leaves [process] and [main]: the log holds the two successes
    of the notes and no failure entry, the persons (whose file is there,
    and who load when taken on their own) are never attempted, and the
    second site is never started. *)
Theorem refused_failure_entry_aborts :
  in_scope_tables ex_cfg_notes
  = [ ("note", catalog_lines ex_cfg_notes "note");
      ("person", catalog_lines ex_cfg_notes "person") ]
  ∧ (process ex_cfg_notes ex_env_strict "nyc"
       (mkWorld (reset_tables ex_cfg_notes ∅).1 0 [])).2
    = Raise (StatementError "value too long for type character varying(800)"
               (ParamsObj "{'params': '...'}"))
  ∧ map (λ e, (table_name e, phase e, success e))
        (logged (trace (process ex_cfg_notes ex_env_strict "nyc"
                          (mkWorld (reset_tables ex_cfg_notes ∅).1 0 [])).1))
    = [ ("note", received_phase "nyc_note_datasprint_5.csv", true);
        ("note", PARSING, true) ]
  ∧ map (λ e, (table_name e, phase e, success e,
               bool_decide (message e
                            = Some "value too long for type character varying(500)")))
        (omap (λ ev, match ev with EvRefused e => Some e | _ => None end)
              (trace (process ex_cfg_notes ex_env_strict "nyc"
                        (mkWorld (reset_tables ex_cfg_notes ∅).1 0 [])).1))
    = [ ("note", LOADING, false, true) ]
  ∧ file_map ex_env_strict !! csv_filename ex_cfg_notes "nyc" "person"
    = Some "/data/nyc_person_datasprint_5.csv"
  ∧ attempt ex_cfg_notes ex_env_strict "nyc" ("person", catalog_lines ex_cfg_notes "person")
    = Ok tt
  ∧ omap (λ ev, match ev with EvOpen path => Some path | _ => None end)
         (trace (process ex_cfg_notes ex_env_strict "nyc"
                   (mkWorld (reset_tables ex_cfg_notes ∅).1 0 [])).1)
    = [ "/data/nyc_note_datasprint_5.csv" ]
  ∧ (main ex_cfg_notes ex_env_strict (mkSys (mkDatabase ∅ ∅) 0 [])).2
    = Raise (StatementError "value too long for type character varying(800)"
               (ParamsObj "{'params': '...'}"))
  ∧ omap (λ ev, match ev with EvPrint text => Some text | _ => None end)
         (sys_trace (main ex_cfg_notes ex_env_strict (mkSys (mkDatabase ∅ ∅) 0 [])).1)
    = [ "Processing nyc..." ].
Proof. by vm_compute. Qed.

Lemma reset_frame_witness :
  ex_ns !! "notes" = Some ex_unrelated ∧
  ¬ known_table ex_cfg "notes" ∧
  drop_tables ex_cfg ex_ns !! "notes" = Some ex_unrelated ∧
  (reset_tables ex_cfg ex_ns).1 !! "notes" = Some ex_unrelated.
Proof.
  assert (ex_ns !! "notes" = Some ex_unrelated) as Hn by (vm_compute; reflexivity).
  assert (¬ known_table ex_cfg "notes") as Hk.
  { apply (bool_decide_unpack _). vm_compute. exact I. }
  split; [exact Hn|]. split; [exact Hk|].
  exact (proj2 (reset_frame ex_cfg ex_ns "notes" ex_unrelated Hn) Hk).
Defined.

Lemma reset_idempotent_witness :
  (reset_tables ex_cfg ex_ns).2 = Ok tt ∧
  "person" ∈ pmi_tables ex_cfg ∧
  "person" ∈ map cdm_table_name (cdm_csv ex_cfg) ∧
  reset_tables ex_cfg (reset_tables ex_cfg ex_ns).1 = reset_tables ex_cfg ex_ns ∧
  (reset_tables ex_cfg ex_ns).1 !! LOG_TABLE_NAME = Some (mkTable log_columns []) ∧
  ∃ columns, catalog_layout ex_cfg (catalog_lines ex_cfg "person") columns
             ∧ (NoDup (map cdm_column_name (catalog_lines ex_cfg "person")) →
                Forall2 (line_layout ex_cfg) (catalog_lines ex_cfg "person") columns)
             ∧ (reset_tables ex_cfg ex_ns).1 !! "person" = Some (mkTable columns []).
Proof.
  assert ((reset_tables ex_cfg ex_ns).2 = Ok tt) as Hok by (vm_compute; reflexivity).
  assert ("person" ∈ pmi_tables ex_cfg) as Hscope.
  { apply (bool_decide_unpack _). vm_compute. exact I. }
  assert ("person" ∈ map cdm_table_name (cdm_csv ex_cfg)) as Hcat.
  { apply (bool_decide_unpack _). vm_compute. exact I. }
  split; [exact Hok|]. split; [exact Hscope|]. split; [exact Hcat|].
  split; [exact (proj1 (reset_idempotent ex_cfg ex_ns))|].
  split; [exact (proj1 (proj2 (reset_idempotent ex_cfg ex_ns) Hok))|].
  exact (proj2 (proj2 (reset_idempotent ex_cfg ex_ns) Hok) "person" Hscope Hcat).
Defined.

Lemma unrecognized_type_fatal_witness :
  hpo_ids ex_cfg_bad = "nyc" :: ["pitt"] ∧
  (∃ r, r ∈ cdm_csv ex_cfg_bad ∧ (cdm_data_type r ∉ recognized_types)) ∧
  ∃ s' r, r ∈ cdm_csv ex_cfg_bad ∧ (cdm_data_type r ∉ recognized_types)
    ∧ main ex_cfg_bad ex_env (mkSys (mkDatabase ∅ ∅) 0 [])
      = (s', Raise (unexpected_data_type (cdm_data_type r)))
    ∧ sys_trace s' = [] ++ [EvPrint ("Processing " ++ "nyc" ++ "...")]
    ∧ sys_clock s' = 0.
Proof.
  assert (∃ r, r ∈ cdm_csv ex_cfg_bad ∧ (cdm_data_type r ∉ recognized_types)) as Hbad.
  { exists (mkCdmRow "person" "birth_datetime" "yes" "timestamp" "").
    split; [apply list_elem_of_further, list_elem_of_here|].
    apply (bool_decide_unpack _). vm_compute. exact I. }
  split; [reflexivity|]. split; [exact Hbad|].
  exact (proj2 (proj2 (proj2 (unrecognized_type_fatal ex_cfg_bad))) ex_env
           (mkSys (mkDatabase ∅ ∅) 0 []) "nyc" ["pitt"] eq_refl Hbad).
Defined.

Example column_reindexing_example :
  reindex ["a"; "b"; "c"] (rename PyStr.lower ex_source)
  = Ok (mkDF 1 [ ("a", [Some (VInt 1)]); ("b", [Some (VInt 2)]); ("c", [None]) ]).
Proof. by vm_compute. Qed.

Lemma column_reindexing_witness :
  NoDup (map PyStr.lower (labels ex_source)) ∧
  transform ["a"; "b"; "c"] ex_source
  = Ok (mkDF 1 [("a", [Some (VInt 1)]); ("b", [Some (VInt 2)]); ("c", [None])]) ∧
  (∃ out, transform ["a"; "b"; "c"] ex_source = Ok out) ∧
  labels (mkDF 1 [("a", [Some (VInt 1)]); ("b", [Some (VInt 2)]); ("c", [None])])
  = ["a"; "b"; "c"].
Proof.
  assert (NoDup (map PyStr.lower (labels ex_source))) as Hnd.
  { apply (bool_decide_unpack _). vm_compute. exact I. }
  assert (transform ["a"; "b"; "c"] ex_source
          = Ok (mkDF 1 [("a", [Some (VInt 1)]); ("b", [Some (VInt 2)]); ("c", [None])]))
    as Ht by (vm_compute; reflexivity).
  split; [exact Hnd|]. split; [exact Ht|].
  split; [exact (proj1 (column_reindexing ["a"; "b"; "c"] ex_source) Hnd)|].
  exact (proj1 (proj2 (column_reindexing ["a"; "b"; "c"] ex_source) _ Ht)).
Defined.

(** C3, as the claim states it, fails: a target column the source lacks
    comes out all 0, not all null, when it is a concept column. *)
Lemma absent_column_null_counterexample :
  transform ["person_id"; "gender_concept_id"] ex_persons
  = Ok (mkDF 1 [("person_id", [Some (VInt 1)]); ("gender_concept_id", [Some (VInt 0)])])
  ∧ ("gender_concept_id" ∉ map PyStr.lower (labels ex_persons))
  ∧ ¬ (∀ column_names df out c s,
         transform column_names df = Ok out →
         c ∈ column_names →
         c ∉ map PyStr.lower (labels df) →
         assoc c (df_columns out) = Some s →
         ∀ x, x ∈ s → x = None).
Proof.
  assert ("gender_concept_id" ∉ map PyStr.lower (labels ex_persons)) as Habs.
  { apply (bool_decide_unpack _). vm_compute. exact I. }
  split; [by vm_compute|]. split; [exact Habs|].
  intros H.
  pose proof (H ["person_id"; "gender_concept_id"] ex_persons
                (mkDF 1 [("person_id", [Some (VInt 1)]);
                         ("gender_concept_id", [Some (VInt 0)])])
                "gender_concept_id" [Some (VInt 0)]
                ltac:(by vm_compute)
                ltac:(apply list_elem_of_further, list_elem_of_here)
                Habs ltac:(by vm_compute)
                (Some (VInt 0)) ltac:(apply list_elem_of_here)) as Hnull.
  discriminate Hnull.
Qed.

Lemma concept_id_null_coercion_witness :
  transform ex_columns ex_observations = Ok ex_transformed ∧
  ∃ re, reindex ex_columns (rename PyStr.lower ex_observations) = Ok re ∧
    ∀ c, c ∈ ex_columns →
      ∃ s0, assoc c (df_columns re) = Some s0 ∧
        (PyStr.endswith "concept_id" c = true → PyStr.contains "source" c = false →
           assoc c (df_columns ex_transformed) = Some (map (fill (VInt 0)) s0)
           ∧ (∀ x, x ∈ map (fill (VInt 0)) s0 → x ≠ None)
           ∧ (∀ i, s0 !! i = Some None → map (fill (VInt 0)) s0 !! i = Some (Some (VInt 0)))
           ∧ (∀ i v, s0 !! i = Some (Some v) → map (fill (VInt 0)) s0 !! i = Some (Some v))) ∧
        (PyStr.contains "source" c = true → assoc c (df_columns ex_transformed) = Some s0) ∧
        (PyStr.endswith "concept_id" c = false →
           assoc c (df_columns ex_transformed) = Some s0).
Proof.
  assert (transform ex_columns ex_observations = Ok ex_transformed) as Ht
    by (vm_compute; reflexivity).
  split; [exact Ht|].
  exact (concept_id_null_coercion ex_columns ex_observations ex_transformed Ht).
Defined.

(** C2, as the claim states it, fails: a target column the catalog spells
    in capitals has a lowercased name that ends with [concept_id] and does
    not contain [source], and its null stays null. *)
Lemma concept_id_lowercased_counterexample :
  transform ["CONDITION_CONCEPT_ID"] (mkDF 1 [("condition_concept_id", [None])])
  = Ok (mkDF 1 [("CONDITION_CONCEPT_ID", [None])])
  ∧ PyStr.endswith "concept_id" (PyStr.lower "CONDITION_CONCEPT_ID") = true
  ∧ PyStr.contains "source" (PyStr.lower "CONDITION_CONCEPT_ID") = false
  ∧ ¬ (∀ column_names df out c s,
         transform column_names df = Ok out →
         c ∈ column_names →
         PyStr.endswith "concept_id" (PyStr.lower c) = true →
         PyStr.contains "source" (PyStr.lower c) = false →
         assoc c (df_columns out) = Some s →
         ∀ x, x ∈ s → x ≠ None).
Proof.
  split; [by vm_compute|]. split; [by vm_compute|]. split; [by vm_compute|].
  intros H.
  apply (H ["CONDITION_CONCEPT_ID"] (mkDF 1 [("condition_concept_id", [None])])
           (mkDF 1 [("CONDITION_CONCEPT_ID", [None])]) "CONDITION_CONCEPT_ID" [None]
           ltac:(by vm_compute) ltac:(apply list_elem_of_here)
           ltac:(by vm_compute) ltac:(by vm_compute) ltac:(by vm_compute)
           None ltac:(apply list_elem_of_here) eq_refl).
Qed.

Lemma export_confidentiality_witness :
  (∀ hpo_id, hpo_id ∈ hpo_ids ex_cfg →
     schema_tables (schema_of ex_cfg hpo_id) ex_db !! LOG_TABLE_NAME
     = Some (mkTable log_columns
               (map entry_row (if String.eqb hpo_id "nyc" then [ex_entry] else [])))) ∧
  export_log ex_cfg ex_db
  = Ok (concat (map (λ hpo_id,
                       map (exported_record hpo_id)
                           (if String.eqb hpo_id "nyc" then [ex_entry] else []))
                    (hpo_ids ex_cfg)))
  ∧ ∀ hpo_id e, exported_record hpo_id e !! "params" = None.
Proof.
  assert (∀ hpo_id, hpo_id ∈ hpo_ids ex_cfg →
            schema_tables (schema_of ex_cfg hpo_id) ex_db !! LOG_TABLE_NAME
            = Some (mkTable log_columns
                      (map entry_row (if String.eqb hpo_id "nyc" then [ex_entry] else []))))
    as Hlogs.
  { intros hpo_id Hin. simpl in Hin.
    apply elem_of_cons in Hin as [->|Hin]; [vm_compute; reflexivity|].
    apply list_elem_of_singleton in Hin as ->. vm_compute. reflexivity. }
  split; [exact Hlogs|].
  exact (proj2 (proj2 (export_confidentiality ex_cfg ex_db))
           (λ hpo_id, if String.eqb hpo_id "nyc" then [ex_entry] else []) Hlogs).
Defined.

(** In the example the one entry is exported twice over: its [params] is
    gone, and the record of each site carries the identifier of the site
    whose log table was read. *)
Example export_example :
  export_log ex_cfg ex_db
  = Ok [ list_to_map
           [ ("log_id", Some (VStr "2017-03-04 05:06:07"));
             ("table_name", Some (VStr "observation"));
             ("phase", Some (VStr "Loading file into table"));
             ("success", Some (VBool false));
             ("message", Some (VStr "NOT NULL constraint failed"));
             ("hpo_id", Some (VStr "nyc")) ] ].
Proof. by vm_compute. Qed.

(** C4 at a site written in capitals. The directory holds the file under
    exactly the name [process] builds, and the index does not have it: the
    keys of the index are lowercased and the name looked up is not. The
    table is logged as [File not found]. *)
Theorem capital_site_file_not_found :
  glob_csv ex_env_capital = ["/data/NYC_person_datasprint_5.csv"]
  ∧ PyStr.split_last "/" "/data/NYC_person_datasprint_5.csv"
    = csv_filename ex_cfg_capital "NYC" "person"
  ∧ file_map ex_env_capital !! csv_filename ex_cfg_capital "NYC" "person" = None
  ∧ file_map ex_env_capital !! PyStr.lower (csv_filename ex_cfg_capital "NYC" "person")
    = Some "/data/NYC_person_datasprint_5.csv"
  ∧ map (λ e, (table_name e, success e, message e))
        (logged (trace (process ex_cfg_capital ex_env_capital "NYC"
                          (mkWorld (reset_tables ex_cfg_capital ∅).1 0 [])).1))
    = [("person", false, Some "File not found")].
Proof. by vm_compute. Qed.

(* ===================================================================== *)
(** * Further properties of the script *)
(* ===================================================================== *)

(** ** [create_schema] *)

(** [create_schema] changes the tables of no schema: a schema that exists
    keeps its tables, a new one has none. Afterwards the schema exists, and
    a second call changes nothing. *)
Theorem create_schema_idempotent (schema : string) (db : Database) :
  is_Some (schemas (create_schema schema db) !! schema) ∧
  create_schema schema (create_schema schema db) = create_schema schema db ∧
  ∀ other, schema_tables other (create_schema schema db) = schema_tables other db.
Proof.
  unfold create_schema.
  destruct (schemas db !! schema) as [ns|] eqn:Hs.
  - rewrite Hs. split; [eauto|]. split; [done|]. done.
  - simpl. rewrite lookup_insert_eq. split; [eauto|]. split; [done|].
    intros [other|]; simpl; [|done].
    destruct (decide (schema = other)) as [->|Hne].
    + by rewrite lookup_insert_eq, Hs.
    + by rewrite lookup_insert_ne.
Qed.

(** ** [create_tables] *)

Lemma groupby_keys (df : list CdmRow) :
  map fst (groupby_table_name df) = sorted (unique (map cdm_table_name df)).
Proof.
  unfold groupby_table_name. rewrite map_map. simpl. apply map_id.
Qed.

(** [create_tables] only adds tables. It adds one for every table of the
    catalog the schema lacks, in scope or not, empty and with one column
    per column name of its catalog lines, in the order of first
    appearance, typed by the type mapping and nullable as the catalog says
    (a name that comes twice gives one column, as its last line defines
    it); with no name repeated that is one column per line, in the order
    of the lines. Every table that was there stays as it was, and a table
    that appears is a catalog table or the log table. *)
Theorem create_tables_fidelity (cfg : Config) (ns ns' : Namespace) :
  create_tables cfg ns = Ok ns' →
  ns ⊆ ns' ∧
  (∀ name, name ∈ map cdm_table_name (cdm_csv cfg) → ns !! name = None →
     ∃ columns, catalog_layout cfg (catalog_lines cfg name) columns
                ∧ (NoDup (map cdm_column_name (catalog_lines cfg name)) →
                   Forall2 (line_layout cfg) (catalog_lines cfg name) columns)
                ∧ ns' !! name = Some (mkTable columns [])) ∧
  (∀ name, is_Some (ns' !! name) →
     is_Some (ns !! name) ∨ name ∈ map cdm_table_name (cdm_csv cfg)
     ∨ name = LOG_TABLE_NAME).
Proof.
  intros (md & Hmd & Hlog & ->)%create_tables_ok. split; [|split].
  - apply map_subseteq_spec. intros name t Hn. by rewrite create_all_lookup, Hn.
  - intros name Hcat Hnone. rewrite create_all_lookup, Hnone.
    unfold groupby_table_name in Hmd.
    eapply (declare_tables_assoc _ _ _ _ name) in Hmd as (columns & Hcols & Hassoc);
      [|by rewrite elem_of_sorted, elem_of_unique].
    exists columns. split; [by apply table_columns_layout|].
    split; [intros Hnd; by apply catalog_layout_distinct, table_columns_layout|].
    by rewrite (assoc_app_Some _ _ _ _ Hassoc).
  - intros name [t Ht]. rewrite create_all_lookup in Ht.
    destruct (ns !! name) as [t0|]; [left; eauto|right].
    destruct (assoc name (md ++ [(LOG_TABLE_NAME, log_columns)])) as [cols|] eqn:Ha;
      [|done].
    apply assoc_Some_labels in Ha. rewrite map_app, elem_of_app in Ha.
    destruct Ha as [Ha|Ha].
    + left. apply declare_tables_ok in Hmd as [Hfst _].
      rewrite Hfst, groupby_keys, elem_of_sorted, elem_of_unique in Ha. done.
    + right. simpl in Ha. by apply list_elem_of_singleton in Ha.
Qed.

Lemma create_tables_fidelity_witness :
  create_tables ex_cfg ∅ = Ok (reset_tables ex_cfg ∅).1 ∧
  "care_site" ∈ map cdm_table_name (cdm_csv ex_cfg) ∧
  (∅ : Namespace) !! "care_site" = None ∧
  ∃ columns, catalog_layout ex_cfg (catalog_lines ex_cfg "care_site") columns
             ∧ (NoDup (map cdm_column_name (catalog_lines ex_cfg "care_site")) →
                Forall2 (line_layout ex_cfg) (catalog_lines ex_cfg "care_site") columns)
             ∧ (reset_tables ex_cfg ∅).1 !! "care_site" = Some (mkTable columns []).
Proof.
  assert (create_tables ex_cfg ∅ = Ok (reset_tables ex_cfg ∅).1) as Hc
    by (vm_compute; reflexivity).
  assert ("care_site" ∈ map cdm_table_name (cdm_csv ex_cfg)) as Hcat.
  { apply (bool_decide_unpack _). vm_compute. exact I. }
  split; [exact Hc|]. split; [exact Hcat|]. split; [reflexivity|].
  exact (proj1 (proj2 (create_tables_fidelity ex_cfg ∅ _ Hc)) "care_site" Hcat eq_refl).
Defined.

(** ** The tables [process] goes through *)

Lemma NoDup_unique (l : list string) : NoDup (unique l).
Proof.
  induction l as [|x l IH]; simpl; [constructor|].
  apply NoDup_cons. split.
  - rewrite list_elem_of_filter. naive_solver.
  - by apply NoDup_filter.
Qed.

Lemma NoDup_insert_sorted (x : string) (l : list string) :
  x ∉ l → NoDup l → NoDup (insert_sorted x l).
Proof.
  induction l as [|y l IH]; simpl; intros Hx Hnd.
  - apply NoDup_singleton.
  - apply not_elem_of_cons in Hx as [Hne Hx].
    apply NoDup_cons in Hnd as [Hy Hnd].
    destruct (String.leb x y).
    + apply NoDup_cons. split; [|by apply NoDup_cons].
      rewrite not_elem_of_cons. done.
    + apply NoDup_cons. split; [|by apply IH].
      rewrite elem_of_insert_sorted. naive_solver.
Qed.

Lemma NoDup_sorted (l : list string) : NoDup l → NoDup (sorted l).
Proof.
  induction l as [|x l IH]; intros Hnd; [constructor|].
  apply NoDup_cons in Hnd as [Hx Hnd]. unfold sorted in *. simpl.
  apply NoDup_insert_sorted; [|by apply IH].
  fold (sorted l). by rewrite elem_of_sorted.
Qed.

Lemma Sorted_insert_sorted (x : string) (l : list string) :
  Sorted String.le l → Sorted String.le (insert_sorted x l).
Proof.
  induction l as [|y l IH]; simpl; intros Hs.
  - by repeat constructor.
  - destruct (String.leb x y) eqn:Hxy.
    + constructor; [done|]. constructor. unfold String.le. by rewrite Hxy.
    + apply Sorted_inv in Hs as [Hs Hhd]. constructor; [by apply IH|].
      assert (String.le y x) as Hyx.
      { destruct (total String.le x y) as [H|H]; [|done].
        unfold String.le in H. by rewrite Hxy in H. }
      destruct l as [|z l]; simpl.
      * by constructor.
      * apply HdRel_inv in Hhd. destruct (String.leb x z); by constructor.
Qed.

Lemma Sorted_sorted (l : list string) : Sorted String.le (sorted l).
Proof.
  induction l as [|x l IH]; [constructor|].
  unfold sorted in *. simpl. by apply Sorted_insert_sorted.
Qed.

Lemma filter_table_included (cfg : Config) (name : string) :
  name ∈ pmi_tables cfg →
  filter (λ r, cdm_table_name r = name) (isin_included cfg) = catalog_lines cfg name.
Proof.
  intros Hin. unfold isin_included, catalog_lines.
  induction (cdm_csv cfg) as [|r l IH]; [done|].
  rewrite (filter_cons (λ r, cdm_table_name r ∈ pmi_tables cfg)).
  rewrite (filter_cons (λ r, cdm_table_name r = name) r l).
  destruct (decide (cdm_table_name r = name)) as [Heq|Hne].
  - rewrite decide_True by (by rewrite Heq).
    rewrite filter_cons, decide_True by done. by rewrite IH.
  - destruct (decide (cdm_table_name r ∈ pmi_tables cfg)); [|done].
    rewrite filter_cons, decide_False by done. done.
Qed.

(** [process] goes through each table once, in the order of the names: the
    tables are those named in [pmi_tables.csv] (however many times) that
    the catalog defines, without repetition, sorted, and each comes with
    all its catalog lines, the ones [create_tables] built its columns
    from. *)
Theorem in_scope_tables_set (cfg : Config) :
  NoDup (map fst (in_scope_tables cfg)) ∧
  Sorted String.le (map fst (in_scope_tables cfg)) ∧
  (∀ name, name ∈ map fst (in_scope_tables cfg) ↔
           name ∈ pmi_tables_csv cfg ∧ name ∈ map cdm_table_name (cdm_csv cfg)) ∧
  (∀ t, t ∈ in_scope_tables cfg → t.2 = catalog_lines cfg t.1).
Proof.
  unfold in_scope_tables. rewrite groupby_keys.
  split; [apply NoDup_sorted, NoDup_unique|].
  split; [apply Sorted_sorted|]. split.
  - intros name. rewrite elem_of_sorted, elem_of_unique. split.
    + intros (r & -> & Hr)%list_elem_of_fmap. unfold isin_included in Hr.
      apply list_elem_of_filter in Hr as [Hscope Hr].
      split; [by apply elem_of_unique|].
      apply list_elem_of_fmap. eauto.
    + intros [Hscope (r & -> & Hr)%list_elem_of_fmap].
      apply list_elem_of_fmap. exists r. split; [done|].
      unfold isin_included. apply list_elem_of_filter. split; [|done].
      unfold pmi_tables. by apply elem_of_unique.
  - intros t Ht. pose proof (in_scope_tables_elem cfg t Ht) as [Hscope _].
    unfold in_scope_tables, groupby_table_name in Ht.
    apply list_elem_of_fmap in Ht as (k & -> & _). simpl in *.
    by apply filter_table_included.
Qed.

(** ** The file index and the expected name *)

(** The index keeps, under a lowercased name, the last file [glob] lists
    under a name that lowercases to it: of two files whose names differ
    only by case, the one listed later is the one [process] will open. *)
Theorem file_map_last_wins (env : Env) (before after : list string) (p : string) :
  glob_csv env = before ++ p :: after →
  (∀ q, q ∈ after →
     PyStr.lower (PyStr.split_last "/" q) ≠ PyStr.lower (PyStr.split_last "/" p)) →
  file_map env !! PyStr.lower (PyStr.split_last "/" p) = Some p.
Proof.
  intros Hglob Hafter. unfold file_map. rewrite dict_lookup, Hglob.
  rewrite map_app. cbn [map]. rewrite reverse_app, reverse_cons, <- app_assoc.
  rewrite assoc_app.
  destruct (assoc _ (reverse (map path_to_file_map_item after))) as [v|] eqn:Ha.
  - exfalso. apply assoc_Some_elem, elem_of_reverse, list_elem_of_fmap in Ha
      as (q & Heq & Hq).
    unfold path_to_file_map_item in Heq. injection Heq as Heq _.
    by apply (Hafter q Hq).
  - cbn [app assoc path_to_file_map_item fst snd]. by rewrite String.eqb_refl.
Qed.

Lemma file_map_last_wins_witness :
  glob_csv ex_env_twins
  = ["/in/Site_person_datasprint_1.csv"] ++ "/in/site_PERSON_datasprint_1.csv" :: [] ∧
  (∀ q, q ∈ [] →
     PyStr.lower (PyStr.split_last "/" q)
     ≠ PyStr.lower (PyStr.split_last "/" "/in/site_PERSON_datasprint_1.csv")) ∧
  file_map ex_env_twins
    !! PyStr.lower (PyStr.split_last "/" "/in/site_PERSON_datasprint_1.csv")
  = Some "/in/site_PERSON_datasprint_1.csv".
Proof.
  assert (∀ q : string, q ∈ [] →
            PyStr.lower (PyStr.split_last "/" q)
            ≠ PyStr.lower (PyStr.split_last "/" "/in/site_PERSON_datasprint_1.csv")) as H.
  { intros q Hq. by apply elem_of_nil in Hq. }
  split; [reflexivity|]. split; [exact H|].
  exact (file_map_last_wins ex_env_twins ["/in/Site_person_datasprint_1.csv"] []
           "/in/site_PERSON_datasprint_1.csv" eq_refl H).
Defined.

Lemma segment_found (cfg : Config) (env : Env) (hpo_id tn : string) (tdf : list CdmRow)
  (c : nat) (r : result unit) (seg : list Event) (path : string) :
  file_map env !! csv_filename cfg hpo_id tn = Some path →
  table_segment cfg env hpo_id tn tdf c r seg →
  ∃ rest, seg = EvPhase (received_phase (csv_filename cfg hpo_id tn))
                :: EvLog (success_entry (utcnow env c) tn
                            (received_phase (csv_filename cfg hpo_id tn)))
                :: EvOpen path :: rest.
Proof.
  intros Hfm Hseg. destruct Hseg; simplify_eq; simpl; eauto.
Qed.

Lemma segment_not_found (cfg : Config) (env : Env) (hpo_id tn : string)
  (tdf : list CdmRow) (c : nat) (r : result unit) (seg : list Event) :
  file_map env !! csv_filename cfg hpo_id tn = None →
  table_segment cfg env hpo_id tn tdf c r seg →
  r = Raise (Exception "File not found") ∧
  seg = [ EvPhase (received_phase (csv_filename cfg hpo_id tn));
          EvLog (mkLogEntry (utcnow env c) tn
                   (received_phase (csv_filename cfg hpo_id tn))
                   false (Some "File not found") None) ].
Proof.
  intros Hfm Hseg. destruct Hseg; simplify_eq; done.
Qed.

(** When some file has a name that lowercases to the name [process]
    builds, the table is found: with a database that refuses no log row,
    its iteration logs the success of the existence check and opens a file
    [glob] listed, under the path as listed, whose lowercased name is the
    expected one. *)
Theorem lowercase_name_resolves (cfg : Config) (env : Env) (hpo_id tn : string)
  (tdf : list CdmRow) (table_map : Namespace) (w : World) (p : string) :
  log_accepted env →
  p ∈ glob_csv env →
  PyStr.lower (PyStr.split_last "/" p) = csv_filename cfg hpo_id tn →
  is_Some (table_map !! tn) → tn ≠ LOG_TABLE_NAME →
  ∃ w' path rest,
    process_table cfg env hpo_id table_map w (tn, tdf) = (w', Ok tt)
    ∧ path ∈ glob_csv env
    ∧ PyStr.lower (PyStr.split_last "/" path) = csv_filename cfg hpo_id tn
    ∧ trace w'
      = trace w ++ EvPhase (received_phase (csv_filename cfg hpo_id tn))
                :: EvLog (success_entry (utcnow env (clock w)) tn
                            (received_phase (csv_filename cfg hpo_id tn)))
                :: EvOpen path :: rest.
Proof.
  intros Hacc Hp Hname Hsome Hne.
  destruct (process_table_run cfg env hpo_id table_map w tn tdf Hacc Hsome Hne)
    as (w' & seg & Hrun & Hseg & Htr & _).
  destruct (file_map_is_Some env p Hp) as [path Hpath]. rewrite Hname in Hpath.
  destruct (segment_found _ _ _ _ _ _ _ _ _ Hpath Hseg) as [rest ->].
  apply file_map_Some in Hpath as [Hin Hlow].
  exists w', path, rest. done.
Qed.

Lemma lowercase_name_resolves_witness :
  log_accepted ex_env ∧
  "/data/NYC_Person_DataSprint_5.csv" ∈ glob_csv ex_env ∧
  PyStr.lower (PyStr.split_last "/" "/data/NYC_Person_DataSprint_5.csv")
  = csv_filename ex_cfg "nyc" "person" ∧
  is_Some (tables ex_world !! "person") ∧ "person" ≠ LOG_TABLE_NAME ∧
  ∃ w' path rest,
    process_table ex_cfg ex_env "nyc" (tables ex_world) ex_world
      ("person", catalog_lines ex_cfg "person") = (w', Ok tt)
    ∧ path ∈ glob_csv ex_env
    ∧ PyStr.lower (PyStr.split_last "/" path) = csv_filename ex_cfg "nyc" "person"
    ∧ trace w'
      = trace ex_world ++ EvPhase (received_phase (csv_filename ex_cfg "nyc" "person"))
                :: EvLog (success_entry (utcnow ex_env (clock ex_world)) "person"
                            (received_phase (csv_filename ex_cfg "nyc" "person")))
                :: EvOpen path :: rest.
Proof.
  assert (log_accepted ex_env) as Hacc by (intros kwargs; reflexivity).
  assert ("/data/NYC_Person_DataSprint_5.csv" ∈ glob_csv ex_env) as Hp
    by apply list_elem_of_here.
  assert (PyStr.lower (PyStr.split_last "/" "/data/NYC_Person_DataSprint_5.csv")
          = csv_filename ex_cfg "nyc" "person") as Hname by (vm_compute; reflexivity).
  assert (is_Some (tables ex_world !! "person")) as Hsome.
  { eexists. vm_compute. reflexivity. }
  assert ("person" ≠ LOG_TABLE_NAME) as Hne by discriminate.
  split; [exact Hacc|].
  split; [exact Hp|]. split; [exact Hname|]. split; [exact Hsome|]. split; [exact Hne|].
  exact (lowercase_name_resolves ex_cfg ex_env "nyc" "person" _ _ ex_world _
           Hacc Hp Hname Hsome Hne).
Defined.

(** A name [process] builds with a capital letter in it, from the site
    identifier or the table name, is in no index: whatever files there
    are, the iteration of the table writes one entry, the failure
    [File not found] (which a database that refuses no log row takes), and
    goes no further. *)
Theorem capital_name_never_resolves (cfg : Config) (env : Env) (hpo_id tn : string)
  (tdf : list CdmRow) (table_map : Namespace) (w : World) :
  log_accepted env →
  PyStr.lower (csv_filename cfg hpo_id tn) ≠ csv_filename cfg hpo_id tn →
  is_Some (table_map !! tn) → tn ≠ LOG_TABLE_NAME →
  ∃ w',
    process_table cfg env hpo_id table_map w (tn, tdf) = (w', Ok tt)
    ∧ trace w'
      = trace w ++ [ EvPhase (received_phase (csv_filename cfg hpo_id tn));
                     EvLog (mkLogEntry (utcnow env (clock w)) tn
                              (received_phase (csv_filename cfg hpo_id tn))
                              false (Some "File not found") None) ].
Proof.
  intros Hacc Hcap Hsome Hne.
  destruct (process_table_run cfg env hpo_id table_map w tn tdf Hacc Hsome Hne)
    as (w' & seg & Hrun & Hseg & Htr & _).
  destruct (segment_not_found _ _ _ _ _ _ _ _ (file_map_capital env _ Hcap) Hseg)
    as [_ ->].
  exists w'. done.
Qed.

Lemma capital_name_never_resolves_witness :
  log_accepted ex_env_capital ∧
  PyStr.lower (csv_filename ex_cfg_capital "NYC" "person")
  ≠ csv_filename ex_cfg_capital "NYC" "person" ∧
  is_Some ((reset_tables ex_cfg_capital ∅).1 !! "person") ∧
  "person" ≠ LOG_TABLE_NAME ∧
  ∃ w',
    process_table ex_cfg_capital ex_env_capital "NYC" (reset_tables ex_cfg_capital ∅).1
      (mkWorld (reset_tables ex_cfg_capital ∅).1 0 [])
      ("person", catalog_lines ex_cfg_capital "person") = (w', Ok tt)
    ∧ trace w'
      = [] ++ [ EvPhase (received_phase (csv_filename ex_cfg_capital "NYC" "person"));
                EvLog (mkLogEntry (utcnow ex_env_capital 0) "person"
                         (received_phase (csv_filename ex_cfg_capital "NYC" "person"))
                         false (Some "File not found") None) ].
Proof.
  assert (PyStr.lower (csv_filename ex_cfg_capital "NYC" "person")
          ≠ csv_filename ex_cfg_capital "NYC" "person") as Hcap.
  { apply (bool_decide_unpack _). vm_compute. exact I. }
  assert (is_Some ((reset_tables ex_cfg_capital ∅).1 !! "person")) as Hsome.
  { eexists. vm_compute. reflexivity. }
  assert ("person" ≠ LOG_TABLE_NAME) as Hne by discriminate.
  assert (log_accepted ex_env_capital) as Hacc by (intros kwargs; reflexivity).
  split; [exact Hacc|].
  split; [exact Hcap|]. split; [exact Hsome|]. split; [exact Hne|].
  exact (capital_name_never_resolves ex_cfg_capital ex_env_capital "NYC" "person" _ _
           (mkWorld (reset_tables ex_cfg_capital ∅).1 0 []) Hacc Hcap Hsome Hne).
Defined.

Lemma in_scope_tables_set_witness :
  ("person", catalog_lines ex_cfg "person") ∈ in_scope_tables ex_cfg ∧
  ("person", catalog_lines ex_cfg "person").2 = catalog_lines ex_cfg "person" ∧
  map fst (in_scope_tables ex_cfg) = ["observation"; "person"].
Proof.
  assert (("person", catalog_lines ex_cfg "person") ∈ in_scope_tables ex_cfg) as Hin.
  { vm_compute. apply list_elem_of_further, list_elem_of_here. }
  split; [exact Hin|].
  split; [exact (proj2 (proj2 (proj2 (in_scope_tables_set ex_cfg))) _ Hin)|].
  vm_compute. reflexivity.
Defined.

(** ** What the transformation hands to the load *)

(** The transformation keeps the number of rows, and every row it hands
    to the database names exactly the target columns, in their order. *)
Theorem transform_rows_shape (column_names : list string) (df out : DataFrame) :
  transform column_names df = Ok out →
  length (frame_rows out) = df_nrows df ∧
  ∀ r, r ∈ frame_rows out → map fst r = column_names.
Proof.
  intros (re & _ & Hn & Hlab & _)%transform_spec. unfold frame_rows. split.
  - by rewrite length_map, length_seq.
  - intros r (i & -> & _)%list_elem_of_fmap. rewrite map_map. simpl. exact Hlab.
Qed.

Lemma transform_rows_shape_witness :
  transform ex_columns ex_observations = Ok ex_transformed ∧
  length (frame_rows ex_transformed) = df_nrows ex_observations ∧
  ∀ r, r ∈ frame_rows ex_transformed → map fst r = ex_columns.
Proof.
  assert (transform ex_columns ex_observations = Ok ex_transformed) as Ht
    by (vm_compute; reflexivity).
  split; [exact Ht|].
  exact (transform_rows_shape ex_columns ex_observations ex_transformed Ht).
Defined.

(** A concept column of the target that the file does not have at all is
    not left null either: it comes out filled with 0 in every row. *)
Theorem absent_concept_column_zero (column_names : list string) (df out : DataFrame)
  (c : string) :
  transform column_names df = Ok out →
  c ∈ column_names →
  is_concept_column c = true →
  c ∉ map PyStr.lower (labels df) →
  assoc c (df_columns out) = Some (replicate (df_nrows df) (Some (VInt 0))).
Proof.
  intros (re & Hre & _ & _ & Hcols)%transform_spec Hc Hcc Habs.
  rewrite Hcols, Hcc. pose proof (reindex_ok _ _ _ Hre) as ->. simpl.
  rewrite assoc_tabulate, decide_True by done. simpl. f_equal.
  unfold column_or_nan.
  destruct (assoc c (df_columns (rename PyStr.lower df))) as [s|] eqn:Hs.
  - exfalso. apply assoc_Some_labels in Hs.
    fold (labels (rename PyStr.lower df)) in Hs. by rewrite labels_rename in Hs.
  - simpl. induction (df_nrows df) as [|n IH]; simpl; [done|]. by rewrite IH.
Qed.

Lemma absent_concept_column_zero_witness :
  transform ["person_id"; "gender_concept_id"] ex_persons
  = Ok (mkDF 1 [("person_id", [Some (VInt 1)]); ("gender_concept_id", [Some (VInt 0)])]) ∧
  "gender_concept_id" ∈ ["person_id"; "gender_concept_id"] ∧
  is_concept_column "gender_concept_id" = true ∧
  ("gender_concept_id" ∉ map PyStr.lower (labels ex_persons)) ∧
  assoc "gender_concept_id"
        (df_columns (mkDF 1 [("person_id", [Some (VInt 1)]);
                             ("gender_concept_id", [Some (VInt 0)])]))
  = Some (replicate (df_nrows ex_persons) (Some (VInt 0))).
Proof.
  assert (transform ["person_id"; "gender_concept_id"] ex_persons
          = Ok (mkDF 1 [("person_id", [Some (VInt 1)]);
                        ("gender_concept_id", [Some (VInt 0)])])) as Ht
    by (vm_compute; reflexivity).
  assert ("gender_concept_id" ∈ ["person_id"; "gender_concept_id"]) as Hc
    by apply list_elem_of_further, list_elem_of_here.
  assert (is_concept_column "gender_concept_id" = true) as Hcc by (vm_compute; reflexivity).
  assert ("gender_concept_id" ∉ map PyStr.lower (labels ex_persons)) as Habs.
  { apply (bool_decide_unpack _). vm_compute. exact I. }
  split; [exact Ht|]. split; [exact Hc|]. split; [exact Hcc|]. split; [exact Habs|].
  exact (absent_concept_column_zero _ ex_persons _ "gender_concept_id" Ht Hc Hcc Habs).
Defined.

(** Two headers of the file that become the same once lowercased make
    the reindexing raise: the transformation gives no frame. *)
Theorem duplicate_headers_raise (column_names : list string) (df : DataFrame) :
  ¬ NoDup (map PyStr.lower (labels df)) →
  column_names ≠ [] →
  transform column_names df = Raise (ValueError "cannot reindex from a duplicate axis").
Proof.
  intros Hdup Hne. unfold transform, reindex.
  rewrite labels_rename.
  rewrite bool_decide_eq_false_2 by done.
  rewrite bool_decide_eq_false_2 by done. done.
Qed.

Lemma duplicate_headers_raise_witness :
  ¬ NoDup (map PyStr.lower (labels (mkDF 1 [("ID", [None]); ("id", [None])]))) ∧
  ["id"] ≠ [] ∧
  transform ["id"] (mkDF 1 [("ID", [None]); ("id", [None])])
  = Raise (ValueError "cannot reindex from a duplicate axis").
Proof.
  assert (¬ NoDup (map PyStr.lower (labels (mkDF 1 [("ID", [None]); ("id", [None])]))))
    as Hdup.
  { apply (bool_decide_unpack _). vm_compute. exact I. }
  assert (["id"] ≠ ([] : list string)) as Hne by discriminate.
  split; [exact Hdup|]. split; [exact Hne|].
  exact (duplicate_headers_raise ["id"] _ Hdup Hne).
Defined.

(** When the file of a table is found, opens and parses, and two of its
    headers are the same once lowercased, the table is given up in the
    parsing phase: with a database that refuses no log row, its entries
    are the success of the existence check, the success of the parse and a
    failure under [Parsing CSV file] with the message of the reindexing,
    and no row is handed to the database. *)
Theorem duplicate_headers_logged (cfg : Config) (env : Env) (hpo_id tn : string)
  (tdf : list CdmRow) (table_map : Namespace) (w : World) (path f : string)
  (df : DataFrame) :
  log_accepted env →
  is_Some (table_map !! tn) → tn ≠ LOG_TABLE_NAME → tdf ≠ [] →
  file_map env !! csv_filename cfg hpo_id tn = Some path →
  open_file env path = Ok f →
  read_csv env f = Ok df →
  ¬ NoDup (map PyStr.lower (labels df)) →
  ∃ w',
    process_table cfg env hpo_id table_map w (tn, tdf) = (w', Ok tt)
    ∧ trace w'
      = trace w ++
        [ EvPhase (received_phase (csv_filename cfg hpo_id tn));
          EvLog (success_entry (utcnow env (clock w)) tn
                   (received_phase (csv_filename cfg hpo_id tn)));
          EvOpen path;
          EvPhase PARSING;
          EvReadCsv path;
          EvLog (success_entry (utcnow env (S (clock w))) tn PARSING);
          EvLog (mkLogEntry (utcnow env (S (S (clock w)))) tn PARSING false
                   (Some "cannot reindex from a duplicate axis") None) ].
Proof.
  intros Hacc Hsome Hne Htdf Hfm Hopen Hread Hdup.
  destruct (process_table_run cfg env hpo_id table_map w tn tdf Hacc Hsome Hne)
    as (w' & seg & Hrun & Hseg & Htr & _).
  assert (transform (unique (map cdm_column_name tdf)) df
          = Raise (ValueError "cannot reindex from a duplicate axis")) as Htf.
  { apply duplicate_headers_raise; [done|]. by destruct tdf. }
  exists w'. split; [done|]. rewrite Htr. f_equal.
  destruct Hseg; simplify_eq; try congruence.
  match goal with
  | H : transform _ _ = Raise ?e |- _ =>
      assert (e = ValueError "cannot reindex from a duplicate axis") as -> by congruence
  end.
  done.
Qed.

Lemma duplicate_headers_logged_witness :
  log_accepted ex_env_duplicate ∧
  is_Some (tables ex_world !! "person") ∧ "person" ≠ LOG_TABLE_NAME ∧
  catalog_lines ex_cfg "person" ≠ [] ∧
  file_map ex_env_duplicate !! csv_filename ex_cfg "nyc" "person"
  = Some "/data/nyc_person_datasprint_5.csv" ∧
  open_file ex_env_duplicate "/data/nyc_person_datasprint_5.csv" = Ok "PERSON_ID,person_id" ∧
  read_csv ex_env_duplicate "PERSON_ID,person_id"
  = Ok (mkDF 0 [("PERSON_ID", []); ("person_id", [])]) ∧
  ¬ NoDup (map PyStr.lower (labels (mkDF 0 [("PERSON_ID", []); ("person_id", [])]))) ∧
  ∃ w',
    process_table ex_cfg ex_env_duplicate "nyc" (tables ex_world) ex_world
      ("person", catalog_lines ex_cfg "person") = (w', Ok tt)
    ∧ trace w'
      = trace ex_world ++
        [ EvPhase (received_phase (csv_filename ex_cfg "nyc" "person"));
          EvLog (success_entry (utcnow ex_env_duplicate (clock ex_world)) "person"
                   (received_phase (csv_filename ex_cfg "nyc" "person")));
          EvOpen "/data/nyc_person_datasprint_5.csv";
          EvPhase PARSING;
          EvReadCsv "/data/nyc_person_datasprint_5.csv";
          EvLog (success_entry (utcnow ex_env_duplicate (S (clock ex_world))) "person" PARSING);
          EvLog (mkLogEntry (utcnow ex_env_duplicate (S (S (clock ex_world)))) "person"
                   PARSING false (Some "cannot reindex from a duplicate axis") None) ].
Proof.
  assert (is_Some (tables ex_world !! "person")) as Hsome.
  { eexists. vm_compute. reflexivity. }
  assert ("person" ≠ LOG_TABLE_NAME) as Hne by discriminate.
  assert (catalog_lines ex_cfg "person" ≠ []) as Htdf.
  { vm_compute. discriminate. }
  assert (file_map ex_env_duplicate !! csv_filename ex_cfg "nyc" "person"
          = Some "/data/nyc_person_datasprint_5.csv") as Hfm by (vm_compute; reflexivity).
  assert (¬ NoDup (map PyStr.lower (labels (mkDF 0 [("PERSON_ID", []); ("person_id", [])]))))
    as Hdup.
  { apply (bool_decide_unpack _). vm_compute. exact I. }
  assert (log_accepted ex_env_duplicate) as Hacc by (intros kwargs; reflexivity).
  split; [exact Hacc|].
  split; [exact Hsome|]. split; [exact Hne|]. split; [exact Htdf|]. split; [exact Hfm|].
  split; [reflexivity|]. split; [reflexivity|]. split; [exact Hdup|].
  exact (duplicate_headers_logged ex_cfg ex_env_duplicate "nyc" "person" _ _ ex_world _ _ _
           Hacc Hsome Hne Htdf Hfm eq_refl eq_refl Hdup).
Defined.

(** With a database that refuses no log row, one table writes one, two
    or three log entries and reads the clock once for each. All but the
    last are successes; the last is a success exactly when the whole [try]
    went through, and then there are three. *)
Theorem table_entries (cfg : Config) (env : Env) (hpo_id tn : string)
  (tdf : list CdmRow) (table_map : Namespace) (w : World) :
  log_accepted env →
  is_Some (table_map !! tn) → tn ≠ LOG_TABLE_NAME →
  ∃ w' seg front last,
    process_table cfg env hpo_id table_map w (tn, tdf) = (w', Ok tt)
    ∧ trace w' = trace w ++ seg
    ∧ logged seg = front ++ [last]
    ∧ (length front ≤ 2)%nat
    ∧ clock w' = clock w + S (length front)
    ∧ Forall (λ e, success e = true) front
    ∧ (success last = true ↔ attempt cfg env hpo_id (tn, tdf) = Ok tt)
    ∧ (success last = true → length front = 2%nat).
Proof.
  intros Hacc Hsome Hne.
  destruct (process_table_run cfg env hpo_id table_map w tn tdf Hacc Hsome Hne)
    as (w' & seg & Hrun & Hseg & Htr & Hc & _).
  pose proof (segment_logged _ _ _ _ _ _ _ _ Hseg) as Hl. simpl in Hl.
  assert (∀ now ph e, success (failure_entry now tn ph e) = false) as Hf.
  { intros now ph e. by destruct (failure_entry_fields now tn ph e) as (_ & _ & _ & ? & _). }
  destruct (attempt cfg env hpo_id (tn, tdf)) as [[]|e].
  - exists w', seg, [success_entry (utcnow env (clock w)) tn
                       (received_phase (csv_filename cfg hpo_id tn));
                     success_entry (utcnow env (S (clock w))) tn PARSING],
           (success_entry (utcnow env (S (S (clock w)))) tn LOADING).
    rewrite Hc, Hl. simpl. repeat split; try done; try lia. by repeat constructor.
  - destruct Hl as [Hl|[(ph & _ & Hl)|(ph & _ & Hl)]].
    + exists w', seg, [], (failure_entry (utcnow env (clock w)) tn
                            (received_phase (csv_filename cfg hpo_id tn)) e).
      rewrite Hc, Hl, Hf. simpl. repeat split; try done; try lia.
    + exists w', seg, [success_entry (utcnow env (clock w)) tn
                         (received_phase (csv_filename cfg hpo_id tn))],
             (failure_entry (utcnow env (S (clock w))) tn ph e).
      rewrite Hc, Hl, Hf. simpl. repeat split; try done; try lia. by repeat constructor.
    + exists w', seg, [success_entry (utcnow env (clock w)) tn
                         (received_phase (csv_filename cfg hpo_id tn));
                       success_entry (utcnow env (S (clock w))) tn PARSING],
             (failure_entry (utcnow env (S (S (clock w)))) tn ph e).
      rewrite Hc, Hl, Hf. simpl. repeat split; try done; try lia. by repeat constructor.
Qed.

Lemma table_entries_witness :
  log_accepted ex_env ∧
  is_Some (tables ex_world !! "observation") ∧ "observation" ≠ LOG_TABLE_NAME ∧
  ∃ w' seg front last,
    process_table ex_cfg ex_env "nyc" (tables ex_world) ex_world
      ("observation", catalog_lines ex_cfg "observation") = (w', Ok tt)
    ∧ trace w' = trace ex_world ++ seg
    ∧ logged seg = front ++ [last]
    ∧ (length front ≤ 2)%nat
    ∧ clock w' = clock ex_world + S (length front)
    ∧ Forall (λ e, success e = true) front
    ∧ (success last = true
       ↔ attempt ex_cfg ex_env "nyc" ("observation", catalog_lines ex_cfg "observation")
         = Ok tt)
    ∧ (success last = true → length front = 2%nat).
Proof.
  assert (is_Some (tables ex_world !! "observation")) as Hsome.
  { eexists. vm_compute. reflexivity. }
  assert ("observation" ≠ LOG_TABLE_NAME) as Hne by discriminate.
  assert (log_accepted ex_env) as Hacc by (intros kwargs; reflexivity).
  split; [exact Hacc|]. split; [exact Hsome|]. split; [exact Hne|].
  exact (table_entries ex_cfg ex_env "nyc" "observation" _ _ ex_world Hacc Hsome Hne).
Defined.

(** ** What [process] does to the tables *)

Lemma process_tables_tables (cfg : Config) (env : Env) (hpo_id : string)
  (table_map : Namespace) (ts : list (string * list CdmRow)) (w : World) :
  grows (tables w) (tables (process_tables cfg env hpo_id table_map ts w).1)
  ∧ ∀ n, n ∉ map fst ts → LOG_TABLE_NAME ≠ n →
         tables (process_tables cfg env hpo_id table_map ts w).1 !! n = tables w !! n.
Proof.
  revert w. induction ts as [|t ts IH]; intros w; cbn [process_tables].
  - split; [apply grows_refl|done].
  - destruct (process_table_tables cfg env hpo_id table_map w t) as [Hg Hf].
    destruct (process_table cfg env hpo_id table_map w t) as [w1 [u|e]]; simpl in *.
    + destruct (IH w1) as [Hg' Hf']. split; [by eapply grows_trans|].
      intros n [Hne Hn]%not_elem_of_cons Hlog. rewrite Hf' by done. by apply Hf.
    + split; [done|]. intros n [Hne Hn]%not_elem_of_cons Hlog. by apply Hf.
Qed.

(** [process] neither drops nor creates a table and changes no layout,
    however it ends: every table keeps its columns and the rows it had, in
    their order, and can only get rows added after them. A table that is
    neither in scope nor the log table is left exactly as it was. *)
Theorem process_append_only (cfg : Config) (env : Env) (hpo_id : string) (w : World) :
  grows (tables w) (tables (process cfg env hpo_id w).1)
  ∧ ∀ n, n ∉ map fst (in_scope_tables cfg) → n ≠ LOG_TABLE_NAME →
         tables (process cfg env hpo_id w).1 !! n = tables w !! n.
Proof.
  unfold process.
  destruct (tables w !! LOG_TABLE_NAME) as [lt|]; [|split; [apply grows_refl|done]].
  destruct (process_tables_tables cfg env hpo_id (tables w) (in_scope_tables cfg)
              (mkWorld (tables w) (clock w)
                       (trace w ++ [EvGlob (csv_dir cfg ++ "/*.csv")]))) as [Hg Hf].
  simpl in *. split; [done|]. intros n Hn Hne. by apply Hf.
Qed.

Lemma insert_rows_lookup (name : string) (rows : list (list (string * Cell)))
  (ns : Namespace) (t : Table) :
  ns !! name = Some t →
  foldl (λ ns r, insert_row name r ns) ns rows !! name
  = Some (mkTable (tbl_columns t) (tbl_rows t ++ map (stored_row t) rows)).
Proof.
  revert ns t. induction rows as [|r rows IH]; intros ns t Ht; simpl.
  - rewrite Ht, app_nil_r. by destruct t.
  - erewrite IH; [|by rewrite insert_row_lookup, Ht].
    simpl. by rewrite <- app_assoc.
Qed.

Lemma accepted_rows_ok (env : Env) (name : string) (rows : list (list (string * Cell))) :
  first_error env name rows = None → accepted_rows env name rows = rows.
Proof.
  induction rows as [|r rows IH]; simpl; [done|].
  destruct (insert_error env name r); [done|]. intros H. by rewrite IH.
Qed.

(** When the file of a table is found, opens, parses and transforms, and
    the database refuses none of its rows and no log row, the table ends
    with the rows it had followed by the transformed rows of the file, one
    per row of the file and in the order of the file, each laid out on the
    columns of the table. *)
Theorem successful_load_appends (cfg : Config) (env : Env) (hpo_id tn : string)
  (tdf : list CdmRow) (table_map : Namespace) (w : World) (t : Table)
  (path f : string) (df out : DataFrame) :
  log_accepted env →
  is_Some (table_map !! tn) → tn ≠ LOG_TABLE_NAME →
  tables w !! tn = Some t →
  file_map env !! csv_filename cfg hpo_id tn = Some path →
  open_file env path = Ok f →
  read_csv env f = Ok df →
  transform (unique (map cdm_column_name tdf)) df = Ok out →
  first_error env tn (frame_rows out) = None →
  ∃ w',
    process_table cfg env hpo_id table_map w (tn, tdf) = (w', Ok tt)
    ∧ tables w' !! tn
      = Some (mkTable (tbl_columns t)
                      (tbl_rows t ++ map (stored_row t) (frame_rows out)))
    ∧ length (frame_rows out) = df_nrows df.
Proof.
  intros Hacc [t0 Ht0] Hne Ht Hfm Hopen Hread Htr Hload. unfold log_accepted in Hacc.
  unfold process_table. rewrite Ht0.
  unfold_table. accept_log.
  rewrite Hfm. accept_log. rewrite Hopen. accept_log. rewrite Hread. accept_log.
  rewrite Htr. accept_log.
  rewrite to_sql_run. unfold load_result, stored_rows. rewrite Hload. accept_log.
  eexists. split; [reflexivity|]. cbn. split.
  - rewrite insert_row_lookup_ne by done.
    rewrite accepted_rows_ok by done.
    apply insert_rows_lookup.
    by rewrite !insert_row_lookup_ne by done.
  - apply transform_spec in Htr as (re & _ & Hn & _).
    unfold frame_rows. by rewrite length_map, length_seq.
Qed.

Lemma successful_load_appends_witness :
  log_accepted ex_env ∧
  is_Some (tables ex_world !! "person") ∧ "person" ≠ LOG_TABLE_NAME ∧
  tables ex_world !! "person"
  = Some (mkTable [mkColumn "person_id" BigInteger false;
                   mkColumn "birth_datetime" (DateTime_fsp 6) true] []) ∧
  file_map ex_env !! csv_filename ex_cfg "nyc" "person"
  = Some "/data/NYC_Person_DataSprint_5.csv" ∧
  open_file ex_env "/data/NYC_Person_DataSprint_5.csv"
  = Ok "/data/NYC_Person_DataSprint_5.csv" ∧
  read_csv ex_env "/data/NYC_Person_DataSprint_5.csv" = Ok ex_persons ∧
  transform (unique (map cdm_column_name (catalog_lines ex_cfg "person"))) ex_persons
  = Ok (mkDF 1 [("person_id", [Some (VInt 1)]); ("birth_datetime", [None])]) ∧
  first_error ex_env "person"
    (frame_rows (mkDF 1 [("person_id", [Some (VInt 1)]); ("birth_datetime", [None])]))
  = None ∧
  ∃ w',
    process_table ex_cfg ex_env "nyc" (tables ex_world) ex_world
      ("person", catalog_lines ex_cfg "person") = (w', Ok tt)
    ∧ tables w' !! "person"
      = Some (mkTable [mkColumn "person_id" BigInteger false;
                       mkColumn "birth_datetime" (DateTime_fsp 6) true]
                ([] ++ map (stored_row
                              (mkTable [mkColumn "person_id" BigInteger false;
                                        mkColumn "birth_datetime" (DateTime_fsp 6) true] []))
                           (frame_rows (mkDF 1 [("person_id", [Some (VInt 1)]);
                                                ("birth_datetime", [None])]))))
    ∧ length (frame_rows (mkDF 1 [("person_id", [Some (VInt 1)]);
                                   ("birth_datetime", [None])]))
      = df_nrows ex_persons.
Proof.
  assert (is_Some (tables ex_world !! "person")) as Hsome.
  { eexists. vm_compute. reflexivity. }
  assert ("person" ≠ LOG_TABLE_NAME) as Hne by discriminate.
  assert (tables ex_world !! "person"
          = Some (mkTable [mkColumn "person_id" BigInteger false;
                           mkColumn "birth_datetime" (DateTime_fsp 6) true] [])) as Ht
    by (vm_compute; reflexivity).
  assert (file_map ex_env !! csv_filename ex_cfg "nyc" "person"
          = Some "/data/NYC_Person_DataSprint_5.csv") as Hfm by (vm_compute; reflexivity).
  assert (transform (unique (map cdm_column_name (catalog_lines ex_cfg "person"))) ex_persons
          = Ok (mkDF 1 [("person_id", [Some (VInt 1)]); ("birth_datetime", [None])])) as Htr
    by (vm_compute; reflexivity).
  assert (first_error ex_env "person"
            (frame_rows (mkDF 1 [("person_id", [Some (VInt 1)]); ("birth_datetime", [None])]))
          = None) as Hload by (vm_compute; reflexivity).
  assert (log_accepted ex_env) as Hacc by (intros kwargs; reflexivity).
  split; [exact Hacc|].
  split; [exact Hsome|]. split; [exact Hne|]. split; [exact Ht|]. split; [exact Hfm|].
  split; [reflexivity|]. split; [reflexivity|]. split; [exact Htr|]. split; [exact Hload|].
  exact (successful_load_appends ex_cfg ex_env "nyc" "person" _ _ ex_world _ _ _ _ _
           Hacc Hsome Hne Ht Hfm eq_refl eq_refl Htr Hload).
Defined.

Lemma process_tables_missing (cfg : Config) (env : Env) (hpo_id : string)
  (table_map : Namespace) (before after : list (string * list CdmRow))
  (t : string * list CdmRow) (w : World) :
  log_accepted env →
  (∀ t', t' ∈ before → is_Some (table_map !! t'.1) ∧ t'.1 ≠ LOG_TABLE_NAME) →
  table_map !! t.1 = None →
  ∃ w' segs,
    process_tables cfg env hpo_id table_map (before ++ t :: after) w
    = (w', Raise (KeyError t.1))
    ∧ segments cfg env hpo_id (clock w) before segs
    ∧ trace w' = trace w ++ concat segs.
Proof.
  intros Hacc Hall Hnone. revert w. induction before as [|[tn tdf] before IH]; intros w.
  - exists w, []. cbn [app process_tables]. destruct t as [tn tdf].
    unfold process_table. simpl in Hnone. rewrite Hnone.
    split; [done|]. split; [constructor|]. simpl. by rewrite app_nil_r.
  - destruct (Hall (tn, tdf)) as [Hsome Hne]; [apply elem_of_cons; by left|].
    destruct (process_table_run cfg env hpo_id table_map w tn tdf Hacc Hsome Hne)
      as (w1 & seg & Hrun & Hseg & Htr & Hc & _).
    destruct (IH (λ t' Ht', Hall t' (proj2 (elem_of_cons _ _ _) (or_intror Ht'))) w1)
      as (w' & segs & Hrun' & Hsegs & Htr').
    exists w', (seg :: segs). cbn [app process_tables]. rewrite Hrun, Hrun'.
    split; [done|]. split.
    + constructor; [done|]. by rewrite <- Hc.
    + simpl. by rewrite Htr', Htr, app_assoc.
Qed.

(** A table of the loop that the schema does not have is not a logged
    failure: the [KeyError] is raised before the [try], so it leaves
    [process]. The tables before it have been gone through (here with a
    database that refuses no log row); nothing is logged for it, and the
    tables after it are not attempted. *)
Theorem missing_table_aborts (cfg : Config) (env : Env) (hpo_id : string) (w : World)
  (before after : list (string * list CdmRow)) (t : string * list CdmRow) :
  log_accepted env →
  is_Some (tables w !! LOG_TABLE_NAME) →
  in_scope_tables cfg = before ++ t :: after →
  (∀ t', t' ∈ before → is_Some (tables w !! t'.1) ∧ t'.1 ≠ LOG_TABLE_NAME) →
  tables w !! t.1 = None →
  ∃ w' segs,
    process cfg env hpo_id w = (w', Raise (KeyError t.1))
    ∧ segments cfg env hpo_id (clock w) before segs
    ∧ trace w' = trace w ++ EvGlob (csv_dir cfg ++ "/*.csv") :: concat segs.
Proof.
  intros Hacc [lt Hlog] Hts Hall Hnone. unfold process. rewrite Hlog, Hts.
  destruct (process_tables_missing cfg env hpo_id (tables w) before after t
              (mkWorld (tables w) (clock w)
                       (trace w ++ [EvGlob (csv_dir cfg ++ "/*.csv")])) Hacc Hall Hnone)
    as (w' & segs & Hrun & Hsegs & Htr).
  exists w', segs. split; [done|]. split; [done|].
  rewrite Htr. simpl. by rewrite <- app_assoc.
Qed.

Lemma missing_table_aborts_witness :
  log_accepted ex_env ∧
  is_Some (tables ex_world_lacking !! LOG_TABLE_NAME) ∧
  in_scope_tables ex_cfg
  = [] ++ ("observation", catalog_lines ex_cfg "observation")
       :: [("person", catalog_lines ex_cfg "person")] ∧
  (∀ t' : string * list CdmRow, t' ∈ [] →
         is_Some (tables ex_world_lacking !! t'.1) ∧ t'.1 ≠ LOG_TABLE_NAME) ∧
  tables ex_world_lacking !! ("observation", catalog_lines ex_cfg "observation").1 = None ∧
  ∃ w' segs,
    process ex_cfg ex_env "nyc" ex_world_lacking
    = (w', Raise (KeyError ("observation", catalog_lines ex_cfg "observation").1))
    ∧ segments ex_cfg ex_env "nyc" (clock ex_world_lacking) [] segs
    ∧ trace w' = trace ex_world_lacking ++ EvGlob (csv_dir ex_cfg ++ "/*.csv") :: concat segs.
Proof.
  assert (is_Some (tables ex_world_lacking !! LOG_TABLE_NAME)) as Hlog.
  { eexists. vm_compute. reflexivity. }
  assert (in_scope_tables ex_cfg
          = [] ++ ("observation", catalog_lines ex_cfg "observation")
               :: [("person", catalog_lines ex_cfg "person")]) as Hts
    by (vm_compute; reflexivity).
  assert (∀ t' : string * list CdmRow, t' ∈ [] →
            is_Some (tables ex_world_lacking !! t'.1) ∧ t'.1 ≠ LOG_TABLE_NAME) as Hall.
  { intros t' Ht'. by apply elem_of_nil in Ht'. }
  assert (tables ex_world_lacking !! ("observation", catalog_lines ex_cfg "observation").1
          = None) as Hnone by (vm_compute; reflexivity).
  assert (log_accepted ex_env) as Hacc by (intros kwargs; reflexivity).
  split; [exact Hacc|].
  split; [exact Hlog|]. split; [exact Hts|]. split; [exact Hall|]. split; [exact Hnone|].
  exact (missing_table_aborts ex_cfg ex_env "nyc" ex_world_lacking [] _ _
           Hacc Hlog Hts Hall Hnone).
Defined.

(** ** The other ways a table is given up *)

(** A file that is found but cannot be opened is logged twice under the
    phase of its reception, which is still in force when [open] raises:
    with a database that refuses no log row, the success of the existence
    check, then the failure with the error of [open]. The file is not
    parsed, and no table but the log is written to. *)
Theorem unopenable_file_logged (cfg : Config) (env : Env) (hpo_id tn : string)
  (tdf : list CdmRow) (table_map : Namespace) (w : World) (path : string) (e : PyExc) :
  log_accepted env →
  is_Some (table_map !! tn) →
  file_map env !! csv_filename cfg hpo_id tn = Some path →
  open_file env path = Raise e →
  ∃ w',
    process_table cfg env hpo_id table_map w (tn, tdf) = (w', Ok tt)
    ∧ trace w'
      = trace w ++
        [ EvPhase (received_phase (csv_filename cfg hpo_id tn));
          EvLog (success_entry (utcnow env (clock w)) tn
                   (received_phase (csv_filename cfg hpo_id tn)));
          EvOpen path;
          EvLog (failure_entry (utcnow env (S (clock w))) tn
                   (received_phase (csv_filename cfg hpo_id tn)) e) ]
    ∧ ∀ n, n ≠ LOG_TABLE_NAME → tables w' !! n = tables w !! n.
Proof.
  intros Hacc [t Ht] Hfm Hopen. unfold log_accepted in Hacc.
  unfold process_table. rewrite Ht.
  unfold_table. accept_log.
  rewrite Hfm. accept_log. rewrite Hopen. accept_log.
  destruct e; accept_log;
    (eexists; split; [reflexivity|]; cbn; split;
     [by rewrite <- !app_assoc
     |intros n Hn; by rewrite !insert_row_lookup_ne by done]).
Qed.

Lemma unopenable_file_logged_witness :
  log_accepted ex_env_locked ∧
  is_Some (tables ex_world !! "person") ∧
  file_map ex_env_locked !! csv_filename ex_cfg "nyc" "person"
  = Some "/data/NYC_Person_DataSprint_5.csv" ∧
  open_file ex_env_locked "/data/NYC_Person_DataSprint_5.csv"
  = Raise (Exception "Permission denied") ∧
  ∃ w',
    process_table ex_cfg ex_env_locked "nyc" (tables ex_world) ex_world
      ("person", catalog_lines ex_cfg "person") = (w', Ok tt)
    ∧ trace w'
      = trace ex_world ++
        [ EvPhase (received_phase (csv_filename ex_cfg "nyc" "person"));
          EvLog (success_entry (utcnow ex_env_locked (clock ex_world)) "person"
                   (received_phase (csv_filename ex_cfg "nyc" "person")));
          EvOpen "/data/NYC_Person_DataSprint_5.csv";
          EvLog (failure_entry (utcnow ex_env_locked (S (clock ex_world))) "person"
                   (received_phase (csv_filename ex_cfg "nyc" "person"))
                   (Exception "Permission denied")) ]
    ∧ ∀ n, n ≠ LOG_TABLE_NAME → tables w' !! n = tables ex_world !! n.
Proof.
  assert (is_Some (tables ex_world !! "person")) as Hsome.
  { eexists. vm_compute. reflexivity. }
  assert (file_map ex_env_locked !! csv_filename ex_cfg "nyc" "person"
          = Some "/data/NYC_Person_DataSprint_5.csv") as Hfm by (vm_compute; reflexivity).
  assert (log_accepted ex_env_locked) as Hacc by (intros kwargs; reflexivity).
  split; [exact Hacc|].
  split; [exact Hsome|]. split; [exact Hfm|]. split; [reflexivity|].
  exact (unopenable_file_logged ex_cfg ex_env_locked "nyc" "person" _ _ ex_world _ _
           Hacc Hsome Hfm eq_refl).
Defined.

Lemma first_error_split (env : Env) (name : string)
  (pre post : list (list (string * Cell))) (r : list (string * Cell)) (e : PyExc) :
  Forall (λ x, insert_error env name x = None) pre →
  insert_error env name r = Some e →
  first_error env name (pre ++ r :: post) = Some e
  ∧ attempted_rows env name (pre ++ r :: post) = pre ++ [r]
  ∧ accepted_rows env name (pre ++ r :: post) = pre.
Proof.
  intros Hpre Hr. induction Hpre as [|x pre Hx _ IH]; simpl.
  - by rewrite Hr.
  - rewrite Hx. by destruct IH as (-> & -> & ->).
Qed.

(** The rows of a file go to the database one by one, and the load stops
    at the first row the database refuses: the rows before it and the
    refused row are the only ones handed over, the rows after it are never
    tried, and the table is given up under [Loading file into table] with
    the error of that row (the entry is written when the database refuses
    no log row, as is assumed here). The rows taken before stay in the
    table, after the rows it had, unless the database rolls the load
    back. *)
Theorem refused_row_stops_load (cfg : Config) (env : Env) (hpo_id tn : string)
  (tdf : list CdmRow) (table_map : Namespace) (w : World) (t : Table)
  (path f : string) (df out : DataFrame)
  (pre post : list (list (string * Cell))) (r : list (string * Cell)) (e : PyExc) :
  log_accepted env →
  is_Some (table_map !! tn) → tn ≠ LOG_TABLE_NAME →
  tables w !! tn = Some t →
  file_map env !! csv_filename cfg hpo_id tn = Some path →
  open_file env path = Ok f →
  read_csv env f = Ok df →
  transform (unique (map cdm_column_name tdf)) df = Ok out →
  frame_rows out = pre ++ r :: post →
  Forall (λ x, insert_error env tn x = None) pre →
  insert_error env tn r = Some e →
  ∃ w',
    process_table cfg env hpo_id table_map w (tn, tdf) = (w', Ok tt)
    ∧ trace w'
      = trace w ++
        [ EvPhase (received_phase (csv_filename cfg hpo_id tn));
          EvLog (success_entry (utcnow env (clock w)) tn
                   (received_phase (csv_filename cfg hpo_id tn)));
          EvOpen path;
          EvPhase PARSING;
          EvReadCsv path;
          EvLog (success_entry (utcnow env (S (clock w))) tn PARSING);
          EvPhase LOADING ]
        ++ map (EvInsert tn) (pre ++ [r])
        ++ [ EvLog (failure_entry (utcnow env (S (S (clock w)))) tn LOADING e) ]
    ∧ tables w' !! tn
      = Some (mkTable (tbl_columns t)
                (tbl_rows t ++ if rollback_on_error env then []
                               else map (stored_row t) pre)).
Proof.
  intros Hacc [t0 Ht0] Hne Ht Hfm Hopen Hread Htr Hrows Hpre Hr.
  unfold log_accepted in Hacc.
  destruct (first_error_split env tn pre post r e Hpre Hr) as (Hfirst & Hatt & Htaken).
  unfold process_table. rewrite Ht0.
  unfold_table. accept_log.
  rewrite Hfm. accept_log. rewrite Hopen. accept_log. rewrite Hread. accept_log.
  rewrite Htr. accept_log.
  rewrite to_sql_run. unfold load_result, stored_rows.
  rewrite Hrows, Hfirst, Hatt, Htaken. accept_log.
  assert (∀ rows ns,
            ns !! tn = Some t →
            foldl (λ ns r, insert_row tn r ns) ns
                  (if rollback_on_error env then [] else rows) !! tn
            = Some (mkTable (tbl_columns t)
                      (tbl_rows t ++ if rollback_on_error env then []
                                     else map (stored_row t) rows))) as Hstored.
  { intros rows ns Hns. destruct (rollback_on_error env).
    - simpl. rewrite Hns, app_nil_r. by destruct t.
    - by apply insert_rows_lookup. }
  destruct e; accept_log;
    (eexists; split; [reflexivity|]; cbn; split;
     [by rewrite <- !app_assoc
     |rewrite insert_row_lookup_ne by done; apply Hstored;
      by rewrite !insert_row_lookup_ne by done]).
Qed.

Lemma refused_row_stops_load_witness :
  log_accepted ex_env ∧
  is_Some (tables ex_world !! "observation") ∧ "observation" ≠ LOG_TABLE_NAME ∧
  tables ex_world !! "observation"
  = Some (mkTable [mkColumn "observation_id" BigInteger false;
                   mkColumn "observation_concept_id" BigInteger false;
                   mkColumn "observation_source_concept_id" BigInteger true] []) ∧
  file_map ex_env !! csv_filename ex_cfg "nyc" "observation"
  = Some "/data/nyc_observation_datasprint_5.csv" ∧
  open_file ex_env "/data/nyc_observation_datasprint_5.csv"
  = Ok "/data/nyc_observation_datasprint_5.csv" ∧
  read_csv ex_env "/data/nyc_observation_datasprint_5.csv" = Ok ex_observations ∧
  transform (unique (map cdm_column_name (catalog_lines ex_cfg "observation")))
            ex_observations
  = Ok ex_transformed ∧
  frame_rows ex_transformed
  = [[("observation_id", Some (VInt 1)); ("observation_concept_id", Some (VInt 0));
      ("observation_source_concept_id", None)]]
    ++ [("observation_id", None); ("observation_concept_id", Some (VInt 7));
        ("observation_source_concept_id", None)] :: [] ∧
  Forall (λ x, insert_error ex_env "observation" x = None)
         [[("observation_id", Some (VInt 1)); ("observation_concept_id", Some (VInt 0));
           ("observation_source_concept_id", None)]] ∧
  insert_error ex_env "observation"
    [("observation_id", None); ("observation_concept_id", Some (VInt 7));
     ("observation_source_concept_id", None)]
  = Some (StatementError "NOT NULL constraint failed"
            (ParamsObj "{'observation_id': None}")) ∧
  ∃ w',
    process_table ex_cfg ex_env "nyc" (tables ex_world) ex_world
      ("observation", catalog_lines ex_cfg "observation") = (w', Ok tt)
    ∧ trace w'
      = trace ex_world ++
        [ EvPhase (received_phase (csv_filename ex_cfg "nyc" "observation"));
          EvLog (success_entry (utcnow ex_env (clock ex_world)) "observation"
                   (received_phase (csv_filename ex_cfg "nyc" "observation")));
          EvOpen "/data/nyc_observation_datasprint_5.csv";
          EvPhase PARSING;
          EvReadCsv "/data/nyc_observation_datasprint_5.csv";
          EvLog (success_entry (utcnow ex_env (S (clock ex_world))) "observation" PARSING);
          EvPhase LOADING ]
        ++ map (EvInsert "observation")
               ([[("observation_id", Some (VInt 1));
                  ("observation_concept_id", Some (VInt 0));
                  ("observation_source_concept_id", None)]]
                ++ [[("observation_id", None); ("observation_concept_id", Some (VInt 7));
                     ("observation_source_concept_id", None)]])
        ++ [ EvLog (failure_entry (utcnow ex_env (S (S (clock ex_world)))) "observation"
                      LOADING
                      (StatementError "NOT NULL constraint failed"
                         (ParamsObj "{'observation_id': None}"))) ]
    ∧ tables w' !! "observation"
      = Some (mkTable
                (tbl_columns
                   (mkTable [mkColumn "observation_id" BigInteger false;
                             mkColumn "observation_concept_id" BigInteger false;
                             mkColumn "observation_source_concept_id" BigInteger true] []))
                (tbl_rows
                   (mkTable [mkColumn "observation_id" BigInteger false;
                             mkColumn "observation_concept_id" BigInteger false;
                             mkColumn "observation_source_concept_id" BigInteger true] [])
                 ++ if rollback_on_error ex_env then []
                    else map (stored_row
                                (mkTable [mkColumn "observation_id" BigInteger false;
                                          mkColumn "observation_concept_id" BigInteger false;
                                          mkColumn "observation_source_concept_id"
                                                   BigInteger true] []))
                             [[("observation_id", Some (VInt 1));
                               ("observation_concept_id", Some (VInt 0));
                               ("observation_source_concept_id", None)]])).
Proof.
  assert (is_Some (tables ex_world !! "observation")) as Hsome.
  { eexists. vm_compute. reflexivity. }
  assert ("observation" ≠ LOG_TABLE_NAME) as Hne by discriminate.
  assert (tables ex_world !! "observation"
          = Some (mkTable [mkColumn "observation_id" BigInteger false;
                           mkColumn "observation_concept_id" BigInteger false;
                           mkColumn "observation_source_concept_id" BigInteger true] []))
    as Ht by (vm_compute; reflexivity).
  assert (file_map ex_env !! csv_filename ex_cfg "nyc" "observation"
          = Some "/data/nyc_observation_datasprint_5.csv") as Hfm
    by (vm_compute; reflexivity).
  assert (transform (unique (map cdm_column_name (catalog_lines ex_cfg "observation")))
                    ex_observations
          = Ok ex_transformed) as Htr by (vm_compute; reflexivity).
  assert (frame_rows ex_transformed
          = [[("observation_id", Some (VInt 1)); ("observation_concept_id", Some (VInt 0));
              ("observation_source_concept_id", None)]]
            ++ [("observation_id", None); ("observation_concept_id", Some (VInt 7));
                ("observation_source_concept_id", None)] :: []) as Hrows
    by (vm_compute; reflexivity).
  assert (Forall (λ x, insert_error ex_env "observation" x = None)
            [[("observation_id", Some (VInt 1)); ("observation_concept_id", Some (VInt 0));
              ("observation_source_concept_id", None)]]) as Hpre.
  { constructor; [vm_compute; reflexivity|constructor]. }
  assert (insert_error ex_env "observation"
            [("observation_id", None); ("observation_concept_id", Some (VInt 7));
             ("observation_source_concept_id", None)]
          = Some (StatementError "NOT NULL constraint failed"
                    (ParamsObj "{'observation_id': None}"))) as Hr
    by (vm_compute; reflexivity).
  assert (log_accepted ex_env) as Hacc by (intros kwargs; reflexivity).
  split; [exact Hacc|].
  split; [exact Hsome|]. split; [exact Hne|]. split; [exact Ht|]. split; [exact Hfm|].
  split; [reflexivity|]. split; [reflexivity|]. split; [exact Htr|]. split; [exact Hrows|].
  split; [exact Hpre|]. split; [exact Hr|].
  exact (refused_row_stops_load ex_cfg ex_env "nyc" "observation" _ _ ex_world _ _ _ _ _
           _ _ _ _ Hacc Hsome Hne Ht Hfm eq_refl eq_refl Htr Hrows Hpre Hr).
Defined.

(** ** A site from the reset to the export *)

Lemma schema_tables_set (schema : option string) (ns : Namespace) (db : Database) :
  schema_tables schema (set_schema_tables schema ns db) = ns.
Proof. destruct schema; simpl; [by rewrite lookup_insert_eq|done]. Qed.

Lemma main_site_run (cfg : Config) (env : Env) (hpo_id : string) (s : Sys) :
  log_accepted env →
  is_ok (create_tables cfg ∅) = true →
  ∃ s' evs,
    main_site cfg env hpo_id s = (s', Ok tt)
    ∧ sys_trace s' = sys_trace s ++ EvPrint ("Processing " ++ hpo_id ++ "...") :: evs
    ∧ schema_tables (schema_of cfg hpo_id) (sys_db s') !! LOG_TABLE_NAME
      = Some (mkTable log_columns (map entry_row (logged evs))).
Proof.
  intros Hacc Hok. unfold main_site.
  set (db := if use_multi_schemas cfg then _ else _).
  destruct (reset_tables cfg (schema_tables (schema_of cfg hpo_id) db))
    as [ns r] eqn:Hreset.
  assert (r = Ok tt
          ∧ create_tables cfg (drop_tables cfg (schema_tables (schema_of cfg hpo_id) db))
            = Ok ns) as [-> Hc].
  { revert Hreset. unfold reset_tables.
    destruct (create_tables_always cfg
                (drop_tables cfg (schema_tables (schema_of cfg hpo_id) db)) Hok)
      as [ns' Hc']. rewrite Hc'. intros ?. by simplify_eq. }
  destruct (reset_tables_created _ _ _ Hc) as [Hlog _].
  apply reset_ready in Hreset.
  destruct (process_run cfg env hpo_id
              (mkWorld ns (sys_clock s)
                 (sys_trace s ++ [EvPrint ("Processing " ++ hpo_id ++ "...")])) Hacc Hreset)
    as (w' & segs & -> & _ & Htr & _ & Hl).
  exists (mkSys (set_schema_tables (schema_of cfg hpo_id) (tables w') db)
                (clock w') (trace w')),
         (EvGlob (csv_dir cfg ++ "/*.csv") :: concat segs).
  split; [done|]. simpl. split.
  - rewrite Htr. simpl. by rewrite <- app_assoc.
  - rewrite schema_tables_set. by apply (Hl []).
Qed.

Lemma main_site_frame (cfg : Config) (env : Env) (hpo_id : string) (s : Sys) :
  if use_multi_schemas cfg
  then default_schema (sys_db (main_site cfg env hpo_id s).1) = default_schema (sys_db s)
       ∧ ∀ x, x ≠ hpo_id →
              schemas (sys_db (main_site cfg env hpo_id s).1) !! x = schemas (sys_db s) !! x
  else schemas (sys_db (main_site cfg env hpo_id s).1) = schemas (sys_db s).
Proof.
  unfold main_site, schema_of. destruct (use_multi_schemas cfg).
  - destruct (reset_tables _ _) as [ns [[]|e]]; [destruct (process _ _ _ _) as [w r]|];
      simpl; unfold create_schema;
      (destruct (schemas (sys_db s) !! hpo_id) eqn:Hs; simpl;
       (split; [done|]; intros x Hx; by rewrite ?lookup_insert_ne by done)).
  - destruct (reset_tables _ _) as [ns [[]|e]]; [destruct (process _ _ _ _) as [w r]|];
      done.
Qed.

Lemma main_loop_frame (cfg : Config) (env : Env) (ids : list string) (s : Sys) :
  if use_multi_schemas cfg
  then default_schema (sys_db (main_loop cfg env ids s).1) = default_schema (sys_db s)
       ∧ ∀ x, x ∉ ids →
              schemas (sys_db (main_loop cfg env ids s).1) !! x = schemas (sys_db s) !! x
  else schemas (sys_db (main_loop cfg env ids s).1) = schemas (sys_db s).
Proof.
  revert s. induction ids as [|h ids IH]; intros s; simpl.
  - by destruct (use_multi_schemas cfg).
  - pose proof (main_site_frame cfg env h s) as Hs.
    destruct (main_site cfg env h s) as [s1 [[]|e]]; simpl in *.
    + specialize (IH s1). destruct (use_multi_schemas cfg).
      * destruct IH as [IHd IHs], Hs as [Hd Hs]. split; [congruence|].
        intros x [Hne Hx]%not_elem_of_cons. rewrite IHs by done. by apply Hs.
      * congruence.
    + destruct (use_multi_schemas cfg); [|done].
      destruct Hs as [Hd Hs]. split; [done|].
      intros x [Hne _]%not_elem_of_cons. by apply Hs.
Qed.

Lemma main_loop_app (cfg : Config) (env : Env) (a b : list string) (s s1 : Sys) :
  main_loop cfg env a s = (s1, Ok tt) →
  main_loop cfg env (a ++ b) s = main_loop cfg env b s1.
Proof.
  revert s. induction a as [|h a IH]; intros s; simpl.
  - intros ?. by simplify_eq.
  - destruct (main_site cfg env h s) as [s2 [[]|e]]; [apply IH|done].
Qed.


(** With a database that refuses no log row, processing a site leaves in
    the log table of its schema exactly the entries written during this
    run, in the order written: whatever the log held before is gone with
    the reset. The export of that site is then these entries without their
    [params], each labelled with the site. *)
Theorem site_log_exported (cfg : Config) (env : Env) (hpo_id : string) (s : Sys) :
  log_accepted env →
  is_ok (create_tables cfg ∅) = true →
  ∃ s' evs,
    main_site cfg env hpo_id s = (s', Ok tt)
    ∧ sys_trace s' = sys_trace s ++ EvPrint ("Processing " ++ hpo_id ++ "...") :: evs
    ∧ log_rows (schema_tables (schema_of cfg hpo_id) (sys_db s'))
      = map entry_row (logged evs)
    ∧ export_sites cfg (sys_db s') [hpo_id]
      = Ok (map (exported_record hpo_id) (logged evs)).
Proof.
  intros Hacc Hok.
  destruct (main_site_run cfg env hpo_id s Hacc Hok) as (s' & evs & Hrun & Htr & Hlog).
  exists s', evs. split; [done|]. split; [done|]. split.
  - unfold log_rows. by rewrite Hlog.
  - rewrite (export_sites_entries cfg (sys_db s') [hpo_id] (λ _, logged evs)).
    + simpl. by rewrite app_nil_r.
    + intros h ->%list_elem_of_singleton. done.
Qed.

Lemma site_log_exported_witness :
  log_accepted ex_env ∧
  is_ok (create_tables ex_cfg ∅) = true ∧
  ∃ s' evs,
    main_site ex_cfg ex_env "nyc" ex_sys = (s', Ok tt)
    ∧ sys_trace s' = sys_trace ex_sys ++ EvPrint ("Processing " ++ "nyc" ++ "...") :: evs
    ∧ log_rows (schema_tables (schema_of ex_cfg "nyc") (sys_db s'))
      = map entry_row (logged evs)
    ∧ export_sites ex_cfg (sys_db s') ["nyc"]
      = Ok (map (exported_record "nyc") (logged evs)).
Proof.
  assert (is_ok (create_tables ex_cfg ∅) = true) as Hok by (vm_compute; reflexivity).
  assert (log_accepted ex_env) as Hacc by (intros kwargs; reflexivity).
  split; [exact Hacc|]. split; [exact Hok|].
  exact (site_log_exported ex_cfg ex_env "nyc" ex_sys Hacc Hok).
Defined.



(** With one schema for all the sites, each site's reset drops the log of
    the site before it: with a database that refuses no log row, after a
    run the log holds the entries of the last site only, and the export
    gives these entries once for every site, labelled with each site in
    turn. The entries of the earlier sites are not exported. *)
Theorem shared_schema_export (cfg : Config) (env : Env) (s : Sys)
  (before : list string) (last : string) :
  log_accepted env →
  use_multi_schemas cfg = false → hpo_ids cfg = before ++ [last] →
  is_ok (create_tables cfg ∅) = true →
  ∃ s1 s' evs,
    main_loop cfg env before s = (s1, Ok tt)
    ∧ main cfg env s = (s', Ok tt)
    ∧ sys_trace s' = sys_trace s1 ++ EvPrint ("Processing " ++ last ++ "...") :: evs
    ∧ log_rows (default_schema (sys_db s')) = map entry_row (logged evs)
    ∧ export_log cfg (sys_db s')
      = Ok (concat (map (λ h, map (exported_record h) (logged evs)) (hpo_ids cfg))).
Proof.
  intros Hacc Hm Hids Hok.
  destruct (main_loop_ok cfg env before s Hacc Hok) as [s1 Hrun1].
  destruct (main_site_run cfg env last s1 Hacc Hok) as (s' & evs & Hrun & Htr & Hlog).
  unfold schema_of in Hlog. rewrite Hm in Hlog. simpl in Hlog.
  exists s1, s', evs. split; [done|]. split.
  { unfold main. rewrite Hids, (main_loop_app _ _ _ _ _ _ Hrun1). simpl. by rewrite Hrun. }
  split; [done|]. split.
  - unfold log_rows. by rewrite Hlog.
  - unfold export_log.
    apply (export_sites_entries cfg (sys_db s') (hpo_ids cfg) (λ _, logged evs)).
    intros h _. unfold schema_of. by rewrite Hm.
Qed.

Lemma shared_schema_export_witness :
  log_accepted ex_env ∧
  use_multi_schemas ex_cfg_shared = false ∧ hpo_ids ex_cfg_shared = ["nyc"] ++ ["pitt"] ∧
  is_ok (create_tables ex_cfg_shared ∅) = true ∧
  ∃ s1 s' evs,
    main_loop ex_cfg_shared ex_env ["nyc"] ex_sys = (s1, Ok tt)
    ∧ main ex_cfg_shared ex_env ex_sys = (s', Ok tt)
    ∧ sys_trace s' = sys_trace s1 ++ EvPrint ("Processing " ++ "pitt" ++ "...") :: evs
    ∧ log_rows (default_schema (sys_db s')) = map entry_row (logged evs)
    ∧ export_log ex_cfg_shared (sys_db s')
      = Ok (concat (map (λ h, map (exported_record h) (logged evs))
                        (hpo_ids ex_cfg_shared))).
Proof.
  assert (is_ok (create_tables ex_cfg_shared ∅) = true) as Hok
    by (vm_compute; reflexivity).
  assert (log_accepted ex_env) as Hacc by (intros kwargs; reflexivity).
  split; [exact Hacc|].
  split; [reflexivity|]. split; [reflexivity|]. split; [exact Hok|].
  exact (shared_schema_export ex_cfg_shared ex_env ex_sys ["nyc"] "pitt"
           Hacc eq_refl eq_refl Hok).
Defined.

(** A run writes to the schemas of its sites only. With a schema per
    site, the default schema and every schema that is not a site's are
    left as they were (a schema that did not exist is not created); with
    one schema for all, no named schema is touched. This holds however
    the run ends. *)
Theorem run_touches_only_site_schemas (cfg : Config) (env : Env) (s : Sys) :
  if use_multi_schemas cfg
  then default_schema (sys_db (main cfg env s).1) = default_schema (sys_db s)
       ∧ ∀ x, x ∉ hpo_ids cfg →
              schemas (sys_db (main cfg env s).1) !! x = schemas (sys_db s) !! x
  else schemas (sys_db (main cfg env s).1) = schemas (sys_db s).
Proof. apply main_loop_frame. Qed.

(** The export is all or nothing: when the schema of one configured site
    has no log table, [export_log] raises and hands nothing to be written,
    whatever the logs of the other sites hold. *)
Theorem export_all_or_nothing (cfg : Config) (db : Database) (hpo_id : string) :
  hpo_id ∈ hpo_ids cfg →
  schema_tables (schema_of cfg hpo_id) db !! LOG_TABLE_NAME = None →
  is_ok (export_log cfg db) = false.
Proof.
  unfold export_log. intros Hin Hnone.
  induction (hpo_ids cfg) as [|h ids IH]; [by apply elem_of_nil in Hin|].
  simpl. apply elem_of_cons in Hin as [<-|Hin].
  - by rewrite Hnone.
  - destruct (schema_tables (schema_of cfg h) db !! LOG_TABLE_NAME) as [lt|]; [|done].
    destruct (export_rows _ _ _) as [items|e]; [|done].
    specialize (IH Hin). by destruct (export_sites cfg db ids).
Qed.

Lemma export_all_or_nothing_witness :
  "pitt" ∈ hpo_ids ex_cfg ∧
  schema_tables (schema_of ex_cfg "pitt") ex_db_partial !! LOG_TABLE_NAME = None ∧
  is_ok (export_log ex_cfg ex_db_partial) = false.
Proof.
  assert ("pitt" ∈ hpo_ids ex_cfg) as Hin
    by apply list_elem_of_further, list_elem_of_here.
  assert (schema_tables (schema_of ex_cfg "pitt") ex_db_partial !! LOG_TABLE_NAME = None)
    as Hnone by (vm_compute; reflexivity).
  split; [exact Hin|]. split; [exact Hnone|].
  exact (export_all_or_nothing ex_cfg ex_db_partial "pitt" Hin Hnone).
Defined.

(** ** The files of the tables of a site *)

Lemma append_inv_head (p a b : string) : (p ++ a)%string = (p ++ b)%string → a = b.
Proof. induction p as [|c p IH]; simpl; [done|]. intros [= H]. by apply IH. Qed.

Lemma append_length (a b : string) :
  String.length (a ++ b)%string = (String.length a + String.length b)%nat.
Proof. induction a as [|c a IH]; simpl; [done|]. by rewrite IH. Qed.

Lemma append_inv_tail (a b r : string) : (a ++ r)%string = (b ++ r)%string → a = b.
Proof.
  revert b. induction a as [|c a IH]; intros [|d b] H; simpl in H.
  - done.
  - apply (f_equal String.length) in H. simpl in H.
    rewrite ?append_length in H. simpl in H. lia.
  - apply (f_equal String.length) in H. simpl in H.
    rewrite ?append_length in H. simpl in H. lia.
  - injection H as -> H. f_equal. by apply IH.
Qed.

(** Within a site no file serves two tables: when the expected names of
    two tables resolve to the same path, they are the same table. *)
Theorem one_file_one_table (cfg : Config) (env : Env) (hpo_id t1 t2 p : string) :
  file_map env !! csv_filename cfg hpo_id t1 = Some p →
  file_map env !! csv_filename cfg hpo_id t2 = Some p →
  t1 = t2.
Proof.
  intros [_ H1]%file_map_Some [_ H2]%file_map_Some.
  rewrite H1 in H2. unfold csv_filename in H2.
  do 2 apply append_inv_head in H2.
  by apply append_inv_tail in H2.
Qed.

Lemma one_file_one_table_witness :
  file_map ex_env !! csv_filename ex_cfg "nyc" "observation"
  = Some "/data/nyc_observation_datasprint_5.csv" ∧
  "observation" = "observation".
Proof.
  assert (file_map ex_env !! csv_filename ex_cfg "nyc" "observation"
          = Some "/data/nyc_observation_datasprint_5.csv") as Hfm
    by (vm_compute; reflexivity).
  split; [exact Hfm|].
  exact (one_file_one_table ex_cfg ex_env "nyc" "observation" "observation" _ Hfm Hfm).
Defined.
